(** * whatsapp-b: bulk-messaging gateway

    A shallow embedding of the three server variants of the repository:

    - the first file of [src/server.js] (lines 1-325), the "loop variant":
      [POST /send-bulk-messages] sends to every number in a [for] loop;
    - the second file of [src/server.js] (lines 325-695), the "queue
      variant": requests are turned into tasks of [messageQueue], drained by
      [processMessageQueue];
    - [src/unnamed/part_000], a loop variant that sends media with a caption.

    JavaScript strings are modelled as [string] (sequences of bytes).  The
    only character classes the code looks at are ASCII ([\D], the prefixes
    ['20'] and ['video/']), and no byte of a multi-byte UTF-8 character is an
    ASCII byte, so working on bytes selects the same characters. *)

From Stdlib Require Import String Ascii List Bool Arith Lia Sorted.
From Stdlib Require Import DecimalString.
Import ListNotations.
Local Open Scope string_scope.
Local Open Scope list_scope.

(** ** Number normalisation

    [number.toString().replace(/\D/g, '')], then ['20' +] unless the result
    [startsWith('20')] (server.js 231-234, 618-621; part_000 241-244). *)

Module Normalize.

(** [\d]: the ASCII digits 0-9. *)
Definition isDigit (c : ascii) : bool :=
  Nat.leb 48 (nat_of_ascii c) && Nat.leb (nat_of_ascii c) 57.

(** [s.replace(/\D/g, '')] *)
Fixpoint stripNonDigits (s : string) : string :=
  match s with
  | EmptyString => EmptyString
  | String c r =>
      if isDigit c then String c (stripNonDigits r) else stripNonDigits r
  end.

(** [s.startsWith(p)] *)
Definition startsWith (p s : string) : bool := String.prefix p s.

Definition formatNumber (number : string) : string :=
  let formattedNumber := stripNonDigits number in
  if startsWith "20" formattedNumber then formattedNumber
  else ("20" ++ formattedNumber)%string.

(** [`${formattedNumber}@c.us`] *)
Definition chatIdOf (formattedNumber : string) : string :=
  (formattedNumber ++ "@c.us")%string.

Fixpoint allDigits (s : string) : bool :=
  match s with
  | EmptyString => true
  | String c r => isDigit c && allDigits r
  end.

End Normalize.

(** ** JavaScript values of the request body *)

Module Js.

(** [if (message)]: [undefined], [null] and [''] are falsy. *)
Definition truthy (message : option string) : bool :=
  match message with
  | Some EmptyString => false
  | Some _ => true
  | None => false
  end.

(** The string a truthy [message] holds. *)
Definition textOf (message : option string) : string :=
  match message with Some m => m | None => EmptyString end.

(** [client] (or any object reference) used as a condition. *)
Definition present {A} (x : option A) : bool :=
  match x with Some _ => true | None => false end.

(** [mediaPaths && mediaPaths.length > 0]: the paths to iterate, if any. *)
Definition nonEmpty {A} (mediaPaths : option (list A)) : option (A * list A) :=
  match mediaPaths with
  | Some (p :: rest) => Some (p, rest)
  | _ => None
  end.

(** An awaited call either resolves with a value or rejects/throws with an
    [Error] whose [message] is kept. *)
Inductive result (A : Type) : Type :=
  | Ok (a : A)
  | Throw (message : string).
Arguments Ok {A} a.
Arguments Throw {A} message.

(** [req.body] of [POST /send-bulk-messages]; [numbers = None] stands for a
    missing value or one that is not an array, [Some l] for an array whose
    elements are strings, or values with a [toString()] that are given by
    that string. *)
Record body : Type := mkBody {
  numbers : option (list string);
  message : option string;
  mediaPaths : option (list string)
}.

(** What the handler sends back. [Results] is [res.json({ results })] with
    [results.success] and [results.failed] (entries [{number, reason}]) in
    push order. *)
Inductive response : Type :=
  | Status400 (error : string)
  | Status500 (error : string)
  | Results (success : list string) (failed : list (string * string)).

Definition ERR_NOT_CONNECTED := "WhatsApp client not connected".
Definition ERR_NOT_INITIALIZED := "WhatsApp client not initialized".
Definition ERR_NUMBERS := "يجب توفير قائمة صالحة من الأرقام".
Definition ERR_NO_CONTENT := "يجب توفير رسالة أو ملف وسائط".
Definition ERR_NOT_REGISTERED := "رقم غير مسجل في واتساب".
Definition ERR_MEDIA_MISSING := "ملف الوسائط غير موجود".
Definition ERR_MEDIA_TYPE := "نوع الملف غير مدعوم".
Definition ERR_MEDIA_SIZE := "حجم الملف كبير جداً. الحد الأقصى هو 16 ميجابايت".
Definition ERR_MEDIA_PREFIX := "فشل في إرسال الوسائط: ".
(** The engine's [TypeError] messages for the call of [method] on
    [client === null] and for [mimeType.startsWith] on [false]. *)
Definition TYPEERR_NULL_CLIENT (method : string) : string :=
  ("Cannot read properties of null (reading '" ++ method ++ "')")%string.
Definition TYPEERR_STARTSWITH := "mimeType.startsWith is not a function".
(** The prefix of the status 500 of the queue variant and of part_000, and
    the engine's message for [number.toString()] on [null]. *)
Definition ERR_PROCESSING := "خطأ في معالجة الطلب: ".
Definition TYPEERR_TOSTRING :=
  "Cannot read properties of null (reading 'toString')".

End Js.

(** ** The connection driver and the content store, as the code sees them *)

Module Driver.

Inductive content : Type :=
  | Text (text : string)
  | Media (mimetype data filename : string).  (* new MessageMedia(...) *)

(** The options object of [client.sendMessage(chatId, media, {...})];
    [caption = None] when the key is absent or its value [undefined]. *)
Record options : Type := mkOptions {
  sendMediaAsDocument : bool;
  caption : option string
}.

(** What is observable of a run, in the order it happens. *)
Inductive action : Type :=
  | IsRegisteredUser (chatId : string)
  | SendMessage (chatId : string) (c : content) (o : option options)
  | Begin (promise : nat) (number : string)
      (* const task = messageQueue[0]: the loop takes up a task *)
  | Resolve (promise : nat) (number : string)
  | Reject (promise : nat) (number : string) (error : string).

(** The replies of the chat network to the calls made on [client]. *)
Record oracle : Type := mkOracle {
  isRegisteredUser : string -> Js.result bool;
  sendMessage : string -> content -> option options -> Js.result unit
}.

(** The files behind the media paths; every function takes the [mediaPath] of
    the request and answers for [path.join(process.cwd(), mediaPath)]. *)
Record files : Type := mkFiles {
  existsSync : string -> bool;
  lookup : string -> option string;        (* mime.lookup: [false] is [None] *)
  readBase64 : string -> Js.result string; (* readFileSync / read stream *)
  statSize : string -> Js.result nat;      (* fs.statSync(fullPath).size *)
  basename : string -> string
}.

Definition isSend (a : action) : bool :=
  match a with SendMessage _ _ _ => true | _ => false end.

Definition sendsTo (chatId : string) (a : action) : bool :=
  match a with SendMessage c _ _ => String.eqb c chatId | _ => false end.

End Driver.

(** ** Connection state: [client], [connectionStatus], [qrCodeData] *)

Module Session.

Inductive status : Type :=
  | disconnected
  | disconnecting
  | initializing
  | waiting_for_qr
  | authenticating
  | connected
  | connecting (percent : nat).     (* `connecting:${percent}` *)

(** The three globals, and [constructed], the number of [new Client(...)]
    evaluated so far; clients are named by their construction index. *)
Record state : Type := mkState {
  client : option nat;
  connectionStatus : status;
  qrCodeData : option string;
  constructed : nat
}.

(** The module's initial bindings, before the top-level
    [initializeWhatsApp()]. *)
Definition init : state := mkState None disconnected None 0.

Definition setStatus (st : status) (s : state) : state :=
  mkState (client s) st (qrCodeData s) (constructed s).

(** [initializeWhatsApp()]; [throws] tells whether [client.initialize()]
    throws synchronously (the [catch] of the final [try]). The handlers
    registered with [client.on] are the functions below. *)
Definition initializeWhatsApp (throws : bool) (s : state) : state :=
  mkState (Some (constructed s))
          (if throws then disconnected else initializing)
          (qrCodeData s)
          (S (constructed s)).

(** [client.on('qr', ...)] *)
Definition on_qr (qr : string) (s : state) : state :=
  mkState (client s) waiting_for_qr (Some qr) (constructed s).

(** [client.on('loading_screen', ...)] *)
Definition on_loading_screen (percent : nat) (s : state) : state :=
  setStatus (connecting percent) s.

(** [client.on('ready', ...)], the part on the three globals *)
Definition on_ready (s : state) : state :=
  mkState (client s) connected None (constructed s).

(** [client.on('authenticated', ...)] *)
Definition on_authenticated (s : state) : state :=
  setStatus authenticating s.

(** [client.on('auth_failure', ...)] and [client.initialize().catch(...)], up
    to [connectionStatus = 'disconnected'] *)
Definition on_auth_failure (s : state) : state :=
  setStatus disconnected s.

(** [destroyClient()] up to [await client.destroy()] *)
Definition destroyClient_begin (s : state) : state :=
  setStatus disconnecting s.

(** [destroyClient()] from the [await] on; [destroyed] tells whether
    [client = null] was executed, that is whether there was a client and
    [client.destroy()] resolved. *)
Definition destroyClient_end (destroyed : bool) (s : state) : state :=
  mkState (if destroyed then None else client s) disconnected None
          (constructed s).

(** [GET /status] *)
Definition currentStatus (s : state) : status * option string :=
  (connectionStatus s, qrCodeData s).

(** Every handler and route of the three servers changes the globals through
    a sequence of these steps. *)
Inductive event : Type :=
  | Initialize (throws : bool)
  | Qr (qr : string)
  | LoadingScreen (percent : nat)
  | Ready
  | Authenticated
  | AuthFailure
  | DestroyBegin
  | DestroyEnd (destroyed : bool)
  | SetInitializing.            (* connectionStatus = 'initializing' *)

Definition step (s : state) (e : event) : state :=
  match e with
  | Initialize throws => initializeWhatsApp throws s
  | Qr qr => on_qr qr s
  | LoadingScreen p => on_loading_screen p s
  | Ready => on_ready s
  | Authenticated => on_authenticated s
  | AuthFailure => on_auth_failure s
  | DestroyBegin => destroyClient_begin s
  | DestroyEnd d => destroyClient_end d s
  | SetInitializing => setStatus initializing s
  end.

Definition run (es : list event) (s : state) : state := fold_left step es s.

Definition isAwaitingPairing (st : status) : bool :=
  match st with waiting_for_qr => true | _ => false end.

Definition isConnected (st : status) : bool :=
  match st with connected => true | _ => false end.

End Session.

(** ** Sequential code that calls the driver

    A computation yields its result, or the [Error] it throws, together with
    the actions it performed, oldest first. *)

Module Run.

Import Js.

Definition M (A : Type) : Type := (result A * list Driver.action)%type.

Definition ret {A} (a : A) : M A := (Ok a, []).
Definition throw {A} (message : string) : M A := (Throw message, []).
Definition lift {A} (r : result A) : M A := (r, []).

Definition bind {A B} (m : M A) (f : A -> M B) : M B :=
  match m with
  | (Ok a, l) => let (r, l') := f a in (r, l ++ l')
  | (Throw e, l) => (Throw e, l)
  end.

(** [try { m } catch (error) { h(error.message) }] *)
Definition tryCatch {A} (m : M A) (h : string -> M A) : M A :=
  match m with
  | (Ok a, l) => (Ok a, l)
  | (Throw e, l) => let (r, l') := h e in (r, l ++ l')
  end.

(** [for (const x of l) { f(x) }], left at the first throw *)
Fixpoint forOf {A} (f : A -> M unit) (l : list A) : M unit :=
  match l with
  | [] => ret tt
  | x :: rest => bind (f x) (fun _ => forOf f rest)
  end.

Definition actions {A} (m : M A) : list Driver.action := snd m.

End Run.

Declare Scope run_scope.
Delimit Scope run_scope with run.
Notation "x <- m ;; k" := (Run.bind m (fun x => k))
  (at level 61, m at next level, right associativity) : run_scope.
Notation "m ;; k" := (Run.bind m (fun _ => k))
  (at level 61, right associativity) : run_scope.

(** ** The loop variant: server.js, first file, lines 210-298 *)

Module LoopVariant.

Import Js Driver.
Local Open Scope run_scope.

Section Handler.

Variable net : oracle.
Variable fs : files.

(** [await client.isRegisteredUser(chatId)] *)
Definition callIsRegisteredUser (chatId : string) : Run.M bool :=
  (isRegisteredUser net chatId, [IsRegisteredUser chatId]).

(** [await client.sendMessage(chatId, c, o)] *)
Definition callSendMessage (chatId : string) (c : content)
    (o : option options) : Run.M unit :=
  (sendMessage net chatId c o, [SendMessage chatId c o]).

(** Lines 252-278, the body of [for (const mediaPath of mediaPaths)]. *)
Definition sendMedia (chatId mediaPath : string) : Run.M unit :=
  Run.tryCatch
    (if negb (existsSync fs mediaPath) then Run.throw ERR_MEDIA_MISSING
     else
       match lookup fs mediaPath with
       | None => Run.throw ERR_MEDIA_TYPE
       | Some mimeType =>
           data <- Run.lift (readBase64 fs mediaPath) ;;
           callSendMessage chatId
             (Media mimeType data (basename fs mediaPath))
             (Some (mkOptions (Normalize.startsWith "video/" mimeType) None))
       end)
    (fun mediaError => Run.throw (ERR_MEDIA_PREFIX ++ mediaError)%string).

(** Lines 231-282, the [try] block for one number; its value is the
    [formattedNumber] pushed to [results.success]. *)
Definition sendOne (b : body) (number : string) : Run.M string :=
  let formattedNumber := Normalize.formatNumber number in
  let chatId := Normalize.chatIdOf formattedNumber in
  isRegistered <- callIsRegisteredUser chatId ;;
  if negb isRegistered then Run.throw ERR_NOT_REGISTERED
  else
    (if truthy (message b)
     then callSendMessage chatId (Text (textOf (message b))) None
     else Run.ret tt) ;;
    match nonEmpty (mediaPaths b) with
    | Some (p, rest) => Run.forOf (sendMedia chatId) (p :: rest)
    | None => Run.ret tt
    end ;;
    Run.ret formattedNumber.

(** Lines 229-295: [for (const number of numbers)], with the [catch] that
    pushes [{number, reason}]; the state is [results] and the actions so
    far. The delays are not modelled. *)
Fixpoint sendAll (b : body) (numbers : list string)
    (success : list string) (failed : list (string * string))
    (log : list action) : response * list action :=
  match numbers with
  | [] => (Results success failed, log)
  | number :: rest =>
      match sendOne b number with
      | (Ok formattedNumber, l) =>
          sendAll b rest (success ++ [formattedNumber]) failed (log ++ l)
      | (Throw reason, l) =>
          sendAll b rest success (failed ++ [(number, reason)]) (log ++ l)
      end
  end.

(** [POST /send-bulk-messages], run without a lifecycle event arriving while
    the handler is suspended. *)
Definition sendBulkMessages (s : Session.state) (b : body)
    : response * list action :=
  if negb (present (Session.client s)
           && Session.isConnected (Session.connectionStatus s))
  then (Status400 ERR_NOT_CONNECTED, [])
  else
    match numbers b with
    | None | Some [] => (Status400 ERR_NUMBERS, [])
    | Some (n :: ns) =>
        if negb (truthy (message b))
           && negb (present (nonEmpty (mediaPaths b)))
        then (Status400 ERR_NO_CONTENT, [])
        else sendAll b (n :: ns) [] [] []
    end.

End Handler.

End LoopVariant.

(** ** The caption variant: src/unnamed/part_000, lines 224-352 *)

Module CaptionVariant.

Import Js Driver.
Local Open Scope run_scope.

Section Handler.

Variable net : oracle.
Variable fs : files.

Definition MAX_SIZE : nat := 16 * 1024 * 1024.

(** Lines 256-320, the body of [for (const mediaPath of mediaPaths)]. *)
Definition sendMedia (message : option string) (chatId mediaPath : string)
    : Run.M unit :=
  Run.tryCatch
    (if negb (existsSync fs mediaPath) then Run.throw ERR_MEDIA_MISSING
     else
       match lookup fs mediaPath with
       | None => Run.throw ERR_MEDIA_TYPE
       | Some mimeType =>
           size <- Run.lift (statSize fs mediaPath) ;;
           if Nat.ltb MAX_SIZE size then Run.throw ERR_MEDIA_SIZE
           else
             base64Data <- Run.lift (readBase64 fs mediaPath) ;;
             LoopVariant.callSendMessage net chatId
               (Media mimeType base64Data (basename fs mediaPath))
               (Some (mkOptions (Normalize.startsWith "video/" mimeType)
                                message))
       end)
    (fun mediaError => Run.throw (ERR_MEDIA_PREFIX ++ mediaError)%string).

(** Lines 241-328, the [try] block for one number. *)
Definition sendOne (b : body) (number : string) : Run.M string :=
  let formattedNumber := Normalize.formatNumber number in
  let chatId := Normalize.chatIdOf formattedNumber in
  isRegistered <- LoopVariant.callIsRegisteredUser net chatId ;;
  if negb isRegistered then Run.throw ERR_NOT_REGISTERED
  else
    match nonEmpty (mediaPaths b) with
    | Some (p, rest) =>
        Run.forOf (sendMedia (message b) chatId) (p :: rest)
    | None =>
        if truthy (message b)
        then LoopVariant.callSendMessage net chatId
               (Text (textOf (message b))) None
        else Run.throw ERR_NO_CONTENT
    end ;;
    Run.ret formattedNumber.

(** Lines 239-344. *)
Fixpoint sendAll (b : body) (numbers : list string)
    (success : list string) (failed : list (string * string))
    (log : list action) : response * list action :=
  match numbers with
  | [] => (Results success failed, log)
  | number :: rest =>
      match sendOne b number with
      | (Ok formattedNumber, l) =>
          sendAll b rest (success ++ [formattedNumber]) failed (log ++ l)
      | (Throw reason, l) =>
          sendAll b rest success (failed ++ [(number, reason)]) (log ++ l)
      end
  end.

(** [POST /send-bulk-messages], run without a lifecycle event arriving while
    the handler is suspended. *)
Definition sendBulkMessages (s : Session.state) (b : body)
    : response * list action :=
  if negb (present (Session.client s))
  then (Status400 ERR_NOT_INITIALIZED, [])
  else
    match numbers b with
    | None | Some [] => (Status400 ERR_NUMBERS, [])
    | Some (n :: ns) => sendAll b (n :: ns) [] [] []
    end.

End Handler.

End CaptionVariant.

(** ** The queue variant: server.js, second file, lines 397-657

    JavaScript runs one synchronous segment at a time. A [state] holds the
    globals and the suspended [async] invocations: the [processMessageQueue]
    loops waiting on the driver or on the pacing timer ([drains]), the
    [destroyClient] calls waiting on [client.destroy()] ([teardowns]) and
    the handlers waiting on [destroyClient()] or [clearAuthData()] once
    [destroyClient] has returned ([resuming]). An [event] runs the next
    segment of one of them, or a handler from its start. Other segments can
    come in between at every [await]: at those on the driver and on timers,
    and, for the continuation of a loop that is due in the same turn, at
    the [await]s of a handler on [destroyClient()] and [clearAuthData()].
    The events [EvDestroyReturned] and [EvTeardownResumed] take a handler
    through the latter one at a time, [EvDestroySettled] all at once. The
    events may arrive in any order, which is more than the event loop
    allows: what holds for all sequences of events holds for those that can
    occur. Files are not part of the state: [clearAuthData] is left out. *)

Module QueueVariant.

Import Js Driver.

(** An element of [messageQueue]; [promise] identifies the [Promise] whose
    [resolve] and [reject] the task carries. *)
Record task : Type := mkTask {
  number : string;
  message : option string;
  mediaPaths : option (list string);
  promise : nat
}.

Definition chatId (t : task) : string := Normalize.chatIdOf (number t).

(** Where an invocation of [processMessageQueue] is suspended. *)
Inductive drain : Type :=
  | AwaitIsRegistered (t : task)
      (* await client.isRegisteredUser(chatId) *)
  | AwaitSendMessage (t : task) (c : content) (o : option options)
      (rest : list string)
      (* await client.sendMessage(chatId, c, o); [rest]: media paths left *)
  | AwaitPacing.
      (* await new Promise(resolve => setTimeout(resolve, 3000)) *)

(** Who awaits [destroyClient()]. In this variant neither [destroyClient]
    nor [clearAuthData] lets an error out, so that the [catch] of
    [POST /disconnect] is never entered and no listener is left with a
    rejection. *)
Inductive teardown : Type :=
  | FromDisconnected     (* client.on('disconnected') *)
  | FromRoute            (* POST /disconnect *)
  | FromEnsure.          (* ensureConnection() *)

Record state : Type := mkState {
  sess : Session.state;
  messageQueue : list task;
  isProcessingQueue : bool;
  drains : list drain;
  teardowns : list teardown;    (* awaiting client.destroy() *)
  resuming : list teardown;     (* destroyClient() has returned *)
  nextPromise : nat;            (* promises created so far *)
  trace : list action           (* newest first *)
}.

Definition init : state :=
  mkState Session.init [] false [] [] [] 0 [].

Definition setSess (x : Session.state) (s : state) : state :=
  mkState x (messageQueue s) (isProcessingQueue s) (drains s) (teardowns s)
          (resuming s) (nextPromise s) (trace s).
Definition setQueue (q : list task) (s : state) : state :=
  mkState (sess s) q (isProcessingQueue s) (drains s) (teardowns s)
          (resuming s) (nextPromise s) (trace s).
Definition setProcessing (b : bool) (s : state) : state :=
  mkState (sess s) (messageQueue s) b (drains s) (teardowns s)
          (resuming s) (nextPromise s) (trace s).
Definition setDrains (d : list drain) (s : state) : state :=
  mkState (sess s) (messageQueue s) (isProcessingQueue s) d (teardowns s)
          (resuming s) (nextPromise s) (trace s).
Definition setTeardowns (d : list teardown) (s : state) : state :=
  mkState (sess s) (messageQueue s) (isProcessingQueue s) (drains s) d
          (resuming s) (nextPromise s) (trace s).
Definition setResuming (d : list teardown) (s : state) : state :=
  mkState (sess s) (messageQueue s) (isProcessingQueue s) (drains s)
          (teardowns s) d (nextPromise s) (trace s).
Definition setNextPromise (n : nat) (s : state) : state :=
  mkState (sess s) (messageQueue s) (isProcessingQueue s) (drains s)
          (teardowns s) (resuming s) n (trace s).
Definition log (a : action) (s : state) : state :=
  mkState (sess s) (messageQueue s) (isProcessingQueue s) (drains s)
          (teardowns s) (resuming s) (nextPromise s) (a :: trace s).

(** The actions in the order they happened. *)
Definition history (s : state) : list action := rev (trace s).

(** [l] with its [i]-th element replaced by [x], or removed. *)
Fixpoint replaceAt {A} (i : nat) (x : option A) (l : list A) : list A :=
  match l, i with
  | [], _ => []
  | _ :: r, 0 => match x with Some y => y :: r | None => r end
  | a :: r, S j => a :: replaceAt j x r
  end.

Section Server.

Variable fs : files.
(** Whether [client.initialize()] of the n-th client throws synchronously. *)
Variable initializeThrows : nat -> bool.

Definition initializeWhatsApp (s : state) : state :=
  setSess (Session.initializeWhatsApp
             (initializeThrows (Session.constructed (sess s))) (sess s)) s.

(** *** [processMessageQueue], lines 403-453 *)

(** [task.resolve(...)] or [task.reject(...)], then [messageQueue.shift()]
    and the pacing timer (lines 442-449). *)
Definition settle (a : action) (s : state) : state * option drain :=
  (setQueue (tl (messageQueue s)) (log a s), Some AwaitPacing).

Definition succeedTask (t : task) (s : state) : state * option drain :=
  settle (Resolve (promise t) (number t)) s.

Definition failTask (t : task) (error : string) (s : state)
    : state * option drain :=
  settle (Reject (promise t) (number t) error) s.

(** Lines 424-436, one round of [for (const mediaPath of mediaPaths)] up to
    its [await]. *)
Definition sendMedia (t : task) (mediaPath : string) (rest : list string)
    (s : state) : state * option drain :=
  if negb (existsSync fs mediaPath) then failTask t ERR_MEDIA_MISSING s
  else
    match readBase64 fs mediaPath with
    | Throw e => failTask t e s
    | Ok base64Data =>
        match Session.client (sess s) with
        | None => failTask t (TYPEERR_NULL_CLIENT "sendMessage") s
        | Some _ =>
            match lookup fs mediaPath with
            | None => failTask t TYPEERR_STARTSWITH s
            | Some mimeType =>
                let media :=
                  Media mimeType base64Data (basename fs mediaPath) in
                let o :=
                  Some (mkOptions (Normalize.startsWith "video/" mimeType)
                                  (message t)) in
                (log (SendMessage (chatId t) media o) s,
                 Some (AwaitSendMessage t media o rest))
            end
        end
    end.

(** Line 439, [await client.sendMessage(chatId, message)]. *)
Definition sendText (t : task) (s : state) : state * option drain :=
  match Session.client (sess s) with
  | None => failTask t (TYPEERR_NULL_CLIENT "sendMessage") s
  | Some _ =>
      let c := Text (textOf (message t)) in
      (log (SendMessage (chatId t) c None) s,
       Some (AwaitSendMessage t c None []))
  end.

(** Lines 422-442, once the recipient is known to be registered. *)
Definition afterRegistered (t : task) (s : state) : state * option drain :=
  match nonEmpty (mediaPaths t) with
  | Some (p, rest) => sendMedia t p rest s
  | None => if truthy (message t) then sendText t s else succeedTask t s
  end.

(** Lines 410-416. *)
Definition startTask (t : task) (s : state) : state * option drain :=
  let s := log (Begin (promise t) (number t)) s in
  match Session.client (sess s) with
  | None => failTask t (TYPEERR_NULL_CLIENT "isRegisteredUser") s
  | Some _ =>
      (log (IsRegisteredUser (chatId t)) s, Some (AwaitIsRegistered t))
  end.

(** Line 409, the [while] test, and line 452 when it fails. *)
Definition loopHead (s : state) : state * option drain :=
  match messageQueue s with
  | [] => (setProcessing false s, None)
  | t :: _ => startTask t s
  end.

(** What a suspended loop does when the awaited promise settles with [r]. *)
Definition resume (d : drain) (r : result bool) (s : state)
    : state * option drain :=
  match d with
  | AwaitIsRegistered t =>
      match r with
      | Throw e => failTask t e s
      | Ok false => failTask t ERR_NOT_REGISTERED s
      | Ok true => afterRegistered t s
      end
  | AwaitSendMessage t _ _ rest =>
      match r with
      | Throw e => failTask t e s
      | Ok _ =>
          match rest with
          | p :: rest' => sendMedia t p rest' s
          | [] => succeedTask t s
          end
      end
  | AwaitPacing => loopHead s
  end.

(** A call of [processMessageQueue()], up to its first [await]. *)
Definition processMessageQueue (s : state) : state :=
  if isProcessingQueue s
     || match messageQueue s with [] => true | _ => false end
  then s
  else
    let (s', d) := loopHead (setProcessing true s) in
    match d with
    | Some d => setDrains (drains s' ++ [d]) s'
    | None => s'
    end.

(** *** Lifecycle, lines 476-565 and 576-599 *)

(** What a handler does after [await destroyClient()]: [clearAuthData()]
    and its remaining lines (551-553, 579-582, 459-460). *)
Definition resumeTeardown (k : teardown) (s : state) : state :=
  match k with
  | FromDisconnected => initializeWhatsApp (setQueue [] s)
  | FromRoute =>
      initializeWhatsApp
        (setSess (Session.setStatus Session.initializing (sess s))
                 (setQueue [] s))
  | FromEnsure => initializeWhatsApp s
  end.

(** [destroyClient()] from the settlement of [client.destroy()] to its
    end (lines 481-487); the handler that awaits it is left to resume. *)
Definition returnTeardown (k : teardown) (destroyed : bool) (s : state)
    : state :=
  setResuming (resuming s ++ [k])
    (setSess (Session.destroyClient_end destroyed (sess s)) s).

(** [destroyClient()] after its [await], and the handler that awaits it
    through to its end, when no other continuation runs in between. *)
Definition finishTeardown (k : teardown) (destroyed : bool) (s : state)
    : state :=
  resumeTeardown k
    (setSess (Session.destroyClient_end destroyed (sess s)) s).

(** [await destroyClient()] from its start: suspended on [client.destroy()]
    when there is a client, run through otherwise. *)
Definition beginTeardown (k : teardown) (s : state) : state :=
  let s := setSess (Session.destroyClient_begin (sess s)) s in
  match Session.client (sess s) with
  | Some _ => setTeardowns (teardowns s ++ [k]) s
  | None => finishTeardown k false s
  end.

(** [client.on('ready', ...)] *)
Definition on_ready (s : state) : state :=
  processMessageQueue (setSess (Session.on_ready (sess s)) s).

(** *** [POST /send-bulk-messages], lines 605-651 *)

(** [numbers.map(...)] over elements that have a [toString()]: one task
    per number, on promises [p], [p+1], ... Each task is pushed when its
    element is visited. An element without a [toString()] makes the callback
    throw: see [sendBulkMessagesThrown]. *)
Fixpoint makeTasks (b : body) (numbers : list string) (p : nat)
    : list task :=
  match numbers with
  | [] => []
  | number :: rest =>
      mkTask (Normalize.formatNumber number) (Js.message b)
             (Js.mediaPaths b) p
      :: makeTasks b rest (S p)
  end.

(** The handler answers at once, or awaits
    [Promise.allSettled(promises)]. *)
Inductive outcome : Type :=
  | Respond (r : response)
  | AwaitAll (promises : list nat).

(** The handler once [await ensureConnection()] has resolved, up to
    [await Promise.allSettled(promises)]; [isReady] is what the driver
    answers for [client.isReady]. What [ensureConnection] does to the state
    when the client is not ready is the event [EvEnsureConnection] below;
    its wait for ['ready'], and the status 500 sent when that wait times
    out, change no state. *)
Definition sendBulkMessages (b : body) (isReady : bool) (s : state)
    : state * outcome :=
  if negb (present (Session.client (sess s)) && isReady)
  then (s, Respond (Status400 ERR_NOT_INITIALIZED))
  else
    match numbers b with
    | None | Some [] => (s, Respond (Status400 ERR_NUMBERS))
    | Some (n :: ns) =>
        let tasks := makeTasks b (n :: ns) (nextPromise s) in
        let s := setNextPromise (nextPromise s + length tasks)
                   (setQueue (messageQueue s ++ tasks) s) in
        (processMessageQueue s, AwaitAll (map promise tasks))
    end.

(** The handler on a request whose [numbers] is an array that holds, after
    the elements [Js.numbers b], one on which [number.toString()] throws
    ([null], or an object whose [toString] is not a function); [error] is
    the message of the engine's [TypeError], [TYPEERR_TOSTRING] for [null].
    The callback of [numbers.map] throws (line 618) when the tasks of the
    elements before that one have been pushed (line 624). The [catch] of
    line 653 answers with status 500; [processMessageQueue()] of line 635
    is not reached, and the promises of the tasks pushed are left without
    a handler: a later [task.reject] of one of them is a rejection that no
    code handles, and what the runtime does then is not part of the
    model. *)
Definition sendBulkMessagesThrown (b : body) (error : string)
    (isReady : bool) (s : state) : state * outcome :=
  if negb (present (Session.client (sess s)) && isReady)
  then (s, Respond (Status400 ERR_NOT_INITIALIZED))
  else
    match numbers b with
    | None => (s, Respond (Status400 ERR_NUMBERS))
    | Some before =>
        let tasks := makeTasks b before (nextPromise s) in
        (setNextPromise (nextPromise s + length tasks)
           (setQueue (messageQueue s ++ tasks) s),
         Respond (Status500 (ERR_PROCESSING ++ error)%string))
    end.

(** *** The server as a transition system *)

Inductive event : Type :=
  | EvQr (qr : string)
  | EvLoadingScreen (percent : nat)
  | EvReady
  | EvAuthenticated
  | EvAuthFailure
  | EvInitializeRejected          (* client.initialize().catch(...) *)
  | EvDisconnected                (* the driver emits 'disconnected' *)
  | EvPostDisconnect              (* POST /disconnect *)
  | EvEnsureConnection            (* ensureConnection(), client not ready *)
  | EvDestroySettled (i : nat) (destroyed : bool)
      (* client.destroy() awaited by the i-th teardown resolves/rejects,
         and its handler runs to the end *)
  | EvSendBulk (b : body) (isReady : bool)
  | EvDrain (i : nat) (r : result bool)
      (* the promise awaited by the i-th loop settles with [r] *)
  | EvDestroyReturned (i : nat) (destroyed : bool)
      (* client.destroy() awaited by the i-th teardown resolves/rejects,
         and destroyClient() returns *)
  | EvTeardownResumed (i : nat)
      (* the i-th handler of [resuming] runs to the end *)
  | EvSendBulkThrown (b : body) (error : string) (isReady : bool).
      (* a request in which number.toString() throws *)

Definition step (s : state) (e : event) : state :=
  match e with
  | EvQr qr => setSess (Session.on_qr qr (sess s)) s
  | EvLoadingScreen p => setSess (Session.on_loading_screen p (sess s)) s
  | EvReady => on_ready s
  | EvAuthenticated => setSess (Session.on_authenticated (sess s)) s
  | EvAuthFailure => setSess (Session.on_auth_failure (sess s)) s
  | EvInitializeRejected => setSess (Session.on_auth_failure (sess s)) s
  | EvDisconnected => beginTeardown FromDisconnected s
  | EvPostDisconnect => beginTeardown FromRoute s
  | EvEnsureConnection => beginTeardown FromEnsure s
  | EvDestroySettled i destroyed =>
      match nth_error (teardowns s) i with
      | Some k =>
          finishTeardown k destroyed
            (setTeardowns (replaceAt i None (teardowns s)) s)
      | None => s
      end
  | EvSendBulk b isReady => fst (sendBulkMessages b isReady s)
  | EvDrain i r =>
      match nth_error (drains s) i with
      | Some d =>
          let (s', d') := resume d r s in
          setDrains (replaceAt i d' (drains s')) s'
      | None => s
      end
  | EvDestroyReturned i destroyed =>
      match nth_error (teardowns s) i with
      | Some k =>
          returnTeardown k destroyed
            (setTeardowns (replaceAt i None (teardowns s)) s)
      | None => s
      end
  | EvTeardownResumed i =>
      match nth_error (resuming s) i with
      | Some k =>
          resumeTeardown k (setResuming (replaceAt i None (resuming s)) s)
      | None => s
      end
  | EvSendBulkThrown b error isReady =>
      fst (sendBulkMessagesThrown b error isReady s)
  end.

Definition run (es : list event) (s : state) : state := fold_left step es s.

(** The state once the module is loaded: line 567 has run. *)
Definition boot : state := initializeWhatsApp init.

End Server.

(** *** The report built from the settled promises, lines 638-651 *)

Definition settles (p : nat) (a : action) : bool :=
  match a with
  | Resolve q _ | Reject q _ _ => Nat.eqb p q
  | _ => false
  end.

(** A promise keeps its first settlement. *)
Definition settlement (p : nat) (h : list action) : option action :=
  find (settles p) h.

(** [messageResults.forEach(...)] over the results of
    [Promise.allSettled], which exist once every promise has settled. *)
Fixpoint collect (promises : list nat) (h : list action)
    (success : list string) (failed : list (string * string))
    : option response :=
  match promises with
  | [] => Some (Results success failed)
  | p :: rest =>
      match settlement p h with
      | Some (Resolve _ n) => collect rest h (success ++ [n]) failed
      | Some (Reject _ n e) => collect rest h success (failed ++ [(n, e)])
      | _ => None
      end
  end.

Definition report (promises : list nat) (s : state) : option response :=
  collect promises (history s) [] [].

(** *** Reading a trace *)

(** The task a loop is working on, as [(promise, number)]. *)
Definition inFlightOf (d : drain) : option (nat * string) :=
  match d with
  | AwaitIsRegistered t | AwaitSendMessage t _ _ _ =>
      Some (promise t, number t)
  | AwaitPacing => None
  end.

(** Follow a trace one action further: [Some cur] while every call on the
    driver and every settlement so far lies between the [Begin] of a task
    and that task's own settlement, with no other [Begin] in between; [cur]
    is the task begun and not yet settled. [None] once that is violated. *)
Definition track (cur : option (option (nat * string))) (a : action)
    : option (option (nat * string)) :=
  match cur with
  | None => None
  | Some None =>
      match a with
      | Begin p n => Some (Some (p, n))
      | _ => None
      end
  | Some (Some (p, n)) =>
      match a with
      | Begin _ _ => None
      | IsRegisteredUser c | SendMessage c _ _ =>
          if String.eqb c (Normalize.chatIdOf n) then cur else None
      | Resolve q m | Reject q m _ =>
          if Nat.eqb q p && String.eqb m n then Some None else None
      end
  end.

Fixpoint inFlight (trace : list action) : option (option (nat * string)) :=
  match trace with
  | [] => Some None
  | a :: older => track (inFlight older) a
  end.

(** No two task executions overlap. *)
Definition serial (trace : list action) : bool :=
  match inFlight trace with Some _ => true | None => false end.

Definition begunBelow (q : nat) (a : action) : bool :=
  match a with Begin p _ => Nat.ltb p q | _ => true end.

(** Every task is begun after all tasks whose promises were created before
    its own, that is after all tasks pushed before it. *)
Fixpoint fifo (trace : list action) : bool :=
  match trace with
  | [] => true
  | Begin q _ :: older => forallb (begunBelow q) older && fifo older
  | _ :: older => fifo older
  end.

(** One more than the largest promise begun. *)
Fixpoint top (trace : list action) : nat :=
  match trace with
  | [] => 0
  | Begin p _ :: older => Nat.max (S p) (top older)
  | _ :: older => top older
  end.

(** *** Draining against a given network *)

Definition sameReply (a b : result bool) : bool :=
  match a, b with
  | Ok x, Ok y => Bool.eqb x y
  | Throw e, Throw f => String.eqb e f
  | _, _ => false
  end.

Definition replyFor (net : oracle) (d : drain) : result bool :=
  match d with
  | AwaitIsRegistered t => isRegisteredUser net (chatId t)
  | AwaitSendMessage t c o _ =>
      match sendMessage net (chatId t) c o with
      | Ok _ => Ok true
      | Throw e => Throw e
      end
  | AwaitPacing => Ok true
  end.

(** The replies in [es] to the loops are those of [net]. *)
Definition answers (net : oracle) (s : state) (e : event) : bool :=
  match e with
  | EvDrain i r =>
      match nth_error (drains s) i with
      | Some d => sameReply r (replyFor net d)
      | None => true
      end
  | _ => true
  end.

Fixpoint answered (fs : files) (throws : nat -> bool) (net : oracle)
    (es : list event) (s : state) : bool :=
  match es with
  | [] => true
  | e :: rest =>
      answers net s e && answered fs throws net rest (step fs throws s e)
  end.

(** Let the first suspended loop continue, up to [fuel] times, with the
    replies of [net] and no other event in between. *)
Fixpoint drainAll (fs : files) (throws : nat -> bool) (net : oracle)
    (fuel : nat) (s : state) : state :=
  match fuel with
  | 0 => s
  | S fuel' =>
      match drains s with
      | [] => s
      | d :: _ =>
          drainAll fs throws net fuel'
            (step fs throws s (EvDrain 0 (replyFor net d)))
      end
  end.

(** *** Invariants of the transition system *)

(** Tasks sit in the queue in the order their promises were created. *)
Definition ascending (q : list task) : Prop :=
  StronglySorted (fun a b => promise a < promise b) q.

(** What the trace, the queue and the promise counter satisfy when the task
    in flight, if any, is [cur]. *)
Definition core (cur : option (nat * string)) (s : state) : Prop :=
  inFlight (trace s) = Some cur
  /\ fifo (trace s) = true
  /\ top (trace s) <= nextPromise s
  /\ Forall (fun t => promise t < nextPromise s) (messageQueue s)
  /\ ascending (messageQueue s)
  /\ match cur with
     | Some (p, _) =>
         top (trace s) = S p
         /\ Forall (fun t => p <= promise t) (messageQueue s)
     | None => Forall (fun t => top (trace s) <= promise t) (messageQueue s)
     end.

(** At most one loop exists, and [isProcessingQueue] tells whether it
    does. *)
Definition inv (s : state) : Prop :=
  match drains s with
  | [] => isProcessingQueue s = false /\ core None s
  | [d] => isProcessingQueue s = true /\ core (inFlightOf d) s
  | _ => False
  end.

(** What a segment of the loop that starts with [cur] in flight leaves
    behind. *)
Definition keeps (cur : option (nat * string)) (s : state)
    (out : state * option drain) : Prop :=
  drains (fst out) = drains s
  /\ match snd out with
     | Some d =>
         isProcessingQueue (fst out) = isProcessingQueue s
         /\ (core cur s -> core (inFlightOf d) (fst out))
     | None =>
         isProcessingQueue (fst out) = false
         /\ (core cur s -> core None (fst out))
     end.

(** No loop is working on the task of promise [p]. *)
Definition notInFlight (p : nat) (s : state) : bool :=
  forallb (fun d => match inFlightOf d with
                    | Some (q, _) => negb (Nat.eqb q p)
                    | None => true
                    end) (drains s).

(** The promise [p] exists, is not settled, and neither the queue nor a loop
    holds its task any more. *)
Definition abandoned (p : nat) (s : state) : Prop :=
  p < nextPromise s
  /\ (forall t, In t (messageQueue s) -> promise t <> p)
  /\ notInFlight p s = true
  /\ (forall a, In a (trace s) -> settles p a = false).

(** A segment of the loop that leaves the promise [p] alone. *)
Definition leaves (p : nat) (s : state) (out : state * option drain)
    : Prop :=
  nextPromise (fst out) = nextPromise s
  /\ drains (fst out) = drains s
  /\ (forall t, In t (messageQueue (fst out)) -> In t (messageQueue s))
  /\ (forall a, In a (trace (fst out)) ->
        In a (trace s) \/ settles p a = false)
  /\ (forall d, snd out = Some d ->
        match inFlightOf d with
        | Some (q, _) => negb (Nat.eqb q p)
        | None => true
        end = true).

(** A property of the tasks ([Q]: of all of them; [G]: of those for which a
    [sendMessage] is awaited) and of the actions ([P]). *)
Definition frameOk (Q G : task -> Prop) (d : drain) : Prop :=
  match d with
  | AwaitIsRegistered t => Q t
  | AwaitSendMessage t _ _ _ => Q t /\ G t
  | AwaitPacing => True
  end.

Definition holds (Q G : task -> Prop) (P : action -> Prop) (s : state)
    : Prop :=
  Forall Q (messageQueue s)
  /\ Forall (frameOk Q G) (drains s)
  /\ Forall P (trace s).

(** A segment of the loop under which [holds] is kept. *)
Definition sound (Q G : task -> Prop) (P : action -> Prop) (s : state)
    (out : state * option drain) : Prop :=
  drains (fst out) = drains s
  /\ (forall t, In t (messageQueue (fst out)) -> In t (messageQueue s))
  /\ (forall a, In a (trace (fst out)) -> In a (trace s) \/ P a)
  /\ (forall d, snd out = Some d -> frameOk Q G d).

(** The events under which [holds] is kept: a positive answer to
    [isRegisteredUser] for a task with [G], and requests that make tasks
    with [Q]. *)
Definition permitted (Q G : task -> Prop) (s : state) (e : event) : Prop :=
  match e with
  | EvDrain i (Ok true) =>
      match nth_error (drains s) i with
      | Some (AwaitIsRegistered t) => Q t -> G t
      | _ => True
      end
  | EvSendBulk b _ | EvSendBulkThrown b _ _ =>
      forall n p,
        Q (mkTask (Normalize.formatNumber n) (Js.message b)
             (Js.mediaPaths b) p)
  | _ => True
  end.

Fixpoint permittedRun (fs : files) (throws : nat -> bool)
    (Q G : task -> Prop) (es : list event) (s : state) : Prop :=
  match es with
  | [] => True
  | e :: rest =>
      permitted Q G s e
      /\ permittedRun fs throws Q G rest (step fs throws s e)
  end.

(** No loop while [isProcessingQueue] is false, or one loop whose task, if
    it is working on one, is the head of the queue. *)
Definition regular (s : state) : Prop :=
  match drains s with
  | [] => isProcessingQueue s = false
  | [AwaitPacing] => isProcessingQueue s = true
  | [AwaitIsRegistered t] | [AwaitSendMessage t _ _ _] =>
      isProcessingQueue s = true /\ hd_error (messageQueue s) = Some t
  | _ => False
  end.

(** [a] is the settlement of the promise of [t] by the loop:
    [task.resolve({success: true, number})] or
    [task.reject({success: false, number: task.number, error})]. *)
Definition outcomeOf (t : task) (a : action) : Prop :=
  a = Resolve (promise t) (number t)
  \/ exists error, a = Reject (promise t) (number t) error.

(** From [s] the drain reaches [s1], where the loop waits for the pacing
    timer with [q] queued, having settled the promise of [t]. *)
Definition settled_then (fs : files) (throws : nat -> bool) (net : oracle)
    (t : task) (q : list task) (s s1 : state) : Prop :=
  exists k acts a,
    (forall j, drainAll fs throws net (k + j) s = drainAll fs throws net j s1)
    /\ sess s1 = sess s
    /\ trace s1 = a :: acts ++ trace s
    /\ outcomeOf t a
    /\ messageQueue s1 = q
    /\ drains s1 = [AwaitPacing].

(** From [s] the drain comes to its end: no loop is left, the queue is
    empty, and the promises of [q] have been settled. *)
Definition drained (fs : files) (throws : nat -> bool) (net : oracle)
    (q : list task) (s : state) : Prop :=
  exists k s1,
    drainAll fs throws net k s = s1
    /\ drains s1 = []
    /\ isProcessingQueue s1 = false
    /\ messageQueue s1 = []
    /\ (forall t, In t q -> exists a, In a (trace s1) /\ outcomeOf t a)
    /\ (forall a, In a (trace s) -> In a (trace s1)).

End QueueVariant.

(** ** A sample deployment, for running the servers on concrete requests *)

Module Sample.

Import Js Driver.

(** Every media path exists and can be read; [clip.mp4] is a video, every
    other file a PNG image. *)
Definition fs : files :=
  mkFiles (fun _ => true)
          (fun p => if String.eqb p "clip.mp4" then Some "video/mp4"
                    else Some "image/png")
          (fun _ => Ok "AAAA")
          (fun _ => Ok 1024)
          (fun p => p).

(** Every number is registered but 20100000002; every send succeeds. *)
Definition net : oracle :=
  mkOracle (fun chatId => Ok (negb (String.eqb chatId "20100000002@c.us")))
           (fun _ _ _ => Ok tt).

Definition noThrow (c : nat) : bool := false.

(** A connected session on the first client. *)
Definition ready : Session.state :=
  Session.mkState (Some 0) Session.connected None 1.

Definition idle : QueueVariant.state :=
  QueueVariant.run fs noThrow [QueueVariant.EvReady]
    (QueueVariant.boot noThrow).

(** The batch of the specification's example. *)
Definition twoNumbers : body :=
  mkBody (Some ["0100000001"; "100000002"]) (Some "hi") (Some []).

Definition threeNumbers : body :=
  mkBody (Some ["1"; "2"; "3"]) (Some "hi") (Some []).

Definition twoPictures : body :=
  mkBody (Some ["1"]) (Some "hi") (Some ["a.png"; "b.png"]).

Definition onePicture : body :=
  mkBody (Some ["2"]) (Some "bye") (Some ["c.png"]).

(** Two requests with different messages are queued; the loop works through
    the first and sends the picture of the second. *)
Definition twoRequests : list QueueVariant.event :=
  [QueueVariant.EvReady;
   QueueVariant.EvSendBulk twoPictures true;
   QueueVariant.EvSendBulk onePicture true;
   QueueVariant.EvDrain 0 (Ok true);
   QueueVariant.EvDrain 0 (Ok true);
   QueueVariant.EvDrain 0 (Ok true);
   QueueVariant.EvDrain 0 (Ok true);
   QueueVariant.EvDrain 0 (Ok true)].

Definition oneNumber : body :=
  mkBody (Some ["0100000001"]) (Some "hi") (Some []).

(** No message and no media. *)
Definition nothingToSend : body :=
  mkBody (Some ["0100000001"]) None (Some []).

(** The batch of the example, worked off by the loop. *)
Definition reported : QueueVariant.state :=
  QueueVariant.drainAll fs noThrow net 10
    (QueueVariant.run fs noThrow [QueueVariant.EvSendBulk twoNumbers true]
       idle).

(** Three tasks queued, the first of them in flight. *)
Definition busy : QueueVariant.state :=
  QueueVariant.run fs noThrow [QueueVariant.EvSendBulk threeNumbers true]
    idle.

(** The first of three tasks is in flight when the driver emits
    ['disconnected']; [client.destroy()] has resolved and [destroyClient()]
    has returned, the listener has not resumed yet. *)
Definition torn : QueueVariant.state :=
  QueueVariant.run fs noThrow
    [QueueVariant.EvDisconnected; QueueVariant.EvDestroyReturned 0 true]
    busy.

End Sample.

(** ** Uploads: the [multer] configuration, server.js lines 13-63 and
    337-377, part_000 lines 13-72 *)

Module Upload.

Import Js.

Definition allowedMimes : list string :=
  ["image/jpeg"; "image/png"; "image/gif";
   "video/mp4"; "video/mpeg"; "video/quicktime"; "video/webm";
   "audio/mpeg"; "audio/wav"; "audio/ogg"; "audio/webm";
   "audio/mp4"; "audio/aac"; "audio/x-m4a"; "application/ogg"].

(** [allowedMimes.includes(x)] *)
Definition includes (l : list string) (x : string) : bool :=
  existsb (String.eqb x) l.

(** [fileFilter]: [Ok tt] is [cb(null, true)], [Throw m] is
    [cb(new Error(m))]. *)
Definition fileFilter (mimetype : string) : result unit :=
  if includes allowedMimes mimetype
     || Normalize.startsWith "audio/" mimetype
     || Normalize.startsWith "video/" mimetype
  then Ok tt
  else Throw (ERR_MEDIA_TYPE ++ ": " ++ mimetype)%string.

(** The class [[a-zA-Z0-9.-]]. *)
Definition isSafeChar (c : ascii) : bool :=
  let n := nat_of_ascii c in
  (Nat.leb 97 n && Nat.leb n 122)
  || (Nat.leb 65 n && Nat.leb n 90)
  || (Nat.leb 48 n && Nat.leb n 57)
  || Nat.eqb n 46 || Nat.eqb n 45.

(** [s.replace(/[^...]/g, '')]: the characters of the class [p] are kept. *)
Fixpoint keep (p : ascii -> bool) (s : string) : string :=
  match s with
  | EmptyString => EmptyString
  | String c r => if p c then String c (keep p r) else keep p r
  end.

Fixpoint allChars (p : ascii -> bool) (s : string) : bool :=
  match s with
  | EmptyString => true
  | String c r => p c && allChars p r
  end.

(** [`${timestamp}`] for the integer [Date.now()]. *)
Definition decimal (timestamp : nat) : string :=
  NilEmpty.string_of_uint (Nat.to_uint timestamp).

(** [filename]: the name under which an upload is stored; [ext] is
    [path.extname(file.originalname)]. *)
Definition filename (timestamp : nat) (ext : string) : string :=
  keep isSafeChar (decimal timestamp ++ ext)%string.

End Upload.

(** ** Lifecycle of the loop variant: server.js, first file, lines 79-207

    Each handler is run to its end, with what the driver and the file
    system answer given as arguments: [destroyResolves] tells whether
    [client.destroy()] resolves, [clearThrows] whether [clearAuthData()]
    throws (it rethrows what [fs.rmSync] throws), [initThrows] whether
    [client.initialize()] throws synchronously. *)

Module LoopLifecycle.

Import Js.

(** [destroyClient()], lines 79-91. *)
Definition destroyClient (destroyResolves : bool) (s : Session.state)
    : Session.state :=
  let s := Session.destroyClient_begin s in
  Session.destroyClient_end (present (Session.client s) && destroyResolves) s.

(** What [POST /disconnect] sends back. *)
Inductive answer : Type :=
  | Disconnected           (* { success: true, message: ... } *)
  | Failed (error : string).   (* status 500 *)

Definition ERR_DISCONNECT := "Failed to disconnect".

(** [POST /disconnect], lines 197-207. *)
Definition disconnect (destroyResolves clearThrows initThrows : bool)
    (s : Session.state) : Session.state * answer :=
  let s := destroyClient destroyResolves s in
  if clearThrows then (s, Failed ERR_DISCONNECT)
  else (Session.initializeWhatsApp initThrows s, Disconnected).

(** How an [async] listener ends. The emitter drops the promise that the
    listener returns, and so does the caller of [.catch(async ...)]: when
    [clearAuthData()] throws inside it, that promise rejects and no code of
    the repository handles the rejection. What becomes of the process then
    is the runtime's decision (Node ends it by default), so that no state
    is given for this case. *)
Inductive ending : Type :=
  | Returned (s : Session.state)
  | Unhandled.

(** [client.on('auth_failure', ...)], lines 160-165, and the [catch] of
    [client.initialize()], lines 175-180. *)
Definition on_auth_failure (clearThrows initThrows : bool)
    (s : Session.state) : ending :=
  let s := Session.on_auth_failure s in
  if clearThrows then Unhandled
  else Returned (Session.initializeWhatsApp initThrows s).

(** [client.on('disconnected', ...)], lines 167-172. *)
Definition on_disconnected (destroyResolves clearThrows initThrows : bool)
    (s : Session.state) : ending :=
  let s := destroyClient destroyResolves s in
  if clearThrows then Unhandled
  else Returned (Session.initializeWhatsApp initThrows s).

End LoopLifecycle.

(** ** Further readings of runs and traces *)

Module Reading.

Import Js Driver.

(** The chat a call on the driver is about. *)
Definition chatOf (a : action) : option string :=
  match a with
  | IsRegisteredUser c | SendMessage c _ _ => Some c
  | _ => None
  end.

(** [c] is [n@c.us] for digits [n] that begin with "20". *)
Definition normalizedChat (c : string) : Prop :=
  exists n,
    c = Normalize.chatIdOf n
    /\ Normalize.allDigits n = true
    /\ Normalize.startsWith "20" n = true.


(** Whether the loop variant reports a number as a success, and the reason
    it gives otherwise. *)
Definition delivered (net : oracle) (fs : files) (b : body)
    (number : string) : bool :=
  match fst (LoopVariant.sendOne net fs b number) with
  | Ok _ => true
  | Throw _ => false
  end.

Definition reasonOf (net : oracle) (fs : files) (b : body)
    (number : string) : string :=
  match fst (LoopVariant.sendOne net fs b number) with
  | Ok _ => EmptyString
  | Throw reason => reason
  end.

(** The promises settled, the latest first. *)
Fixpoint settledIds (trace : list action) : list nat :=
  match trace with
  | [] => []
  | Resolve p _ :: older | Reject p _ _ :: older => p :: settledIds older
  | _ :: older => settledIds older
  end.

(** Every element is larger than all that follow it. *)
Definition descending (l : list nat) : Prop :=
  StronglySorted (fun a b => b < a) l.

(** Tasks wait in the queue only while a loop exists. *)
Definition tidy (s : QueueVariant.state) : Prop :=
  QueueVariant.drains s = [] -> QueueVariant.messageQueue s = [].

(** No request of [es] is one in which [number.toString()] throws. *)
Definition noneThrown (es : list QueueVariant.event) : Prop :=
  forall b error isReady,
    ~ In (QueueVariant.EvSendBulkThrown b error isReady) es.

(** What a trace satisfies beside [serial] and [fifo]: the promises settled
    are below the one in flight, or below [top]. *)
Definition settledBelow (trace : list action) : Prop :=
  match QueueVariant.inFlight trace with
  | None => True
  | Some cur =>
      descending (settledIds trace)
      /\ match cur with
         | Some (p, _) =>
             S p <= QueueVariant.top trace
             /\ Forall (fun q => q < p) (settledIds trace)
         | None =>
             Forall (fun q => q < QueueVariant.top trace) (settledIds trace)
         end
  end.

(** What [messageResults.forEach] pushes to [results.success] and to
    [results.failed] for the settlements [outcomes]. *)
Fixpoint resolvedOf (outcomes : list action) : list string :=
  match outcomes with
  | [] => []
  | Resolve _ number :: rest => number :: resolvedOf rest
  | _ :: rest => resolvedOf rest
  end.

Fixpoint rejectedOf (outcomes : list action) : list (string * string) :=
  match outcomes with
  | [] => []
  | Reject _ number error :: rest => (number, error) :: rejectedOf rest
  | _ :: rest => rejectedOf rest
  end.

(** The report of the queue variant in which the i-th number of the
    request has the i-th verdict: [None] for a success, [Some reason] for a
    failure. *)
Fixpoint reportOf (numbers : list string) (verdicts : list (option string))
    : list string * list (string * string) :=
  match numbers, verdicts with
  | number :: ns, v :: vs =>
      let (success, failed) := reportOf ns vs in
      match v with
      | None => (Normalize.formatNumber number :: success, failed)
      | Some reason =>
          (success, (Normalize.formatNumber number, reason) :: failed)
      end
  | _, _ => ([], [])
  end.

(** The promises that the handler of the request [e] creates in the state
    [s], each with the body of that request and the number, as submitted,
    whose task carries the promise. *)
Definition created (fs : files) (throws : nat -> bool)
    (s : QueueVariant.state) (e : QueueVariant.event)
    : list (nat * (body * string)) :=
  match e with
  | QueueVariant.EvSendBulk b _ | QueueVariant.EvSendBulkThrown b _ _ =>
      combine
        (seq (QueueVariant.nextPromise s)
           (QueueVariant.nextPromise (QueueVariant.step fs throws s e)
            - QueueVariant.nextPromise s))
        (map (fun number => (b, number))
           (match Js.numbers b with Some ns => ns | None => [] end))
  | _ => []
  end.

(** The promises created in the course of the events [es], from [s] on. *)
Fixpoint origins (fs : files) (throws : nat -> bool)
    (es : list QueueVariant.event) (s : QueueVariant.state)
    : list (nat * (body * string)) :=
  match es with
  | [] => []
  | e :: rest =>
      created fs throws s e
      ++ origins fs throws rest (QueueVariant.step fs throws s e)
  end.

(** The promise [p] was created for the number [x] of a request, and [n]
    is the normalised form of [x]. *)
Definition numbered (O : list (nat * (body * string))) (p : nat)
    (n : string) : Prop :=
  exists b x, In (p, (b, x)) O /\ n = Normalize.formatNumber x.

(** The task [t] carries the message of the request that created its
    promise, and the normalised form of the number it was created for. *)
Definition known (O : list (nat * (body * string)))
    (t : QueueVariant.task) : Prop :=
  exists b x,
    In (QueueVariant.promise t, (b, x)) O
    /\ QueueVariant.message t = Js.message b
    /\ QueueVariant.number t = Normalize.formatNumber x.

(** Every medium in the trace was sent while a task was in flight, to the
    chat of that task, as a document exactly when it is a video, and with
    the message of the request that created the task as caption; every
    settlement names the number for which its promise was created. *)
Fixpoint accounted (O : list (nat * (body * string)))
    (trace : list action) : Prop :=
  match trace with
  | [] => True
  | a :: older =>
      match a with
      | SendMessage c (Media mimeType _ _) o =>
          exists p n b x,
            QueueVariant.inFlight older = Some (Some (p, n))
            /\ c = Normalize.chatIdOf n
            /\ In (p, (b, x)) O
            /\ n = Normalize.formatNumber x
            /\ o = Some (mkOptions (Normalize.startsWith "video/" mimeType)
                           (Js.message b))
      | Resolve p n | Reject p n _ => numbered O p n
      | _ => True
      end
      /\ accounted O older
  end.

(** A segment of the loop under which [accounted] is kept. *)
Definition told (O : list (nat * (body * string)))
    (s : QueueVariant.state)
    (out : QueueVariant.state * option QueueVariant.drain) : Prop :=
  QueueVariant.drains (fst out) = QueueVariant.drains s
  /\ QueueVariant.nextPromise (fst out) = QueueVariant.nextPromise s
  /\ (forall t, In t (QueueVariant.messageQueue (fst out)) ->
        In t (QueueVariant.messageQueue s))
  /\ (accounted O (QueueVariant.trace s) ->
      accounted O (QueueVariant.trace (fst out)))
  /\ (forall d, snd out = Some d ->
        QueueVariant.frameOk (known O) (fun _ => True) d).

(** Every task that the queue or a loop holds is [known], the trace is
    [accounted], and [O] names each promise created so far at most once. *)
Definition attributed (O : list (nat * (body * string)))
    (s : QueueVariant.state) : Prop :=
  Forall (known O) (QueueVariant.messageQueue s)
  /\ Forall (QueueVariant.frameOk (known O) (fun _ => True))
       (QueueVariant.drains s)
  /\ accounted O (QueueVariant.trace s)
  /\ Forall (fun x => fst x < QueueVariant.nextPromise s) O
  /\ NoDup (map fst O).

End Reading.

(** * Properties *)

(** ** Normalisation *)

Section NormalizeFacts.

Import Normalize.

Lemma stripNonDigits_allDigits s : allDigits (stripNonDigits s) = true.
Proof.
  induction s as [|c r IH]; simpl; [reflexivity|].
  destruct (isDigit c) eqn:E; simpl; [rewrite E|]; exact IH.
Qed.

Lemma stripNonDigits_fixed s : allDigits s = true -> stripNonDigits s = s.
Proof.
  induction s as [|c r IH]; simpl; [reflexivity|].
  intros H. apply andb_true_iff in H as [Hc Hr].
  rewrite Hc, (IH Hr). reflexivity.
Qed.

Lemma formatNumber_allDigits s : allDigits (formatNumber s) = true.
Proof.
  unfold formatNumber.
  destruct (startsWith "20" (stripNonDigits s)); simpl;
    apply stripNonDigits_allDigits.
Qed.

Lemma formatNumber_startsWith s : startsWith "20" (formatNumber s) = true.
Proof.
  unfold formatNumber.
  destruct (startsWith "20" (stripNonDigits s)) eqn:E; [exact E|].
  unfold startsWith. simpl.
  destruct (stripNonDigits s); reflexivity.
Qed.

End NormalizeFacts.

(** C10: the normalisation is idempotent, and its output consists of digits
    only and begins with "20". *)
Theorem formatNumber_idempotent_digits_prefix (s : string) :
  Normalize.formatNumber (Normalize.formatNumber s) = Normalize.formatNumber s
  /\ Normalize.allDigits (Normalize.formatNumber s) = true
  /\ Normalize.startsWith "20" (Normalize.formatNumber s) = true.
Proof.
  split; [|split].
  - unfold Normalize.formatNumber at 1.
    rewrite (stripNonDigits_fixed _ (formatNumber_allDigits s)).
    rewrite formatNumber_startsWith. reflexivity.
  - apply formatNumber_allDigits.
  - apply formatNumber_startsWith.
Qed.

(** ** Connection state *)

Section SessionFacts.

Import Session.

(** The handlers that store a pairing code or report [connected]. *)
Lemma step_connected_no_qr s e :
  (isConnected (connectionStatus s) = true -> qrCodeData s = None) ->
  isConnected (connectionStatus (step s e)) = true ->
  qrCodeData (step s e) = None.
Proof.
  intros IH; destruct e as [[] | | | | | | | |]; simpl; auto; discriminate.
Qed.

Lemma run_snoc es e s : run (es ++ [e]) s = step (run es s) e.
Proof. unfold run. rewrite fold_left_app. reflexivity. Qed.

Lemma run_connected_no_qr es s :
  (isConnected (connectionStatus s) = true -> qrCodeData s = None) ->
  isConnected (connectionStatus (run es s)) = true ->
  qrCodeData (run es s) = None.
Proof.
  intros Hs. induction es as [|e es IH] using rev_ind; [exact Hs|].
  rewrite run_snoc. apply step_connected_no_qr, IH.
Qed.

End SessionFacts.

(** C6, as the code has it: every call of [initializeWhatsApp], whatever the
    connection state, constructs a new client, makes it the current one and
    sets the status to [initializing] ([disconnected] when
    [client.initialize()] throws); the pairing code is left as it is. *)
Theorem initializeWhatsApp_always_constructs (throws : bool)
    (s : Session.state) :
  let s' := Session.initializeWhatsApp throws s in
  Session.constructed s' = S (Session.constructed s)
  /\ Session.client s' = Some (Session.constructed s)
  /\ Session.connectionStatus s'
     = (if throws then Session.disconnected else Session.initializing)
  /\ Session.qrCodeData s' = Session.qrCodeData s.
Proof. repeat split. Qed.

(** C6 fails as stated: with one client constructed and the status
    [waiting-for-qr], a call of [initializeWhatsApp] is not a no-op, and two
    calls in succession construct two more clients. *)
Lemma initializeWhatsApp_not_idempotent :
  let s := Session.mkState (Some 0) Session.waiting_for_qr (Some "QR") 1 in
  Session.initializeWhatsApp false s <> s
  /\ Session.constructed
       (Session.initializeWhatsApp false (Session.initializeWhatsApp false s))
     = 3.
Proof. split; [discriminate | reflexivity]. Qed.

(** ** Sequential runs *)

Section RunFacts.

Import Js Driver.

Lemma bind_actions {A B} (m : Run.M A) (f : A -> Run.M B) a :
  In a (snd (Run.bind m f)) ->
  In a (snd m) \/ exists x, fst m = Ok x /\ In a (snd (f x)).
Proof.
  destruct m as [[x|e] l]; simpl; [|auto].
  destruct (f x) as [r l'] eqn:E; simpl. intros H.
  apply in_app_or in H as [H|H]; [auto|].
  right. exists x. rewrite E. auto.
Qed.

Lemma tryCatch_rethrow_actions {A} (m : Run.M A) (g : string -> string) :
  snd (Run.tryCatch m (fun e => Run.throw (g e))) = snd m.
Proof.
  destruct m as [[x|e] l]; simpl; [reflexivity|apply app_nil_r].
Qed.

Lemma forOf_actions {A} (f : A -> Run.M unit) l a :
  In a (snd (Run.forOf f l)) -> exists x, In x l /\ In a (snd (f x)).
Proof.
  induction l as [|x l IH]; simpl; [tauto|].
  intros H. apply bind_actions in H as [H|(_ & _ & H)].
  - exists x. auto.
  - destruct (IH H) as (y & Hy & Ha). exists y. auto.
Qed.

End RunFacts.

(** ** The loop variant *)

Section LoopFacts.

Import Js Driver.

Variable net : oracle.
Variable fs : files.

Lemma loop_sendMedia_actions chatId p a :
  In a (snd (LoopVariant.sendMedia net fs chatId p)) ->
  exists mimeType data,
    a = SendMessage chatId (Media mimeType data (basename fs p))
          (Some (mkOptions (Normalize.startsWith "video/" mimeType) None)).
Proof.
  unfold LoopVariant.sendMedia. rewrite tryCatch_rethrow_actions.
  destruct (existsSync fs p); simpl; [|tauto].
  destruct (lookup fs p) as [mimeType|]; simpl; [|tauto].
  destruct (readBase64 fs p) as [data|e]; simpl; [|tauto].
  intros [<-|[]]; eauto.
Qed.

(** An unregistered or unreachable recipient: one call, no send. *)
Lemma loop_sendOne_not_registered b number :
  isRegisteredUser net
    (Normalize.chatIdOf (Normalize.formatNumber number)) = Ok false ->
  LoopVariant.sendOne net fs b number
  = (Throw ERR_NOT_REGISTERED,
     [IsRegisteredUser (Normalize.chatIdOf (Normalize.formatNumber number))]).
Proof.
  intros H. unfold LoopVariant.sendOne, LoopVariant.callIsRegisteredUser.
  rewrite H. reflexivity.
Qed.

(** Whatever [sendOne] sends goes to the number's own chat, after the
    driver has reported it registered. *)
Lemma loop_sendOne_sends b number a :
  In a (snd (LoopVariant.sendOne net fs b number)) ->
  isSend a = true ->
  isRegisteredUser net
    (Normalize.chatIdOf (Normalize.formatNumber number)) = Ok true
  /\ exists c o,
       a = SendMessage (Normalize.chatIdOf (Normalize.formatNumber number))
             c o.
Proof.
  unfold LoopVariant.sendOne. intros H Ha.
  apply bind_actions in H as [H|(isReg & E & H)].
  - destruct H as [<-|[]]. discriminate.
  - simpl in E. rewrite E. destruct isReg; simpl in H; [|tauto].
    split; [reflexivity|].
    apply bind_actions in H as [H|(_ & _ & H)].
    + destruct (truthy (message b)); simpl in H; [|tauto].
      destruct H as [<-|[]]. eauto.
    + apply bind_actions in H as [H|(_ & _ & H)]; [|simpl in H; tauto].
      destruct (nonEmpty (mediaPaths b)) as [[p rest]|]; [|simpl in H; tauto].
      apply (forOf_actions _ (p :: rest)) in H as (x & _ & H).
      apply loop_sendMedia_actions in H as (mt & d & ->). eauto.
Qed.

Lemma loop_sendAll_spec b ns : forall success failed log r acts,
  LoopVariant.sendAll net fs b ns success failed log = (r, acts) ->
  exists success' failed' acts',
    r = Results (success ++ success') (failed ++ failed')
    /\ acts = log ++ acts'
    /\ length success' + length failed' = length ns
    /\ (forall number,
          In number ns ->
          isRegisteredUser net
            (Normalize.chatIdOf (Normalize.formatNumber number)) = Ok false ->
          In (number, ERR_NOT_REGISTERED) failed')
    /\ (forall a, In a acts' -> isSend a = true ->
          exists number c o,
            In number ns
            /\ isRegisteredUser net
                 (Normalize.chatIdOf (Normalize.formatNumber number))
               = Ok true
            /\ a = SendMessage
                     (Normalize.chatIdOf (Normalize.formatNumber number))
                     c o).
Proof.
  induction ns as [|number ns IH]; intros success failed log r acts; simpl.
  - intros [= <- <-]. exists [], [], [].
    rewrite !app_nil_r. repeat split; simpl; tauto.
  - destruct (LoopVariant.sendOne net fs b number) as [[f|reason] l] eqn:E;
      intros H; apply IH in H
        as (success' & failed' & acts' & -> & -> & Hlen & Hnot & Hsend).
    + exists (f :: success'), failed', (l ++ acts').
      rewrite <- !app_assoc. simpl. repeat split; [lia| |].
      * intros n [<-|Hin] Hn; [|auto].
        rewrite (loop_sendOne_not_registered b _ Hn) in E. discriminate.
      * intros a Ha Hs. apply in_app_or in Ha as [Ha|Ha].
        -- assert (Ha' : In a (snd (LoopVariant.sendOne net fs b number)))
             by (rewrite E; exact Ha).
           destruct (loop_sendOne_sends b number a Ha' Hs) as (Hr & c & o & ->).
           exists number, c, o. auto.
        -- destruct (Hsend a Ha Hs) as (n & c & o & Hin & Hr & ->).
           exists n, c, o. auto.
    + exists success', ((number, reason) :: failed'), (l ++ acts').
      rewrite <- !app_assoc. simpl. repeat split; [lia| |].
      * intros n [<-|Hin] Hn; [|auto].
        rewrite (loop_sendOne_not_registered b _ Hn) in E.
        injection E as <- _. auto.
      * intros a Ha Hs. apply in_app_or in Ha as [Ha|Ha].
        -- assert (Ha' : In a (snd (LoopVariant.sendOne net fs b number)))
             by (rewrite E; exact Ha).
           destruct (loop_sendOne_sends b number a Ha' Hs) as (Hr & c & o & ->).
           exists number, c, o. auto.
        -- destruct (Hsend a Ha Hs) as (n & c & o & Hin & Hr & ->).
           exists n, c, o. auto.
Qed.

(** The two checks of lines 218-224 answer before any call on the driver. *)
Lemma loop_validation s b :
  (match numbers b with None | Some [] => true | _ => false end
   || (negb (truthy (message b))
       && negb (present (nonEmpty (mediaPaths b))))) = true ->
  exists error, LoopVariant.sendBulkMessages net fs s b = (Status400 error, []).
Proof.
  unfold LoopVariant.sendBulkMessages. intros H.
  destruct (negb (present _ && _)); [eauto|].
  destruct (numbers b) as [[|n ns]|]; eauto.
  simpl in H. rewrite H. eauto.
Qed.

End LoopFacts.

(** ** The queue variant: one loop, one task at a time, in queue order *)

Section QueueOrder.

Import Js Driver QueueVariant.

Variable fs : files.
Variable throws : nat -> bool.

Lemma top_begunBelow tr q : top tr <= q -> forallb (begunBelow q) tr = true.
Proof.
  induction tr as [|a tr IH]; [reflexivity|].
  destruct a; cbn [top forallb begunBelow andb]; auto.
  intros H. apply Nat.max_lub_iff in H as [H1 H2].
  rewrite (IH H2), andb_true_r. apply Nat.ltb_lt. exact H1.
Qed.

Lemma ascending_app q1 q2 :
  ascending q1 -> ascending q2 ->
  (forall a b, In a q1 -> In b q2 -> promise a < promise b) ->
  ascending (q1 ++ q2).
Proof.
  unfold ascending. induction q1 as [|a q1 IH]; simpl; [auto|].
  intros H1 H2 H. inversion H1 as [|? ? Hs Hf]; subst.
  constructor; [apply IH; auto|].
  apply Forall_app; split; [exact Hf|].
  apply Forall_forall. auto.
Qed.

Lemma makeTasks_promises b ns p :
  map promise (makeTasks b ns p) = seq p (length ns).
Proof.
  revert p. induction ns as [|n ns IH]; intros p; simpl; [reflexivity|].
  rewrite IH. reflexivity.
Qed.

Lemma makeTasks_length b ns p : length (makeTasks b ns p) = length ns.
Proof.
  rewrite <- (length_map promise), makeTasks_promises. apply length_seq.
Qed.

Lemma makeTasks_range b ns p t :
  In t (makeTasks b ns p) -> p <= promise t < p + length ns.
Proof.
  intros H. apply (in_map promise) in H.
  rewrite makeTasks_promises in H. apply in_seq in H. exact H.
Qed.

Lemma makeTasks_ascending b ns p : ascending (makeTasks b ns p).
Proof.
  unfold ascending. revert p.
  induction ns as [|n ns IH]; intros p; simpl; constructor; [apply IH|].
  apply Forall_forall. intros t Ht. apply makeTasks_range in Ht. simpl. lia.
Qed.

(** [core] looks at the trace, the queue and the promise counter only. *)
Lemma core_ext cur s s' :
  trace s' = trace s -> messageQueue s' = messageQueue s ->
  nextPromise s' = nextPromise s -> core cur s -> core cur s'.
Proof. unfold core. intros -> -> ->. auto. Qed.

Lemma core_call p n a s :
  (exists c o, a = SendMessage (Normalize.chatIdOf n) c o)
  \/ a = IsRegisteredUser (Normalize.chatIdOf n) ->
  core (Some (p, n)) s -> core (Some (p, n)) (log a s).
Proof.
  unfold core. intros Ha (Hi & Hf & Ht & Hb & Hs & Hq).
  destruct Ha as [(c & o & ->)| ->]; simpl; rewrite Hi; simpl;
    rewrite String.eqb_refl; auto 10.
Qed.

Lemma core_settle p n a s :
  a = Resolve p n \/ (exists e, a = Reject p n e) ->
  core (Some (p, n)) s -> core None (fst (settle a s)).
Proof.
  unfold core. intros Ha (Hi & Hf & Ht & Hb & Hs & Htop & Hq).
  assert (Hb' : Forall (fun t => promise t < nextPromise s)
                  (tl (messageQueue s))).
  { destruct (messageQueue s); [constructor|]. inversion Hb; assumption. }
  assert (Hs' : ascending (tl (messageQueue s))).
  { destruct (messageQueue s); [constructor|]. inversion Hs; assumption. }
  assert (Hq' : Forall (fun t => top (trace s) <= promise t)
                  (tl (messageQueue s))).
  { destruct (messageQueue s) as [|h q]; [constructor|]. simpl.
    inversion Hs as [|? ? _ Hlt]; subst. inversion Hq as [|? ? Hh _]; subst.
    rewrite Htop. eapply Forall_impl; [|exact Hlt]. simpl. intros; lia. }
  destruct Ha as [->|(e & ->)]; simpl; rewrite Hi; simpl;
    rewrite Nat.eqb_refl, String.eqb_refl; simpl; auto 10.
Qed.

Lemma core_begin t q s :
  messageQueue s = t :: q ->
  core None s ->
  core (Some (promise t, number t)) (log (Begin (promise t) (number t)) s).
Proof.
  unfold core. intros E (Hi & Hf & Ht & Hb & Hs & Hq). rewrite E in *.
  inversion Hb as [|? ? Hlt _]; subst. inversion Hq as [|? ? Hle _]; subst.
  inversion Hs as [|? ? _ Hasc]; subst.
  assert (Hmax : Nat.max (S (promise t)) (top (trace s)) = S (promise t))
    by lia.
  cbn -[Nat.max]. rewrite Hi, Hf, (top_begunBelow _ _ Hle), Hmax, E. simpl.
  repeat split; auto; try lia.
  constructor; [lia|]. eapply Forall_impl; [|exact Hasc]. simpl. intros; lia.
Qed.

Lemma keeps_settle p n a s :
  a = Resolve p n \/ (exists e, a = Reject p n e) ->
  keeps (Some (p, n)) s (settle a s).
Proof.
  intros Ha. split; [reflexivity|]. simpl. split; [reflexivity|].
  apply (core_settle p n a s Ha).
Qed.

Lemma keeps_fail t e s :
  keeps (Some (promise t, number t)) s (failTask t e s).
Proof. apply keeps_settle. eauto. Qed.

Lemma keeps_succeed t s :
  keeps (Some (promise t, number t)) s (succeedTask t s).
Proof. apply keeps_settle. auto. Qed.

Lemma keeps_sendMedia t p rest s :
  keeps (Some (promise t, number t)) s (sendMedia fs t p rest s).
Proof.
  unfold sendMedia.
  destruct (existsSync fs p); simpl; [|apply keeps_fail].
  destruct (readBase64 fs p); [|apply keeps_fail].
  destruct (Session.client (sess s)); [|apply keeps_fail].
  destruct (lookup fs p); [|apply keeps_fail].
  split; [reflexivity|]. simpl. split; [reflexivity|].
  apply core_call. left. eauto.
Qed.

Lemma keeps_sendText t s :
  keeps (Some (promise t, number t)) s (sendText t s).
Proof.
  unfold sendText.
  destruct (Session.client (sess s)); [|apply keeps_fail].
  split; [reflexivity|]. simpl. split; [reflexivity|].
  apply core_call. left. eauto.
Qed.

Lemma keeps_afterRegistered t s :
  keeps (Some (promise t, number t)) s (afterRegistered fs t s).
Proof.
  unfold afterRegistered.
  destruct (nonEmpty (mediaPaths t)) as [[p rest]|];
    [apply keeps_sendMedia|].
  destruct (truthy (message t)); [apply keeps_sendText|apply keeps_succeed].
Qed.

Lemma keeps_trans cur cur' s s1 out :
  drains s1 = drains s ->
  isProcessingQueue s1 = isProcessingQueue s ->
  (core cur s -> core cur' s1) ->
  keeps cur' s1 out -> keeps cur s out.
Proof.
  unfold keeps. intros <- <- H [Hd Hk]. split; [exact Hd|].
  destruct (snd out); destruct Hk as [Hp Hc]; auto.
Qed.

Lemma keeps_startTask t q s :
  messageQueue s = t :: q -> keeps None s (startTask t s).
Proof.
  intros E. unfold startTask.
  apply (keeps_trans _ (Some (promise t, number t)) _
           (log (Begin (promise t) (number t)) s));
    [reflexivity|reflexivity|apply (core_begin t q s E)|].
  cbv zeta.
  destruct (Session.client (sess (log (Begin (promise t) (number t)) s)));
    [|apply keeps_fail].
  split; [reflexivity|]. simpl. split; [reflexivity|].
  apply core_call. auto.
Qed.

Lemma keeps_loopHead s : keeps None s (loopHead s).
Proof.
  unfold loopHead. destruct (messageQueue s) as [|t q] eqn:E.
  - split; [reflexivity|]. simpl. split; [reflexivity|].
    apply core_ext; reflexivity.
  - eapply keeps_startTask; eauto.
Qed.

Lemma keeps_resume d r s : keeps (inFlightOf d) s (resume fs d r s).
Proof.
  destruct d as [t|t c o rest|]; simpl.
  - destruct r as [[|]|e];
      [apply keeps_afterRegistered|apply keeps_fail|apply keeps_fail].
  - destruct r as [x|e]; [|apply keeps_fail].
    destruct rest; [apply keeps_succeed|apply keeps_sendMedia].
  - apply keeps_loopHead.
Qed.

Lemma inv_frame s s' :
  drains s' = drains s ->
  isProcessingQueue s' = isProcessingQueue s ->
  (forall cur, core cur s -> core cur s') ->
  inv s -> inv s'.
Proof.
  unfold inv. intros -> -> H.
  destruct (drains s) as [|d [|d' l]]; [| |tauto]; intros [Hp Hc]; auto.
Qed.

Lemma core_clear cur s s' :
  trace s' = trace s -> nextPromise s' = nextPromise s ->
  messageQueue s' = [] -> core cur s -> core cur s'.
Proof.
  unfold core. intros -> -> -> (Hi & Hf & Ht & _ & _ & Hq).
  repeat split; auto; try constructor.
  destruct cur as [[p n]|]; [|constructor].
  split; [tauto|constructor].
Qed.

Lemma core_enqueue cur b ns s :
  core cur s ->
  core cur (setNextPromise (nextPromise s + length (makeTasks b ns (nextPromise s)))
              (setQueue (messageQueue s ++ makeTasks b ns (nextPromise s)) s)).
Proof.
  unfold core. simpl. intros (Hi & Hf & Ht & Hb & Hs & Hq).
  rewrite makeTasks_length.
  assert (Hnew : forall t, In t (makeTasks b ns (nextPromise s)) ->
                   nextPromise s <= promise t
                   < nextPromise s + length ns)
    by (intros t; apply makeTasks_range).
  rewrite Forall_forall in Hb.
  repeat split; auto; try lia.
  - apply Forall_forall. intros t Hin.
    apply in_app_or in Hin as [Hin|Hin];
      [specialize (Hb t Hin)|specialize (Hnew t Hin)]; lia.
  - apply ascending_app; [exact Hs|apply makeTasks_ascending|].
    intros x y Hx Hy. specialize (Hb x Hx). specialize (Hnew y Hy). lia.
  - destruct cur as [[p n]|].
    + destruct Hq as [Htop Hq]. split; [exact Htop|].
      apply Forall_app. split; [exact Hq|].
      apply Forall_forall. intros t Hin. specialize (Hnew t Hin). lia.
    + apply Forall_app. split; [exact Hq|].
      apply Forall_forall. intros t Hin. specialize (Hnew t Hin). lia.
Qed.

Lemma inv_processMessageQueue s : inv s -> inv (processMessageQueue s).
Proof.
  unfold processMessageQueue. intros H.
  destruct (isProcessingQueue s) eqn:Ep; simpl; [exact H|].
  destruct (messageQueue s) as [|t q] eqn:Eq; [exact H|].
  unfold inv in H. destruct (drains s) as [|d [|d' l]] eqn:Ed;
    [|destruct H; congruence|tauto].
  destruct H as [_ Hc].
  assert (Hc' : core None (setProcessing true s))
    by (revert Hc; apply core_ext; reflexivity).
  unfold loopHead. cbn [setProcessing messageQueue]. rewrite Eq.
  pose proof (keeps_startTask t q (setProcessing true s) Eq) as [Hd Hk].
  destruct (startTask t (setProcessing true s)) as [s' [d|]]; simpl in *.
  - destruct Hk as [Hp Hk]. unfold inv. simpl. rewrite Hd, Ed. simpl.
    split; [exact Hp|]. generalize (Hk Hc'). apply core_ext; reflexivity.
  - destruct Hk as [Hp Hk]. unfold inv. rewrite Hd, Ed. auto.
Qed.

Lemma inv_finishTeardown k destroyed s :
  inv s -> inv (finishTeardown throws k destroyed s).
Proof.
  apply inv_frame; destruct k; try reflexivity; intros cur;
    solve [apply core_clear; reflexivity | apply core_ext; reflexivity].
Qed.

Lemma inv_beginTeardown k s : inv s -> inv (beginTeardown throws k s).
Proof.
  unfold beginTeardown. cbv zeta. intros H.
  destruct (Session.client _).
  - revert H. apply inv_frame; try reflexivity.
    intros cur. apply core_ext; reflexivity.
  - apply inv_finishTeardown. revert H. apply inv_frame; try reflexivity.
    intros cur. apply core_ext; reflexivity.
Qed.

Lemma inv_sendBulkMessages b isReady s :
  inv s -> inv (fst (sendBulkMessages b isReady s)).
Proof.
  unfold sendBulkMessages. intros H.
  destruct (negb _); [exact H|].
  destruct (numbers b) as [[|n ns]|]; [exact H| |exact H].
  cbv zeta. cbn [fst]. apply inv_processMessageQueue.
  revert H. apply inv_frame; try reflexivity.
  intros cur. apply core_enqueue.
Qed.

Lemma inv_returnTeardown k destroyed s :
  inv s -> inv (returnTeardown k destroyed s).
Proof.
  apply inv_frame; try reflexivity. intros cur. apply core_ext; reflexivity.
Qed.

Lemma inv_resumeTeardown k s : inv s -> inv (resumeTeardown throws k s).
Proof.
  apply inv_frame; destruct k; try reflexivity; intros cur;
    solve [apply core_clear; reflexivity | apply core_ext; reflexivity].
Qed.

Lemma inv_sendBulkMessagesThrown b error isReady s :
  inv s -> inv (fst (sendBulkMessagesThrown b error isReady s)).
Proof.
  unfold sendBulkMessagesThrown. intros H.
  destruct (negb _); [exact H|].
  destruct (numbers b) as [ns|]; [|exact H].
  cbv zeta. cbn [fst]. revert H. apply inv_frame; try reflexivity.
  intros cur. apply core_enqueue.
Qed.

Lemma inv_drain i r s :
  inv s -> inv (step fs throws s (EvDrain i r)).
Proof.
  unfold inv at 1. cbn [step]. intros H.
  destruct (drains s) as [|d [|d' l]] eqn:Ed; [| |tauto].
  - destruct i; simpl; unfold inv; rewrite Ed; exact H.
  - destruct H as [Hp Hc].
    destruct i as [|i]; [|destruct i; simpl; unfold inv; rewrite Ed; auto].
    cbn [nth_error].
    pose proof (keeps_resume d r s) as [Hd Hk].
    destruct (resume fs d r s) as [s' [d2|]]; simpl in *;
      destruct Hk as [Hp' Hk]; unfold inv; simpl; rewrite Hd, Ed; simpl.
    + split; [congruence|].
      generalize (Hk Hc). apply core_ext; reflexivity.
    + split; [exact Hp'|].
      generalize (Hk Hc). apply core_ext; reflexivity.
Qed.

Lemma inv_step s e : inv s -> inv (step fs throws s e).
Proof.
  destruct e; try apply inv_drain; cbn [step];
    try (apply inv_frame; try reflexivity;
         intros cur; apply core_ext; reflexivity).
  - (* ready *)
    intros H. apply inv_processMessageQueue. revert H.
    apply inv_frame; try reflexivity. intros cur. apply core_ext; reflexivity.
  - apply inv_beginTeardown.
  - apply inv_beginTeardown.
  - apply inv_beginTeardown.
  - intros H. destruct (nth_error (teardowns s) i); [|exact H].
    apply inv_finishTeardown. revert H.
    apply inv_frame; try reflexivity. intros cur. apply core_ext; reflexivity.
  - apply inv_sendBulkMessages.
  - intros H. destruct (nth_error (teardowns s) i); [|exact H].
    apply inv_returnTeardown. revert H.
    apply inv_frame; try reflexivity. intros cur. apply core_ext; reflexivity.
  - intros H. destruct (nth_error (resuming s) i); [|exact H].
    apply inv_resumeTeardown. revert H.
    apply inv_frame; try reflexivity. intros cur. apply core_ext; reflexivity.
  - apply inv_sendBulkMessagesThrown.
Qed.

Lemma inv_run es : forall s, inv s -> inv (run fs throws es s).
Proof.
  induction es as [|e es IH]; intros s H; [exact H|].
  simpl. apply IH, inv_step, H.
Qed.

Lemma inv_boot : inv (boot throws).
Proof.
  unfold inv, core. simpl. repeat split; auto; constructor.
Qed.

End QueueOrder.

(** C8: whatever events arrive and in whatever order, the server holds at
    most one [processMessageQueue] loop; every call on the driver and every
    settlement lies between the [Begin] of one task and the settlement of
    that same task, with no other task begun in between; and tasks are begun
    in the order their promises were created, which is the order they were
    pushed on the queue. *)
Theorem queue_serial_fifo (fs : Driver.files) (throws : nat -> bool)
    (es : list QueueVariant.event) :
  let s := QueueVariant.run fs throws es (QueueVariant.boot throws) in
  length (QueueVariant.drains s) <= 1
  /\ QueueVariant.serial (QueueVariant.trace s) = true
  /\ QueueVariant.fifo (QueueVariant.trace s) = true
  /\ QueueVariant.ascending (QueueVariant.messageQueue s).
Proof.
  intros s.
  pose proof (inv_run fs throws es _ (inv_boot throws)) as H.
  fold s in H. unfold QueueVariant.inv in H.
  unfold QueueVariant.serial.
  destruct (QueueVariant.drains s) as [|d [|d' l]]; [| |tauto];
    destruct H as (_ & Hi & Hf & _ & _ & Hs & _); rewrite Hi;
    simpl; auto.
Qed.

(** ** The queue variant: tasks dropped from the queue *)

Section QueueDrop.

Import Js Driver QueueVariant.

Variable fs : files.
Variable throws : nat -> bool.

Lemma In_tl {A} (x : A) l : In x (tl l) -> In x l.
Proof. destruct l; simpl; auto. Qed.

Lemma find_rev_none {A} (f : A -> bool) l :
  find f (rev l) = None <-> (forall x, In x l -> f x = false).
Proof.
  split.
  - intros H x Hx. apply (find_none f (rev l) H). apply in_rev in Hx. exact Hx.
  - intros H. destruct (find f (rev l)) eqn:E; [|reflexivity].
    apply find_some in E as [Hin Hf]. apply in_rev in Hin.
    rewrite (H _ Hin) in Hf. discriminate.
Qed.

Lemma settlement_none p s :
  settlement p (history s) = None <->
  (forall a, In a (trace s) -> settles p a = false).
Proof. apply find_rev_none. Qed.

Lemma leaves_settle p a s :
  settles p a = false -> leaves p s (settle a s).
Proof.
  intros Ha. unfold leaves. simpl. repeat split; auto.
  - intros t. apply In_tl.
  - intros x [<-|Hx]; auto.
  - intros d [= <-]. reflexivity.
Qed.

Lemma leaves_fail p t e s :
  promise t <> p -> leaves p s (failTask t e s).
Proof.
  intros H. apply leaves_settle. simpl. apply Nat.eqb_neq. auto.
Qed.

Lemma leaves_succeed p t s :
  promise t <> p -> leaves p s (succeedTask t s).
Proof.
  intros H. apply leaves_settle. simpl. apply Nat.eqb_neq. auto.
Qed.

Lemma leaves_await p t d a s :
  promise t <> p -> inFlightOf d = Some (promise t, number t) ->
  settles p a = false ->
  leaves p s (log a s, Some d).
Proof.
  intros H Hd Ha. unfold leaves. simpl. repeat split; auto.
  - intros x [<-|Hx]; auto.
  - intros d' [= <-]. rewrite Hd. apply negb_true_iff, Nat.eqb_neq. exact H.
Qed.

Lemma leaves_sendMedia p t mediaPath rest s :
  promise t <> p -> leaves p s (sendMedia fs t mediaPath rest s).
Proof.
  intros H. unfold sendMedia.
  destruct (existsSync fs mediaPath); simpl; [|apply leaves_fail, H].
  destruct (readBase64 fs mediaPath); [|apply leaves_fail, H].
  destruct (Session.client (sess s)); [|apply leaves_fail, H].
  destruct (lookup fs mediaPath); [|apply leaves_fail, H].
  apply (leaves_await p t); auto.
Qed.

Lemma leaves_sendText p t s :
  promise t <> p -> leaves p s (sendText t s).
Proof.
  intros H. unfold sendText.
  destruct (Session.client (sess s)); [|apply leaves_fail, H].
  apply (leaves_await p t); auto.
Qed.

Lemma leaves_afterRegistered p t s :
  promise t <> p -> leaves p s (afterRegistered fs t s).
Proof.
  intros H. unfold afterRegistered.
  destruct (nonEmpty (mediaPaths t)) as [[mp rest]|];
    [apply leaves_sendMedia, H|].
  destruct (truthy (message t));
    [apply leaves_sendText, H|apply leaves_succeed, H].
Qed.

Lemma leaves_startTask p t s :
  promise t <> p -> leaves p s (startTask t s).
Proof.
  intros H. unfold startTask. cbv zeta.
  destruct (Session.client (sess (log (Begin (promise t) (number t)) s))).
  - unfold leaves. simpl. repeat split; auto.
    + intros x [<-|[<-|Hx]]; auto.
    + intros d [= <-]. simpl. apply negb_true_iff, Nat.eqb_neq. exact H.
  - unfold leaves. simpl. repeat split; auto.
    + intros x. apply In_tl.
    + intros x [<-|[<-|Hx]]; auto. right. simpl. apply Nat.eqb_neq. auto.
    + intros d [= <-]. reflexivity.
Qed.

Lemma leaves_loopHead p s :
  (forall t, In t (messageQueue s) -> promise t <> p) ->
  leaves p s (loopHead s).
Proof.
  intros H. unfold loopHead.
  destruct (messageQueue s) as [|t q] eqn:E.
  - unfold leaves. simpl. repeat split; auto. discriminate.
  - apply leaves_startTask. apply H. simpl. auto.
Qed.

Lemma leaves_resume p d r s :
  (forall t, In t (messageQueue s) -> promise t <> p) ->
  match inFlightOf d with
  | Some (q, _) => negb (Nat.eqb q p)
  | None => true
  end = true ->
  leaves p s (resume fs d r s).
Proof.
  intros Hq Hd. destruct d as [t|t c o rest|]; simpl in *.
  - apply negb_true_iff, Nat.eqb_neq in Hd.
    destruct r as [[|]|e];
      [apply leaves_afterRegistered|apply leaves_fail|apply leaves_fail];
      exact Hd.
  - apply negb_true_iff, Nat.eqb_neq in Hd.
    destruct r as [x|e]; [|apply leaves_fail, Hd].
    destruct rest; [apply leaves_succeed|apply leaves_sendMedia]; exact Hd.
  - apply leaves_loopHead, Hq.
Qed.

Lemma forallb_replaceAt {A} (f : A -> bool) l : forall i x,
  forallb f l = true ->
  (forall y, x = Some y -> f y = true) ->
  forallb f (replaceAt i x l) = true.
Proof.
  induction l as [|a l IH]; intros i x Hl Hx; [destruct i; reflexivity|].
  simpl in Hl. apply andb_true_iff in Hl as [Ha Hl].
  destruct i as [|i]; simpl.
  - destruct x as [y|]; [|exact Hl]. simpl. rewrite (Hx y eq_refl). exact Hl.
  - rewrite Ha. simpl. apply IH; assumption.
Qed.

Lemma forallb_nth_error {A} (f : A -> bool) l i x :
  forallb f l = true -> nth_error l i = Some x -> f x = true.
Proof.
  intros H E. apply nth_error_In in E.
  rewrite forallb_forall in H. auto.
Qed.

(** Nothing but the client, the status and the pairing code matters to
    [abandoned]. *)
Lemma abandoned_frame p s s' :
  nextPromise s' = nextPromise s -> drains s' = drains s ->
  trace s' = trace s ->
  (forall t, In t (messageQueue s') -> In t (messageQueue s)) ->
  abandoned p s -> abandoned p s'.
Proof.
  unfold abandoned, notInFlight. intros -> -> -> Hq (H1 & H2 & H3 & H4).
  auto.
Qed.

Lemma abandoned_processMessageQueue p s :
  abandoned p s -> abandoned p (processMessageQueue s).
Proof.
  unfold processMessageQueue. intros H.
  destruct (isProcessingQueue s || _); [exact H|].
  destruct H as (H1 & H2 & H3 & H4).
  pose proof (leaves_loopHead p (setProcessing true s) H2)
    as (L1 & L2 & L3 & L4 & L5).
  destruct (loopHead (setProcessing true s)) as [s' [d|]]; simpl in *.
  - unfold abandoned, notInFlight. simpl. rewrite L1, L2.
    repeat split; auto.
    + rewrite forallb_app. fold (notInFlight p s). rewrite H3. simpl.
      rewrite (L5 d eq_refl). reflexivity.
    + intros a Ha. destruct (L4 a Ha); auto.
  - unfold abandoned, notInFlight. rewrite L1, L2.
    repeat split; auto.
    intros a Ha. destruct (L4 a Ha); auto.
Qed.

Lemma abandoned_finishTeardown p k destroyed s :
  abandoned p s -> abandoned p (finishTeardown throws k destroyed s).
Proof.
  apply abandoned_frame; destruct k; try reflexivity; simpl; tauto.
Qed.

Lemma abandoned_beginTeardown p k s :
  abandoned p s -> abandoned p (beginTeardown throws k s).
Proof.
  unfold beginTeardown. cbv zeta. intros H.
  destruct (Session.client _).
  - revert H. apply abandoned_frame; try reflexivity. auto.
  - apply abandoned_finishTeardown. revert H.
    apply abandoned_frame; try reflexivity. auto.
Qed.

Lemma abandoned_sendBulkMessages p b isReady s :
  abandoned p s -> abandoned p (fst (sendBulkMessages b isReady s)).
Proof.
  unfold sendBulkMessages. intros H.
  destruct (negb _); [exact H|].
  destruct (numbers b) as [[|n ns]|]; [exact H| |exact H].
  cbv zeta. cbn [fst]. apply abandoned_processMessageQueue.
  destruct H as (H1 & H2 & H3 & H4).
  unfold abandoned, notInFlight. simpl. repeat split; auto; try lia.
  intros t Ht. apply in_app_or in Ht as [Ht|[<-|Ht]]; auto; simpl; try lia.
  apply makeTasks_range in Ht. lia.
Qed.

Lemma abandoned_returnTeardown p k destroyed s :
  abandoned p s -> abandoned p (returnTeardown k destroyed s).
Proof. apply abandoned_frame; try reflexivity. auto. Qed.

Lemma abandoned_resumeTeardown p k s :
  abandoned p s -> abandoned p (resumeTeardown throws k s).
Proof.
  apply abandoned_frame; destruct k; try reflexivity; simpl; tauto.
Qed.

Lemma abandoned_sendBulkMessagesThrown p b error isReady s :
  abandoned p s ->
  abandoned p (fst (sendBulkMessagesThrown b error isReady s)).
Proof.
  unfold sendBulkMessagesThrown. intros H.
  destruct (negb _); [exact H|].
  destruct (numbers b) as [ns|]; [|exact H].
  cbv zeta. cbn [fst].
  destruct H as (H1 & H2 & H3 & H4).
  unfold abandoned, notInFlight. simpl. repeat split; auto; try lia.
  intros t Ht. apply in_app_or in Ht as [Ht|Ht]; auto.
  apply makeTasks_range in Ht. lia.
Qed.

Lemma abandoned_step p s e :
  abandoned p s -> abandoned p (step fs throws s e).
Proof.
  destruct e; cbn [step];
    try (apply abandoned_frame; try reflexivity; solve [auto]).
  - intros H. apply abandoned_processMessageQueue. revert H.
    apply abandoned_frame; try reflexivity. auto.
  - apply abandoned_beginTeardown.
  - apply abandoned_beginTeardown.
  - apply abandoned_beginTeardown.
  - intros H. destruct (nth_error (teardowns s) i); [|exact H].
    apply abandoned_finishTeardown. revert H.
    apply abandoned_frame; try reflexivity. auto.
  - apply abandoned_sendBulkMessages.
  - intros H. destruct (nth_error (drains s) i) as [d|] eqn:E; [|exact H].
    destruct H as (H1 & H2 & H3 & H4).
    pose proof (leaves_resume p d r s H2 (forallb_nth_error _ _ _ _ H3 E))
      as (L1 & L2 & L3 & L4 & L5).
    destruct (resume fs d r s) as [s' d']; simpl in *.
    unfold abandoned, notInFlight. simpl. rewrite L1, L2.
    repeat split; auto.
    + apply forallb_replaceAt; [exact H3|]. intros y ->. apply L5. reflexivity.
    + intros a Ha. destruct (L4 a Ha); auto.
  - intros H. destruct (nth_error (teardowns s) i); [|exact H].
    apply abandoned_returnTeardown. revert H.
    apply abandoned_frame; try reflexivity. auto.
  - intros H. destruct (nth_error (resuming s) i); [|exact H].
    apply abandoned_resumeTeardown. revert H.
    apply abandoned_frame; try reflexivity. auto.
  - apply abandoned_sendBulkMessagesThrown.
Qed.

Lemma abandoned_run p es : forall s,
  abandoned p s -> abandoned p (run fs throws es s).
Proof.
  induction es as [|e es IH]; intros s H; [exact H|].
  simpl. apply IH, abandoned_step, H.
Qed.

(** The ['disconnected'] handler, from the event to the end of its last
    segment: the [client.destroy()] it awaits, if any, is the one of the
    teardown it has just appended. *)
Lemma disconnected_handler_state destroyed s :
  run fs throws
    [EvDisconnected; EvDestroySettled (length (teardowns s)) destroyed] s
  = match Session.client (sess s) with
    | Some _ =>
        finishTeardown throws FromDisconnected destroyed
          (setSess (Session.destroyClient_begin (sess s)) s)
    | None =>
        finishTeardown throws FromDisconnected false
          (setSess (Session.destroyClient_begin (sess s)) s)
    end.
Proof.
  unfold run. cbn [fold_left step]. unfold beginTeardown. cbv zeta.
  cbn [sess setSess Session.client Session.destroyClient_begin
       Session.setStatus].
  destruct (Session.client (sess s)) eqn:Ec.
  - cbn [teardowns setTeardowns setSess].
    rewrite nth_error_app2, Nat.sub_diag by lia. cbn [nth_error].
    f_equal.
    assert (R : forall (l : list teardown) k,
               replaceAt (length l) None (l ++ [k]) = l).
    { induction l as [|a l IH]; intros k; simpl; [reflexivity|].
      rewrite IH. reflexivity. }
    rewrite R. destruct s as [[c0 st0 q0 n0] mq ip dr td rs np tr].
    reflexivity.
  - assert (E : nth_error
                  (teardowns
                     (finishTeardown throws FromDisconnected false
                        (setSess (Session.destroyClient_begin (sess s)) s)))
                  (length (teardowns s)) = None).
    { simpl. apply nth_error_None. lia. }
    rewrite E. reflexivity.
Qed.

End QueueDrop.

(** C1, as the code has it: when the ['disconnected'] handler has run, the
    queue is empty and the handler has settled nothing; a task that was
    queued, unsettled and not in flight is left with a promise that no later
    event ever settles. *)
Theorem disconnected_drops_queued_tasks (fs : Driver.files)
    (throws : nat -> bool) (s : QueueVariant.state) (destroyed : bool)
    (t : QueueVariant.task) (es : list QueueVariant.event) :
  In t (QueueVariant.messageQueue s) ->
  QueueVariant.promise t < QueueVariant.nextPromise s ->
  QueueVariant.notInFlight (QueueVariant.promise t) s = true ->
  QueueVariant.settlement (QueueVariant.promise t) (QueueVariant.history s)
  = None ->
  let s' :=
    QueueVariant.run fs throws
      [QueueVariant.EvDisconnected;
       QueueVariant.EvDestroySettled
         (length (QueueVariant.teardowns s)) destroyed] s in
  QueueVariant.messageQueue s' = []
  /\ QueueVariant.trace s' = QueueVariant.trace s
  /\ QueueVariant.settlement (QueueVariant.promise t)
       (QueueVariant.history (QueueVariant.run fs throws es s')) = None.
Proof.
  intros Hin Hlt Hfl Hun s'.
  assert (Hs' : QueueVariant.messageQueue s' = []
                /\ QueueVariant.trace s' = QueueVariant.trace s
                /\ QueueVariant.nextPromise s' = QueueVariant.nextPromise s
                /\ QueueVariant.drains s' = QueueVariant.drains s).
  { unfold s'. rewrite disconnected_handler_state.
    destruct (Session.client (QueueVariant.sess s)); repeat split. }
  destruct Hs' as (Hq & Ht & Hn & Hd).
  split; [exact Hq|]. split; [exact Ht|].
  apply settlement_none.
  apply (abandoned_run fs throws (QueueVariant.promise t) es s').
  unfold QueueVariant.abandoned, QueueVariant.notInFlight.
  rewrite Hq, Ht, Hn, Hd.
  split; [exact Hlt|]. split; [intros x []|]. split; [exact Hfl|].
  apply settlement_none. exact Hun.
Qed.

(** ** The queue variant: what is sent, and to whom *)

Section QueueSends.

Import Js Driver QueueVariant.

Variable fs : files.
Variable throws : nat -> bool.
Variables Q G : task -> Prop.
Variable P : action -> Prop.

Hypothesis P_other : forall a, isSend a = false -> P a.
Hypothesis P_media : forall t mimeType data mediaPath,
  Q t -> G t ->
  P (SendMessage (chatId t) (Media mimeType data (basename fs mediaPath))
       (Some (mkOptions (Normalize.startsWith "video/" mimeType)
                        (message t)))).
Hypothesis P_text : forall t,
  Q t -> G t -> P (SendMessage (chatId t) (Text (textOf (message t))) None).

Lemma sound_settle a s : isSend a = false -> sound Q G P s (settle a s).
Proof.
  intros Ha. unfold sound. simpl. split; [reflexivity|].
  split; [intros t; apply In_tl|].
  split; [intros x [<-|Hx]; auto|].
  intros d [= <-]. exact I.
Qed.

Lemma sound_sendMedia t mediaPath rest s :
  Q t -> G t -> sound Q G P s (sendMedia fs t mediaPath rest s).
Proof.
  intros Hq Hg. unfold sendMedia.
  destruct (existsSync fs mediaPath); simpl;
    [|apply sound_settle; reflexivity].
  destruct (readBase64 fs mediaPath); [|apply sound_settle; reflexivity].
  destruct (Session.client (sess s)); [|apply sound_settle; reflexivity].
  destruct (lookup fs mediaPath); [|apply sound_settle; reflexivity].
  unfold sound. simpl. split; [reflexivity|]. split; [auto|].
  split; [intros x [<-|Hx]; auto|].
  intros d [= <-]. simpl. auto.
Qed.

Lemma sound_sendText t s : Q t -> G t -> sound Q G P s (sendText t s).
Proof.
  intros Hq Hg. unfold sendText.
  destruct (Session.client (sess s)); [|apply sound_settle; reflexivity].
  unfold sound. simpl. split; [reflexivity|]. split; [auto|].
  split; [intros x [<-|Hx]; auto|].
  intros d [= <-]. simpl. auto.
Qed.

Lemma sound_afterRegistered t s :
  Q t -> G t -> sound Q G P s (afterRegistered fs t s).
Proof.
  intros Hq Hg. unfold afterRegistered.
  destruct (nonEmpty (mediaPaths t)) as [[mp rest]|];
    [apply sound_sendMedia; assumption|].
  destruct (truthy (message t));
    [apply sound_sendText; assumption|apply sound_settle; reflexivity].
Qed.

Lemma sound_startTask t s : Q t -> sound Q G P s (startTask t s).
Proof.
  intros Hq. unfold startTask. cbv zeta.
  destruct (Session.client (sess (log (Begin (promise t) (number t)) s)));
    unfold sound; simpl.
  - split; [reflexivity|]. split; [auto|].
    split; [intros x [<-|[<-|Hx]]; auto|].
    intros d [= <-]. exact Hq.
  - split; [reflexivity|]. split; [intros x; apply In_tl|].
    split; [intros x [<-|[<-|Hx]]; auto|].
    intros d [= <-]. exact I.
Qed.

Lemma sound_loopHead s :
  Forall Q (messageQueue s) -> sound Q G P s (loopHead s).
Proof.
  intros H. unfold loopHead. destruct (messageQueue s) as [|t q] eqn:E.
  - unfold sound. simpl. split; [reflexivity|]. split; [auto|].
    split; [auto|discriminate].
  - apply sound_startTask. inversion H; assumption.
Qed.

Lemma sound_resume d r s :
  Forall Q (messageQueue s) -> frameOk Q G d ->
  (forall t, d = AwaitIsRegistered t -> r = Ok true -> Q t -> G t) ->
  sound Q G P s (resume fs d r s).
Proof.
  intros Hq Hd Hr. destruct d as [t|t c o rest|]; simpl in *.
  - destruct r as [[|]|e]; try (apply sound_settle; reflexivity).
    apply sound_afterRegistered; auto.
  - destruct Hd as [Hd Hg].
    destruct r as [x|e]; [|apply sound_settle; reflexivity].
    destruct rest; [apply sound_settle; reflexivity|].
    apply sound_sendMedia; assumption.
  - apply sound_loopHead, Hq.
Qed.

Lemma Forall_replaceAt {A} (R : A -> Prop) l : forall i x,
  Forall R l -> (forall y, x = Some y -> R y) -> Forall R (replaceAt i x l).
Proof.
  induction l as [|a l IH]; intros i x Hl Hx; [destruct i; constructor|].
  inversion Hl; subst. destruct i as [|i]; simpl.
  - destruct x as [y|]; [constructor; auto|assumption].
  - constructor; auto.
Qed.

Lemma holds_frame s s' :
  drains s' = drains s -> trace s' = trace s ->
  (forall t, In t (messageQueue s') -> In t (messageQueue s)) ->
  holds Q G P s -> holds Q G P s'.
Proof.
  unfold holds. intros -> -> Hq (H1 & H2 & H3). repeat split; auto.
  rewrite Forall_forall in H1. apply Forall_forall. auto.
Qed.

Lemma holds_after s out :
  sound Q G P s out -> holds Q G P s ->
  Forall Q (messageQueue (fst out)) /\ Forall P (trace (fst out)).
Proof.
  intros (S1 & S2 & S3 & S4) (H1 & H2 & H3).
  rewrite Forall_forall in H1, H3. split; apply Forall_forall.
  - auto.
  - intros a Ha. destruct (S3 a Ha); auto.
Qed.

Lemma holds_processMessageQueue s :
  holds Q G P s -> holds Q G P (processMessageQueue s).
Proof.
  unfold processMessageQueue. intros H.
  destruct (isProcessingQueue s || _); [exact H|].
  assert (H' : holds Q G P (setProcessing true s)) by exact H.
  pose proof (sound_loopHead (setProcessing true s) (proj1 H')) as S.
  destruct (holds_after _ _ S H') as [A1 A2].
  destruct S as (S1 & S2 & S3 & S4).
  destruct (loopHead (setProcessing true s)) as [s' [d|]]; simpl in *.
  - unfold holds. simpl. rewrite S1. repeat split; auto.
    apply Forall_app. split; [apply H|]. constructor; [auto|constructor].
  - unfold holds. rewrite S1. repeat split; auto. apply H.
Qed.

Lemma holds_finishTeardown k destroyed s :
  holds Q G P s -> holds Q G P (finishTeardown throws k destroyed s).
Proof.
  apply holds_frame; destruct k; try reflexivity; simpl; tauto.
Qed.

Lemma holds_beginTeardown k s :
  holds Q G P s -> holds Q G P (beginTeardown throws k s).
Proof.
  unfold beginTeardown. cbv zeta. intros H.
  destruct (Session.client _).
  - revert H. apply holds_frame; try reflexivity. auto.
  - apply holds_finishTeardown. revert H.
    apply holds_frame; try reflexivity. auto.
Qed.

Lemma holds_returnTeardown k destroyed s :
  holds Q G P s -> holds Q G P (returnTeardown k destroyed s).
Proof. apply holds_frame; try reflexivity. auto. Qed.

Lemma holds_resumeTeardown k s :
  holds Q G P s -> holds Q G P (resumeTeardown throws k s).
Proof.
  apply holds_frame; destruct k; try reflexivity; simpl; tauto.
Qed.

Lemma makeTasks_Forall b ns : forall p,
  (forall n p, Q (mkTask (Normalize.formatNumber n) (Js.message b)
                    (Js.mediaPaths b) p)) ->
  Forall Q (makeTasks b ns p).
Proof.
  induction ns as [|n ns IH]; intros p H; simpl; constructor; auto.
Qed.

Lemma holds_step s e :
  permitted Q G s e -> holds Q G P s -> holds Q G P (step fs throws s e).
Proof.
  destruct e; cbn [step permitted]; intros Hp;
    try (apply holds_frame; try reflexivity; solve [auto]).
  - intros H. apply holds_processMessageQueue. revert H.
    apply holds_frame; try reflexivity. auto.
  - apply holds_beginTeardown.
  - apply holds_beginTeardown.
  - apply holds_beginTeardown.
  - intros H. destruct (nth_error (teardowns s) i); [|exact H].
    apply holds_finishTeardown. revert H.
    apply holds_frame; try reflexivity. auto.
  - intros H. unfold sendBulkMessages.
    destruct (negb _); [exact H|].
    destruct (numbers b) as [[|n ns]|]; [exact H| |exact H].
    cbv zeta. cbn [fst]. apply holds_processMessageQueue.
    destruct H as (H1 & H2 & H3). unfold holds. simpl.
    repeat split; auto.
    apply Forall_app. split; [exact H1|].
    apply (makeTasks_Forall b (n :: ns)). exact Hp.
  - intros H. destruct (nth_error (drains s) i) as [d|] eqn:E; [|exact H].
    assert (Hd : frameOk Q G d).
    { destruct H as (_ & H2 & _). rewrite Forall_forall in H2.
      apply H2. eapply nth_error_In; eauto. }
    assert (S : sound Q G P s (resume fs d r s)).
    { apply sound_resume; [apply H|exact Hd|].
      intros t -> ->. exact Hp. }
    destruct (holds_after _ _ S H) as [A1 A2].
    destruct S as (S1 & S2 & S3 & S4).
    destruct (resume fs d r s) as [s' d']; simpl in *.
    unfold holds. simpl. repeat split; auto.
    rewrite S1. apply Forall_replaceAt; [apply H|].
    intros y ->. apply S4. reflexivity.
  - intros H. destruct (nth_error (teardowns s) i); [|exact H].
    apply holds_returnTeardown. revert H.
    apply holds_frame; try reflexivity. auto.
  - intros H. destruct (nth_error (resuming s) i); [|exact H].
    apply holds_resumeTeardown. revert H.
    apply holds_frame; try reflexivity. auto.
  - intros H. unfold sendBulkMessagesThrown.
    destruct (negb _); [exact H|].
    destruct (numbers b) as [ns|]; [|exact H].
    cbv zeta. cbn [fst].
    destruct H as (H1 & H2 & H3). unfold holds. simpl.
    repeat split; auto.
    apply Forall_app. split; [exact H1|].
    apply (makeTasks_Forall b ns). exact Hp.
Qed.

Lemma holds_run es : forall s,
  permittedRun fs throws Q G es s -> holds Q G P s ->
  holds Q G P (run fs throws es s).
Proof.
  induction es as [|e es IH]; intros s Hp H; [exact H|].
  destruct Hp as [Hp Hr]. simpl. apply IH; [exact Hr|].
  apply holds_step; assumption.
Qed.

End QueueSends.

Section QueueSendsFacts.

Import Js Driver QueueVariant.

Variable fs : files.
Variable throws : nat -> bool.

Lemma sameReply_eq a b : sameReply a b = true -> a = b.
Proof.
  destruct a as [x|e], b as [y|f]; simpl; try discriminate.
  - intros H. apply Bool.eqb_prop in H. congruence.
  - intros H. apply String.eqb_eq in H. congruence.
Qed.

Lemma answered_permitted net es : forall s,
  answered fs throws net es s = true ->
  permittedRun fs throws (fun _ => True)
    (fun t => isRegisteredUser net (chatId t) = Ok true) es s.
Proof.
  induction es as [|e es IH]; intros s H; [exact I|].
  simpl in H. apply andb_true_iff in H as [He Hr].
  split; [|apply IH, Hr].
  destruct e; simpl; auto.
  destruct r as [[|]|]; auto.
  unfold answers in He.
  destruct (nth_error (drains s) i) as [[t| |]|]; auto.
  apply sameReply_eq in He. simpl in He. auto.
Qed.

(** With the replies of [net], a send goes to a registered chat only. *)
Lemma queue_sends_registered net es c co o :
  answered fs throws net es (boot throws) = true ->
  In (SendMessage c co o) (trace (run fs throws es (boot throws))) ->
  isRegisteredUser net c = Ok true.
Proof.
  intros Ha Hin.
  pose (P := fun a => forall c co o,
               a = SendMessage c co o -> isRegisteredUser net c = Ok true).
  assert (H : holds (fun _ => True)
                (fun t => isRegisteredUser net (chatId t) = Ok true) P
                (run fs throws es (boot throws))).
  { apply (holds_run fs throws).
    - intros a Hs ? ? ? ->. discriminate.
    - intros t mt d mp _ Hg ? ? ? [= <- _ _]. exact Hg.
    - intros t _ Hg ? ? ? [= <- _ _]. exact Hg.
    - apply answered_permitted, Ha.
    - repeat split; constructor. }
  destruct H as (_ & _ & H). rewrite Forall_forall in H.
  exact (H _ Hin c co o eq_refl).
Qed.

End QueueSendsFacts.

(** C4: a recipient the driver reports as not registered is never sent
    anything, and is reported as failed with the not-registered reason. In
    the loop variant: the number is among the failed ones with that reason
    and no [sendMessage] goes to its chat. In the queue variant: on the
    answer [false] the task is rejected with that reason, without a send;
    and with the driver answering as [net] does, whatever else happens, a
    [sendMessage] only ever goes to a chat that [net] reports registered. *)
Theorem unregistered_never_sent (net : Driver.oracle) (fs : Driver.files) :
  (forall s b ns success failed acts number,
     LoopVariant.sendBulkMessages net fs s b
     = (Js.Results success failed, acts) ->
     Js.numbers b = Some ns -> In number ns ->
     Driver.isRegisteredUser net
       (Normalize.chatIdOf (Normalize.formatNumber number)) = Js.Ok false ->
     In (number, Js.ERR_NOT_REGISTERED) failed
     /\ forall c o,
          ~ In (Driver.SendMessage
                  (Normalize.chatIdOf (Normalize.formatNumber number)) c o)
               acts)
  /\ (forall t s,
        QueueVariant.resume fs (QueueVariant.AwaitIsRegistered t)
          (Js.Ok false) s
        = (QueueVariant.setQueue (tl (QueueVariant.messageQueue s))
             (QueueVariant.log
                (Driver.Reject (QueueVariant.promise t)
                   (QueueVariant.number t) Js.ERR_NOT_REGISTERED) s),
           Some QueueVariant.AwaitPacing))
  /\ (forall throws es c co o,
        QueueVariant.answered fs throws net es (QueueVariant.boot throws)
        = true ->
        In (Driver.SendMessage c co o)
           (QueueVariant.trace
              (QueueVariant.run fs throws es (QueueVariant.boot throws))) ->
        Driver.isRegisteredUser net c = Js.Ok true).
Proof.
  split; [|split].
  - intros s b ns success failed acts number H Hns Hin Hreg.
    unfold LoopVariant.sendBulkMessages in H.
    destruct (negb _); [discriminate|]. rewrite Hns in H.
    destruct ns as [|n0 ns0]; [discriminate|].
    destruct (negb (Js.truthy (Js.message b)) && _); [discriminate|].
    apply loop_sendAll_spec in H
      as (success' & failed' & acts' & E & -> & _ & Hnot & Hsend).
    simpl in E. injection E as -> ->. split; [apply Hnot; assumption|].
    intros c o Hc. simpl in Hc.
    destruct (Hsend _ Hc eq_refl) as (n' & c' & o' & _ & Hr & E).
    injection E as E _ _. rewrite <- E in Hr. congruence.
  - reflexivity.
  - intros throws es c co o. apply queue_sends_registered.
Qed.

Lemma unregistered_never_sent_witness :
  (In ("100000002", Js.ERR_NOT_REGISTERED)
      [("100000002", Js.ERR_NOT_REGISTERED)]
   /\ forall c o,
        ~ In (Driver.SendMessage
                (Normalize.chatIdOf (Normalize.formatNumber "100000002")) c o)
             (snd (LoopVariant.sendBulkMessages Sample.net Sample.fs
                     Sample.ready Sample.twoNumbers)))
  /\ Driver.isRegisteredUser Sample.net "200100000001@c.us" = Js.Ok true.
Proof.
  split.
  - apply (proj1 (unregistered_never_sent Sample.net Sample.fs)
             Sample.ready Sample.twoNumbers
             ["0100000001"; "100000002"] ["200100000001"]);
      [reflexivity | reflexivity | simpl; auto | reflexivity].
  - apply (proj2 (proj2 (unregistered_never_sent Sample.net Sample.fs))
             Sample.noThrow
             [QueueVariant.EvReady;
              QueueVariant.EvSendBulk Sample.twoNumbers true;
              QueueVariant.EvDrain 0 (Js.Ok true);
              QueueVariant.EvDrain 0 (Js.Ok true);
              QueueVariant.EvDrain 0 (Js.Ok true);
              QueueVariant.EvDrain 0 (Js.Ok false)]
             "200100000001@c.us" (Driver.Text "hi") None);
      [reflexivity | simpl; auto 10].
Defined.

(** ** The caption variant *)

Section CaptionFacts.

Import Js Driver.

Variable net : oracle.
Variable fs : files.

Lemma caption_sendMedia_actions message chatId p a :
  In a (snd (CaptionVariant.sendMedia net fs message chatId p)) ->
  exists mimeType data,
    a = SendMessage chatId (Media mimeType data (basename fs p))
          (Some (mkOptions (Normalize.startsWith "video/" mimeType) message)).
Proof.
  unfold CaptionVariant.sendMedia. rewrite tryCatch_rethrow_actions.
  destruct (existsSync fs p); simpl; [|tauto].
  destruct (lookup fs p) as [mimeType|]; simpl; [|tauto].
  destruct (statSize fs p) as [size|e]; simpl; [|tauto].
  destruct (Nat.ltb CaptionVariant.MAX_SIZE size); simpl; [tauto|].
  destruct (readBase64 fs p) as [data|e]; simpl; [|tauto].
  intros [<-|[]]; eauto.
Qed.

Lemma caption_sendOne_media b number c mimeType data filename o :
  In (SendMessage c (Media mimeType data filename) o)
     (snd (CaptionVariant.sendOne net fs b number)) ->
  o = Some (mkOptions (Normalize.startsWith "video/" mimeType) (message b)).
Proof.
  unfold CaptionVariant.sendOne. intros H.
  apply bind_actions in H as [H|(isReg & E & H)];
    [destruct H as [[=]|[]]|].
  destruct isReg; simpl in H; [|tauto].
  apply bind_actions in H as [H|(_ & _ & H)]; [|simpl in H; tauto].
  destruct (nonEmpty (mediaPaths b)) as [[p rest]|].
  - apply (forOf_actions _ (p :: rest)) in H as (x & _ & H).
    apply caption_sendMedia_actions in H as (mt & d & [= _ <- _ _ <-]).
    reflexivity.
  - destruct (truthy (message b)); simpl in H; [|tauto].
    destruct H as [[=]|[]].
Qed.

Lemma caption_sendAll_actions b ns : forall success failed log r acts a,
  CaptionVariant.sendAll net fs b ns success failed log = (r, acts) ->
  In a acts ->
  In a log
  \/ exists number,
       In number ns /\ In a (snd (CaptionVariant.sendOne net fs b number)).
Proof.
  induction ns as [|number ns IH]; intros success failed log r acts a; simpl.
  - intros [= <- <-]. auto.
  - destruct (CaptionVariant.sendOne net fs b number) as [[f|reason] l] eqn:E;
      intros H Ha; destruct (IH _ _ _ _ _ _ H Ha) as [Hl|(n & Hn & Hin)];
      try (right; exists n; auto);
      apply in_app_or in Hl as [Hl|Hl]; auto;
      right; exists number; rewrite E; auto.
Qed.

Lemma caption_media_options s b r acts c mimeType data filename o :
  CaptionVariant.sendBulkMessages net fs s b = (r, acts) ->
  In (SendMessage c (Media mimeType data filename) o) acts ->
  o = Some (mkOptions (Normalize.startsWith "video/" mimeType) (message b)).
Proof.
  unfold CaptionVariant.sendBulkMessages.
  destruct (negb _); [intros [= <- <-] []|].
  destruct (numbers b) as [[|n ns]|]; try (intros [= <- <-] []).
  intros H Ha.
  destruct (caption_sendAll_actions _ _ _ _ _ _ _ _ H Ha)
    as [[]|(number & _ & Hin)].
  eapply caption_sendOne_media; eauto.
Qed.

End CaptionFacts.

(** ** The queue variant: which request a task, a caption and a settlement
    come from *)

Section QueueOrigins.

Import Js Driver QueueVariant Reading.

Variable fs : files.
Variable throws : nat -> bool.

Lemma known_mono O O' t :
  (forall x, In x O -> In x O') -> known O t -> known O' t.
Proof. intros H (b & x & Hin & Hm). exists b, x. auto. Qed.

Lemma numbered_mono O O' p n :
  (forall x, In x O -> In x O') -> numbered O p n -> numbered O' p n.
Proof. intros H (b & x & Hin & Hm). exists b, x. auto. Qed.

Lemma known_numbered O t : known O t -> numbered O (promise t) (number t).
Proof. intros (b & x & Hin & _ & Hn). exists b, x. auto. Qed.

Lemma frameOk_known_mono O O' d :
  (forall x, In x O -> In x O') ->
  frameOk (known O) (fun _ => True) d ->
  frameOk (known O') (fun _ => True) d.
Proof.
  intros H. destruct d as [t|t c o rest|]; simpl; auto.
  - apply known_mono, H.
  - intros [Hk _]. split; [|exact I]. revert Hk. apply known_mono, H.
Qed.

Lemma accounted_mono O O' tr :
  (forall x, In x O -> In x O') -> accounted O tr -> accounted O' tr.
Proof.
  intros H. induction tr as [|a tr IH]; [auto|].
  cbn [accounted]. intros [Ha Ht]. split; [|auto].
  destruct a as [c|c [text|mt d f] o|p n|p n|p n e]; auto;
    try (revert Ha; apply numbered_mono, H).
  destruct Ha as (p & n & b & x & H1 & H2 & H3 & H4 & H5).
  exists p, n, b, x. auto.
Qed.

Lemma accounted_split O newer : forall tr older c mt d f o,
  accounted O tr ->
  tr = newer ++ SendMessage c (Media mt d f) o :: older ->
  exists p n b x,
    inFlight older = Some (Some (p, n))
    /\ c = Normalize.chatIdOf n
    /\ In (p, (b, x)) O
    /\ n = Normalize.formatNumber x
    /\ o = Some (mkOptions (Normalize.startsWith "video/" mt) (Js.message b)).
Proof.
  induction newer as [|a newer IH]; intros tr older c mt d f o H ->.
  - destruct H as [H _]. exact H.
  - destruct H as [_ H]. eapply IH; [exact H|reflexivity].
Qed.

(** A settlement in the trace names the number its promise was created
    for. *)
Lemma accounted_settled O tr a p :
  accounted O tr -> In a tr -> settles p a = true ->
  exists n, numbered O p n
            /\ (a = Resolve p n \/ exists e, a = Reject p n e).
Proof.
  induction tr as [|x tr IH]; [intros _ []|].
  intros [Hx Ht] [->|Hin] Hs; [|auto].
  destruct a as [c|c co o|q n|q n|q n e]; simpl in Hs; try discriminate;
    apply Nat.eqb_eq in Hs; subst q; exists n; split; eauto.
Qed.

Lemma told_settle O a s :
  isSend a = false ->
  (forall p n, a = Resolve p n \/ (exists e, a = Reject p n e) ->
     numbered O p n) ->
  told O s (settle a s).
Proof.
  intros Ha Hn. unfold told. simpl. split; [reflexivity|].
  split; [reflexivity|]. split; [intros t; apply In_tl|].
  split.
  - intros Hc. split; [|exact Hc].
    destruct a as [c|c co o|p n|p n|p n e]; auto; try discriminate;
      apply Hn; eauto.
  - intros d [= <-]. exact I.
Qed.

Lemma told_fail O t e s : known O t -> told O s (failTask t e s).
Proof.
  intros Hk. apply told_settle; [reflexivity|].
  intros p n [[=]|(e' & [= <- <- _])]. apply known_numbered, Hk.
Qed.

Lemma told_succeed O t s : known O t -> told O s (succeedTask t s).
Proof.
  intros Hk. apply told_settle; [reflexivity|].
  intros p n [[= <- <-]|(e' & [=])]. apply known_numbered, Hk.
Qed.

Lemma told_sendMedia O t mediaPath rest s :
  known O t ->
  inFlight (trace s) = Some (Some (promise t, number t)) ->
  told O s (sendMedia fs t mediaPath rest s).
Proof.
  intros Hk Hi. unfold sendMedia.
  destruct (existsSync fs mediaPath); simpl; [|apply told_fail, Hk].
  destruct (readBase64 fs mediaPath); [|apply told_fail, Hk].
  destruct (Session.client (sess s)); [|apply told_fail, Hk].
  destruct (lookup fs mediaPath) as [mimeType|]; [|apply told_fail, Hk].
  unfold told. simpl. split; [reflexivity|]. split; [reflexivity|].
  split; [auto|]. split.
  - intros Hc. split; [|exact Hc].
    destruct Hk as (b & x & Hin & Hm & Hn).
    exists (promise t), (number t), b, x. rewrite Hm. auto.
  - intros d [= <-]. simpl. auto.
Qed.

Lemma told_sendText O t s : known O t -> told O s (sendText t s).
Proof.
  intros Hk. unfold sendText.
  destruct (Session.client (sess s)); [|apply told_fail, Hk].
  unfold told. simpl. split; [reflexivity|]. split; [reflexivity|].
  split; [auto|]. split; [auto|].
  intros d [= <-]. simpl. auto.
Qed.

Lemma told_afterRegistered O t s :
  known O t ->
  inFlight (trace s) = Some (Some (promise t, number t)) ->
  told O s (afterRegistered fs t s).
Proof.
  intros Hk Hi. unfold afterRegistered.
  destruct (nonEmpty (mediaPaths t)) as [[mp rest]|];
    [apply told_sendMedia; assumption|].
  destruct (truthy (message t));
    [apply told_sendText; assumption|apply told_succeed, Hk].
Qed.

Lemma told_startTask O t s : known O t -> told O s (startTask t s).
Proof.
  intros Hk. unfold startTask. cbv zeta.
  destruct (Session.client (sess (log (Begin (promise t) (number t)) s)));
    unfold told; simpl.
  - split; [reflexivity|]. split; [reflexivity|]. split; [auto|].
    split; [auto|]. intros d [= <-]. exact Hk.
  - split; [reflexivity|]. split; [reflexivity|].
    split; [intros x; apply In_tl|].
    split; [|intros d [= <-]; exact I].
    intros Hc. split; [apply known_numbered, Hk|]. split; [exact I|exact Hc].
Qed.

Lemma told_loopHead O s :
  Forall (known O) (messageQueue s) -> told O s (loopHead s).
Proof.
  intros H. unfold loopHead. destruct (messageQueue s) as [|t q] eqn:E.
  - unfold told. simpl. split; [reflexivity|]. split; [reflexivity|].
    split; [auto|]. split; [auto|discriminate].
  - apply told_startTask. inversion H; assumption.
Qed.

Lemma told_resume O d r s :
  Forall (known O) (messageQueue s) ->
  frameOk (known O) (fun _ => True) d ->
  inFlight (trace s) = Some (inFlightOf d) ->
  told O s (resume fs d r s).
Proof.
  intros Hq Hd Hi. destruct d as [t|t c o rest|]; simpl in *.
  - destruct r as [[|]|e]; try (apply told_fail, Hd).
    apply told_afterRegistered; assumption.
  - destruct Hd as [Hd _].
    destruct r as [x|e]; [|apply told_fail, Hd].
    destruct rest; [apply told_succeed, Hd|].
    apply told_sendMedia; assumption.
  - apply told_loopHead, Hq.
Qed.

Lemma attributed_frame O s s' :
  drains s' = drains s -> trace s' = trace s ->
  nextPromise s' = nextPromise s ->
  (forall t, In t (messageQueue s') -> In t (messageQueue s)) ->
  attributed O s -> attributed O s'.
Proof.
  unfold attributed. intros -> -> -> Hq (H1 & H2 & H3 & H4 & H5).
  repeat split; auto.
  rewrite Forall_forall in H1. apply Forall_forall. auto.
Qed.

Lemma attributed_processMessageQueue O s :
  attributed O s -> attributed O (processMessageQueue s).
Proof.
  unfold processMessageQueue. intros H.
  destruct (isProcessingQueue s || _); [exact H|].
  destruct H as (H1 & H2 & H3 & H4 & H5).
  pose proof (told_loopHead O (setProcessing true s) H1)
    as (T1 & T2 & T3 & T4 & T5).
  assert (Hq : Forall (known O)
                 (messageQueue (fst (loopHead (setProcessing true s))))).
  { rewrite Forall_forall in H1. apply Forall_forall. auto. }
  destruct (loopHead (setProcessing true s)) as [s' [d|]]; simpl in *.
  - unfold attributed. simpl. rewrite T1, T2. repeat split; auto.
    apply Forall_app. split; [exact H2|]. constructor; [auto|constructor].
  - unfold attributed. rewrite T1, T2. repeat split; auto.
Qed.

Lemma attributed_resumeTeardown O k s :
  attributed O s -> attributed O (resumeTeardown throws k s).
Proof.
  apply attributed_frame; destruct k; try reflexivity; simpl; tauto.
Qed.

Lemma attributed_finishTeardown O k destroyed s :
  attributed O s -> attributed O (finishTeardown throws k destroyed s).
Proof.
  apply attributed_frame; destruct k; try reflexivity; simpl; tauto.
Qed.

Lemma attributed_beginTeardown O k s :
  attributed O s -> attributed O (beginTeardown throws k s).
Proof.
  unfold beginTeardown. cbv zeta. intros H.
  destruct (Session.client _).
  - revert H. apply attributed_frame; try reflexivity. auto.
  - apply attributed_finishTeardown. revert H.
    apply attributed_frame; try reflexivity. auto.
Qed.

(** The i-th task of a request has the i-th promise, the message of the
    request and the normalised form of its i-th number. *)
Lemma makeTasks_origin b ns : forall p t,
  In t (makeTasks b ns p) ->
  exists x,
    In (promise t, (b, x))
       (combine (seq p (length ns)) (map (fun x => (b, x)) ns))
    /\ message t = Js.message b
    /\ number t = Normalize.formatNumber x.
Proof.
  induction ns as [|n ns IH]; intros p t; simpl; [tauto|].
  intros [<-|H].
  - exists n. simpl. auto.
  - destruct (IH _ _ H) as (x & Hin & Hm & Hn). exists x. auto.
Qed.

Lemma combine_keys {A} (l : list A) : forall p,
  map fst (combine (seq p (length l)) l) = seq p (length l).
Proof.
  induction l as [|a l IH]; intros p; simpl; [reflexivity|].
  rewrite IH. reflexivity.
Qed.

Lemma enqueued_keys (b : body) (ns : list string) p :
  map fst (combine (seq p (length ns)) (map (fun x : string => (b, x)) ns))
  = seq p (length ns).
Proof.
  rewrite <- (length_map (fun x : string => (b, x)) ns) at 1.
  rewrite combine_keys, length_map. reflexivity.
Qed.

(** The tasks of a request are pushed with the message and the numbers of
    that request, on promises that [O] did not know. *)
Lemma attributed_enqueue O b ns s :
  attributed O s ->
  attributed
    (O ++ combine (seq (nextPromise s) (length ns))
            (map (fun x => (b, x)) ns))
    (setNextPromise (nextPromise s + length (makeTasks b ns (nextPromise s)))
       (setQueue (messageQueue s ++ makeTasks b ns (nextPromise s)) s)).
Proof.
  intros (H1 & H2 & H3 & H4 & H5).
  set (N := combine (seq (nextPromise s) (length ns))
              (map (fun x => (b, x)) ns)).
  assert (Hsub : forall x, In x O -> In x (O ++ N))
    by (intros x Hx; apply in_or_app; auto).
  assert (Hkeys : forall x, In x N ->
            nextPromise s <= fst x < nextPromise s + length ns).
  { intros x Hx. apply (in_map fst) in Hx. unfold N in Hx.
    rewrite enqueued_keys in Hx. apply in_seq in Hx. exact Hx. }
  unfold attributed. simpl. rewrite makeTasks_length.
  split; [|split; [|split; [|split]]].
  - apply Forall_app. split.
    + eapply Forall_impl; [|exact H1]. intros t. apply known_mono, Hsub.
    + apply Forall_forall. intros t Ht.
      destruct (makeTasks_origin _ _ _ _ Ht) as (x & Hin & Hm & Hn).
      exists b, x. split; [apply in_or_app; right; exact Hin|auto].
  - eapply Forall_impl; [|exact H2]. intros d.
    apply frameOk_known_mono, Hsub.
  - revert H3. apply accounted_mono, Hsub.
  - apply Forall_app. split.
    + eapply Forall_impl; [|exact H4]. simpl. intros; lia.
    + apply Forall_forall. intros x Hx. specialize (Hkeys x Hx). lia.
  - rewrite map_app. unfold N. rewrite enqueued_keys.
    apply NoDup_app; [exact H5|apply seq_NoDup|].
    intros p Hp Hq. apply in_seq in Hq.
    apply in_map_iff in Hp as (x & <- & Hx).
    rewrite Forall_forall in H4. specialize (H4 x Hx). lia.
Qed.

Lemma nextPromise_processMessageQueue s :
  nextPromise (processMessageQueue s) = nextPromise s.
Proof.
  unfold processMessageQueue.
  destruct (isProcessingQueue s || _); [reflexivity|].
  unfold loopHead. cbn [setProcessing messageQueue].
  destruct (messageQueue s) as [|t q]; [reflexivity|].
  unfold startTask. cbv zeta.
  destruct (Session.client _); reflexivity.
Qed.

Lemma attributed_step O s e :
  inv s -> attributed O s ->
  attributed (O ++ created fs throws s e) (step fs throws s e).
Proof.
  intros Hi H.
  destruct e; cbn [created]; rewrite ?app_nil_r; cbn [step];
    try (revert H; apply attributed_frame; try reflexivity; solve [auto]).
  - apply attributed_processMessageQueue. revert H.
    apply attributed_frame; try reflexivity. auto.
  - apply attributed_beginTeardown, H.
  - apply attributed_beginTeardown, H.
  - apply attributed_beginTeardown, H.
  - destruct (nth_error (teardowns s) i); [|exact H].
    apply attributed_finishTeardown. revert H.
    apply attributed_frame; try reflexivity. auto.
  - unfold sendBulkMessages.
    destruct (negb _);
      [cbn [fst]; rewrite Nat.sub_diag, app_nil_r; exact H|].
    destruct (numbers b) as [[|n ns]|];
      try (cbn [fst]; rewrite Nat.sub_diag, app_nil_r; exact H).
    cbv zeta. cbn [fst]. rewrite nextPromise_processMessageQueue.
    cbn [nextPromise setNextPromise].
    replace (nextPromise s
             + length (makeTasks b (n :: ns) (nextPromise s))
             - nextPromise s)
      with (length (n :: ns)) by (rewrite makeTasks_length; lia).
    apply attributed_processMessageQueue.
    apply attributed_enqueue, H.
  - destruct (nth_error (drains s) i) as [d|] eqn:E; [|exact H].
    assert (Hf : inFlight (trace s) = Some (inFlightOf d)).
    { unfold inv in Hi.
      destruct (drains s) as [|d0 [|d1 l]]; [destruct i; discriminate| |tauto].
      destruct i as [|[|i]]; simpl in E; try discriminate.
      injection E as <-. apply Hi. }
    destruct H as (H1 & H2 & H3 & H4 & H5).
    assert (Hd : frameOk (known O) (fun _ => True) d).
    { rewrite Forall_forall in H2. apply H2. eapply nth_error_In; eauto. }
    pose proof (told_resume O d r s H1 Hd Hf) as (T1 & T2 & T3 & T4 & T5).
    assert (Hq : Forall (known O) (messageQueue (fst (resume fs d r s)))).
    { rewrite Forall_forall in H1. apply Forall_forall. auto. }
    destruct (resume fs d r s) as [s' d']; simpl in *.
    unfold attributed. simpl. rewrite T1, T2. repeat split; auto.
    apply Forall_replaceAt; [exact H2|].
    intros y ->. apply T5. reflexivity.
  - destruct (nth_error (teardowns s) i); [|exact H].
    revert H. apply attributed_frame; try reflexivity. auto.
  - destruct (nth_error (resuming s) i); [|exact H].
    apply attributed_resumeTeardown. revert H.
    apply attributed_frame; try reflexivity. auto.
  - unfold sendBulkMessagesThrown.
    destruct (negb _);
      [cbn [fst]; rewrite Nat.sub_diag, app_nil_r; exact H|].
    destruct (numbers b) as [ns|];
      [|cbn [fst]; rewrite Nat.sub_diag, app_nil_r; exact H].
    cbv zeta. cbn [fst nextPromise setNextPromise].
    replace (nextPromise s + length (makeTasks b ns (nextPromise s))
             - nextPromise s)
      with (length ns) by (rewrite makeTasks_length; lia).
    apply attributed_enqueue, H.
Qed.

Lemma attributed_run es : forall O s,
  inv s -> attributed O s ->
  attributed (O ++ origins fs throws es s) (run fs throws es s).
Proof.
  induction es as [|e es IH]; intros O s Hi H.
  - simpl. rewrite app_nil_r. exact H.
  - cbn [origins]. rewrite app_assoc. simpl.
    apply IH; [apply inv_step, Hi|apply attributed_step; assumption].
Qed.

Lemma attributed_reached es :
  attributed (origins fs throws es (boot throws))
    (run fs throws es (boot throws)).
Proof.
  apply (attributed_run es [] (boot throws)); [apply inv_boot|].
  unfold attributed. simpl. repeat split; constructor.
Qed.

Lemma origins_app es1 es2 s :
  origins fs throws (es1 ++ es2) s
  = origins fs throws es1 s
    ++ origins fs throws es2 (run fs throws es1 s).
Proof.
  revert s. induction es1 as [|e es1 IH]; intros s; [reflexivity|].
  simpl. rewrite IH, app_assoc. reflexivity.
Qed.

Lemma NoDup_fst_unique {A B} (l : list (A * B)) a b b' :
  NoDup (map fst l) -> In (a, b) l -> In (a, b') l -> b = b'.
Proof.
  induction l as [|[x y] l IH]; simpl; [tauto|].
  intros Hn. inversion Hn as [|? ? Hx Hl]; subst.
  intros [E1|H1] [E2|H2].
  - congruence.
  - injection E1 as -> ->. contradiction Hx.
    apply (in_map fst) in H2. exact H2.
  - injection E2 as -> ->. contradiction Hx.
    apply (in_map fst) in H1. exact H1.
  - auto.
Qed.

(** A promise is created by the handler of a request, for one of the
    numbers of that request. *)
Lemma origins_request es : forall s p b x,
  In (p, (b, x)) (origins fs throws es s) ->
  ((exists isReady, In (EvSendBulk b isReady) es)
   \/ (exists error isReady, In (EvSendBulkThrown b error isReady) es))
  /\ exists ns, numbers b = Some ns /\ In x ns.
Proof.
  induction es as [|e es IH]; intros s p b x; cbn [origins]; [intros []|].
  intros H. apply in_app_or in H as [H|H].
  - assert (G : forall b0,
              In (p, (b, x))
                 (combine
                    (seq (nextPromise s)
                       (nextPromise (step fs throws s e) - nextPromise s))
                    (map (fun number => (b0, number))
                       (match numbers b0 with
                        | Some ns => ns
                        | None => []
                        end))) ->
              b0 = b /\ exists ns, numbers b = Some ns /\ In x ns).
    { intros b0 Hin. apply in_combine_r in Hin.
      apply in_map_iff in Hin as (y & [= -> ->] & Hy).
      split; [reflexivity|].
      destruct (numbers b) as [ns|]; [eauto|contradiction]. }
    destruct e; cbn [created] in H; try contradiction;
      apply G in H as [-> Hx]; (split; [|exact Hx]);
      [left|right]; eauto using in_eq.
  - destruct (IH _ _ _ _ H) as [[(r & Hr)|(y & r & Hr)] Hx];
      (split; [|exact Hx]); [left|right]; eauto using in_cons.
Qed.

(** Every medium is sent while a task is in flight, to its chat, with the
    message of the request that created the task as caption, and as a
    document exactly when it is a video. *)
Lemma queue_media_options es newer older c mimeType data filename o :
  trace (run fs throws es (boot throws))
  = newer ++ SendMessage c (Media mimeType data filename) o :: older ->
  exists p n b x,
    inFlight older = Some (Some (p, n))
    /\ c = Normalize.chatIdOf n
    /\ n = Normalize.formatNumber x
    /\ In (p, (b, x)) (origins fs throws es (boot throws))
    /\ (forall y, In (p, y) (origins fs throws es (boot throws)) ->
          y = (b, x))
    /\ ((exists isReady, In (EvSendBulk b isReady) es)
        \/ (exists error isReady, In (EvSendBulkThrown b error isReady) es))
    /\ (exists ns, numbers b = Some ns /\ In x ns)
    /\ o = Some (mkOptions (Normalize.startsWith "video/" mimeType)
                   (Js.message b)).
Proof.
  intros E.
  destruct (attributed_reached es) as (_ & _ & Hc & _ & Hn).
  destruct (accounted_split _ _ _ _ _ _ _ _ _ Hc E)
    as (p & n & b & x & H1 & H2 & H3 & H4 & H5).
  destruct (origins_request es _ _ _ _ H3) as [Hr Hx].
  exists p, n, b, x. repeat split; auto.
  intros y Hy. eapply NoDup_fst_unique; eauto.
Qed.

End QueueOrigins.

(** C9, as the code has it: a medium is sent as a document exactly when its
    content type starts with [video/], and every medium, the first and the
    later ones alike, carries as caption the message of the request it
    belongs to. In [src/unnamed/part_000] that is the request being
    handled. In the queue variant, whatever events arrive and however many
    requests with different messages are queued, a medium is sent only
    while a task is in flight, it goes to the chat of that task, and its
    caption is the message of the one request whose handler created the
    promise of that task, for one of the numbers of that request. *)
Theorem media_sent_with_caption (fs : Driver.files) :
  (forall net s b r acts c mimeType data filename o,
     CaptionVariant.sendBulkMessages net fs s b = (r, acts) ->
     In (Driver.SendMessage c (Driver.Media mimeType data filename) o) acts ->
     o = Some (Driver.mkOptions (Normalize.startsWith "video/" mimeType)
                 (Js.message b)))
  /\ (forall throws es newer older c mimeType data filename o,
        QueueVariant.trace
          (QueueVariant.run fs throws es (QueueVariant.boot throws))
        = newer
          ++ Driver.SendMessage c (Driver.Media mimeType data filename) o
             :: older ->
        exists p n b x,
          QueueVariant.inFlight older = Some (Some (p, n))
          /\ c = Normalize.chatIdOf n
          /\ n = Normalize.formatNumber x
          /\ In (p, (b, x))
               (Reading.origins fs throws es (QueueVariant.boot throws))
          /\ (forall y,
                In (p, y)
                   (Reading.origins fs throws es (QueueVariant.boot throws)) ->
                y = (b, x))
          /\ ((exists isReady, In (QueueVariant.EvSendBulk b isReady) es)
              \/ (exists error isReady,
                    In (QueueVariant.EvSendBulkThrown b error isReady) es))
          /\ (exists ns, Js.numbers b = Some ns /\ In x ns)
          /\ o = Some (Driver.mkOptions
                         (Normalize.startsWith "video/" mimeType)
                         (Js.message b))).
Proof.
  split.
  - intros net. apply caption_media_options.
  - intros throws es newer older c mimeType data filename o.
    apply queue_media_options.
Qed.

(** C9 on two requests with different messages: the picture of the second
    request is sent with the message of the second request. *)
Lemma media_sent_with_caption_witness :
  Some (Driver.mkOptions false (Some "hi"))
  = Some (Driver.mkOptions (Normalize.startsWith "video/" "image/png")
            (Js.message Sample.twoPictures))
  /\ exists p n b x,
       QueueVariant.inFlight
         (tl (QueueVariant.trace
                (QueueVariant.run Sample.fs Sample.noThrow Sample.twoRequests
                   (QueueVariant.boot Sample.noThrow))))
       = Some (Some (p, n))
       /\ "202@c.us" = Normalize.chatIdOf n
       /\ n = Normalize.formatNumber x
       /\ In (p, (b, x))
            (Reading.origins Sample.fs Sample.noThrow Sample.twoRequests
               (QueueVariant.boot Sample.noThrow))
       /\ (forall y,
             In (p, y)
                (Reading.origins Sample.fs Sample.noThrow Sample.twoRequests
                   (QueueVariant.boot Sample.noThrow)) ->
             y = (b, x))
       /\ ((exists isReady,
              In (QueueVariant.EvSendBulk b isReady) Sample.twoRequests)
           \/ (exists error isReady,
                 In (QueueVariant.EvSendBulkThrown b error isReady)
                    Sample.twoRequests))
       /\ (exists ns, Js.numbers b = Some ns /\ In x ns)
       /\ Some (Driver.mkOptions false (Some "bye"))
          = Some (Driver.mkOptions (Normalize.startsWith "video/" "image/png")
                    (Js.message b)).
Proof.
  split.
  - apply (proj1 (media_sent_with_caption Sample.fs) Sample.net
             Sample.ready Sample.twoPictures
             (fst (CaptionVariant.sendBulkMessages Sample.net Sample.fs
                     Sample.ready Sample.twoPictures))
             (snd (CaptionVariant.sendBulkMessages Sample.net Sample.fs
                     Sample.ready Sample.twoPictures))
             "201@c.us" "image/png" "AAAA" "b.png");
      [reflexivity | simpl; auto].
  - apply (proj2 (media_sent_with_caption Sample.fs) Sample.noThrow
             Sample.twoRequests []
             (tl (QueueVariant.trace
                    (QueueVariant.run Sample.fs Sample.noThrow
                       Sample.twoRequests
                       (QueueVariant.boot Sample.noThrow))))
             "202@c.us" "image/png" "AAAA" "c.png"
             (Some (Driver.mkOptions false (Some "bye")))).
    vm_compute. reflexivity.
Defined.

(** C9 fails as stated: the queue variant, given the message "hi" and the
    pictures [a.png] and [b.png] for one number, sends both pictures with
    the caption "hi". *)
Lemma second_attachment_has_caption :
  QueueVariant.history
    (QueueVariant.drainAll Sample.fs Sample.noThrow Sample.net 10
       (QueueVariant.run Sample.fs Sample.noThrow
          [QueueVariant.EvSendBulk Sample.twoPictures true] Sample.idle))
  = [Driver.Begin 0 "201";
     Driver.IsRegisteredUser "201@c.us";
     Driver.SendMessage "201@c.us" (Driver.Media "image/png" "AAAA" "a.png")
       (Some (Driver.mkOptions false (Some "hi")));
     Driver.SendMessage "201@c.us" (Driver.Media "image/png" "AAAA" "b.png")
       (Some (Driver.mkOptions false (Some "hi")));
     Driver.Resolve 0 "201"].
Proof. reflexivity. Qed.

(** C1 at a sample state: three tasks are queued, the first in flight, when
    the driver emits ['disconnected']. *)
Lemma disconnected_drops_queued_tasks_witness :
  let s' :=
    QueueVariant.run Sample.fs Sample.noThrow
      [QueueVariant.EvDisconnected;
       QueueVariant.EvDestroySettled
         (length (QueueVariant.teardowns Sample.busy)) true] Sample.busy in
  QueueVariant.messageQueue s' = []
  /\ QueueVariant.trace s' = QueueVariant.trace Sample.busy
  /\ QueueVariant.settlement 1
       (QueueVariant.history
          (QueueVariant.run Sample.fs Sample.noThrow
             [QueueVariant.EvDrain 0 (Js.Ok true);
              QueueVariant.EvDrain 0 (Js.Ok true);
              QueueVariant.EvReady;
              QueueVariant.EvDrain 0 (Js.Ok true)] s')) = None.
Proof.
  apply (disconnected_drops_queued_tasks Sample.fs Sample.noThrow
           Sample.busy true
           (QueueVariant.mkTask "202" (Some "hi") (Some []) 1));
    [simpl; auto | simpl; lia | reflexivity | reflexivity].
Defined.

(** C1 fails as stated: after ['disconnected'] the queue is empty, but the
    two tasks that had not been taken up are never settled: when the loop
    has finished, the trace holds the first task only, no rejection of the
    other two, and the batch has no report. *)
Lemma disconnected_leaves_promises_pending :
  let s' :=
    QueueVariant.run Sample.fs Sample.noThrow
      [QueueVariant.EvDisconnected; QueueVariant.EvDestroySettled 0 true]
      Sample.busy in
  let s'' := QueueVariant.drainAll Sample.fs Sample.noThrow Sample.net 10 s' in
  QueueVariant.messageQueue s' = []
  /\ QueueVariant.drains s'' = []
  /\ QueueVariant.history s''
     = [Driver.Begin 0 "201";
        Driver.IsRegisteredUser "201@c.us";
        Driver.SendMessage "201@c.us" (Driver.Text "hi") None;
        Driver.Resolve 0 "201"]
  /\ QueueVariant.settlement 1 (QueueVariant.history s'') = None
  /\ QueueVariant.settlement 2 (QueueVariant.history s'') = None
  /\ QueueVariant.report [0; 1; 2] s'' = None.
Proof. repeat split. Qed.

(** ** The queue variant: an undisturbed drain settles every queued task *)

Section QueueDrain.

Import Js Driver QueueVariant.

Variable fs : files.
Variable throws : nat -> bool.
Variable net : oracle.

Lemma step_drain0 d r s :
  drains s = [d] ->
  step fs throws s (EvDrain 0 r)
  = setDrains (match snd (resume fs d r s) with
               | Some d2 => [d2]
               | None => []
               end) (fst (resume fs d r s)).
Proof.
  intros E. cbn [step]. rewrite E. cbn [nth_error].
  pose proof (keeps_resume fs d r s) as [Hd _].
  destruct (resume fs d r s) as [s' d']. simpl in *. rewrite Hd, E.
  destruct d'; reflexivity.
Qed.

Lemma drainAll_step d s j :
  drains s = [d] ->
  drainAll fs throws net (1 + j) s
  = drainAll fs throws net j
      (setDrains (match snd (resume fs d (replyFor net d) s) with
                  | Some d2 => [d2]
                  | None => []
                  end) (fst (resume fs d (replyFor net d) s))).
Proof.
  intros E. cbn [drainAll Nat.add]. rewrite E.
  rewrite (step_drain0 d _ s E). reflexivity.
Qed.

Lemma sendMedia_cases t p rest s :
  (exists e, sendMedia fs t p rest s = failTask t e s)
  \/ (exists c o, sendMedia fs t p rest s
                  = (log (SendMessage (chatId t) c o) s,
                     Some (AwaitSendMessage t c o rest))).
Proof.
  unfold sendMedia.
  destruct (existsSync fs p); simpl; [|eauto].
  destruct (readBase64 fs p); [|eauto].
  destruct (Session.client (sess s)); [|eauto].
  destruct (lookup fs p); eauto.
Qed.

Lemma outcomeOf_settles t a : outcomeOf t a -> settles (promise t) a = true.
Proof. intros [->|(e & ->)]; simpl; apply Nat.eqb_refl. Qed.

Lemma afterRegistered_cases t s :
  (exists a, outcomeOf t a /\ afterRegistered fs t s = settle a s)
  \/ (exists c o rest, afterRegistered fs t s
                       = (log (SendMessage (chatId t) c o) s,
                          Some (AwaitSendMessage t c o rest))).
Proof.
  unfold afterRegistered.
  destruct (nonEmpty (mediaPaths t)) as [[p rest]|].
  - destruct (sendMedia_cases t p rest s) as [(e & ->)|(c & o & ->)];
      [left|right]; eauto.
    exists (Reject (promise t) (number t) e). split; [right; eauto|reflexivity].
  - destruct (truthy (message t)).
    + unfold sendText. destruct (Session.client (sess s)); [right; eauto|].
      left. exists (Reject (promise t) (number t)
                      (TYPEERR_NULL_CLIENT "sendMessage")).
      split; [right; eauto|reflexivity].
    + left. exists (Resolve (promise t) (number t)).
      split; [left; reflexivity|reflexivity].
Qed.

Lemma settle_then a q t d s :
  drains s = [d] -> messageQueue s = t :: q ->
  outcomeOf t a ->
  resume fs d (replyFor net d) s = settle a s ->
  exists s1, settled_then fs throws net t q s s1.
Proof.
  intros Ed Eq Ha Er.
  exists (setDrains [AwaitPacing] (setQueue q (log a s))).
  exists 1, [], a. repeat split; auto.
  intros j. rewrite (drainAll_step d s j Ed), Er. simpl. rewrite Eq.
  reflexivity.
Qed.

Lemma drain_send rest : forall t c o s q,
  drains s = [AwaitSendMessage t c o rest] -> messageQueue s = t :: q ->
  exists s1, settled_then fs throws net t q s s1.
Proof.
  induction rest as [|p rest IH]; intros t c o s q Ed Eq.
  - destruct (sendMessage net (chatId t) c o) as [u|e] eqn:Er.
    + apply (settle_then (Resolve (promise t) (number t)) q t _ s Ed Eq).
      * left. reflexivity.
      * simpl. rewrite Er. reflexivity.
    + apply (settle_then (Reject (promise t) (number t) e) q t _ s Ed Eq).
      * right. eauto.
      * simpl. rewrite Er. reflexivity.
  - destruct (sendMessage net (chatId t) c o) as [u|e] eqn:Er.
    + destruct (sendMedia_cases t p rest s) as [(e & Hm)|(c' & o' & Hm)].
      * apply (settle_then (Reject (promise t) (number t) e) q t _ s Ed Eq).
        -- right. eauto.
        -- simpl. rewrite Er. exact Hm.
      * destruct (IH t c' o'
                    (setDrains [AwaitSendMessage t c' o' rest]
                       (log (SendMessage (chatId t) c' o') s)) q
                    eq_refl Eq)
          as (s1 & k & acts & a & Hk & Hs & Ht & Ha & Hq & Hd).
        exists s1, (1 + k), (acts ++ [SendMessage (chatId t) c' o']), a.
        repeat split; auto.
        -- intros j. rewrite <- Nat.add_assoc.
           rewrite (drainAll_step _ s (k + j) Ed). simpl. rewrite Er, Hm.
           simpl. apply Hk.
        -- rewrite Ht. simpl. rewrite <- app_assoc. reflexivity.
    + apply (settle_then (Reject (promise t) (number t) e) q t _ s Ed Eq).
      * right. eauto.
      * simpl. rewrite Er. reflexivity.
Qed.

Lemma drain_task t s q :
  drains s = [AwaitIsRegistered t] -> messageQueue s = t :: q ->
  exists s1, settled_then fs throws net t q s s1.
Proof.
  intros Ed Eq.
  destruct (isRegisteredUser net (chatId t)) as [[|]|e] eqn:Er.
  - destruct (afterRegistered_cases t s)
      as [(a & Ha & Hm)|(c & o & rest & Hm)].
    + apply (settle_then a q t _ s Ed Eq Ha). simpl. rewrite Er. exact Hm.
    + destruct (drain_send rest t c o
                  (setDrains [AwaitSendMessage t c o rest]
                     (log (SendMessage (chatId t) c o) s)) q eq_refl Eq)
        as (s1 & k & acts & a & Hk & Hs & Ht & Ha & Hq & Hd).
      exists s1, (1 + k), (acts ++ [SendMessage (chatId t) c o]), a.
      repeat split; auto.
      * intros j. rewrite <- Nat.add_assoc.
        rewrite (drainAll_step _ s (k + j) Ed). simpl. rewrite Er, Hm.
        simpl. apply Hk.
      * rewrite Ht. simpl. rewrite <- app_assoc. reflexivity.
  - apply (settle_then (Reject (promise t) (number t) ERR_NOT_REGISTERED)
             q t _ s Ed Eq).
    + right. eauto.
    + simpl. rewrite Er. reflexivity.
  - apply (settle_then (Reject (promise t) (number t) e) q t _ s Ed Eq).
    + right. eauto.
    + simpl. rewrite Er. reflexivity.
Qed.

Lemma drain_queue q : forall s,
  drains s = [AwaitPacing] -> messageQueue s = q ->
  present (Session.client (sess s)) = true ->
  drained fs throws net q s.
Proof.
  induction q as [|t q IH]; intros s Ed Eq Hc.
  - exists 1, (setDrains [] (setProcessing false s)).
    repeat split; auto.
    + rewrite <- (Nat.add_0_r 1), (drainAll_step _ s 0 Ed). simpl.
      unfold loopHead. rewrite Eq. reflexivity.
    + intros t [].
  - pose (s0 := setDrains [AwaitIsRegistered t]
                  (log (IsRegisteredUser (chatId t))
                     (log (Begin (promise t) (number t)) s))).
    assert (H0 : forall j, drainAll fs throws net (1 + j) s
                           = drainAll fs throws net j s0).
    { intros j. rewrite (drainAll_step _ s j Ed). simpl.
      unfold loopHead, startTask. rewrite Eq. simpl.
      destruct (Session.client (sess s)); [reflexivity|discriminate]. }
    destruct (drain_task t s0 q eq_refl Eq)
      as (s1 & k & acts & a & Hk & Hs & Ht & Ha & Hq & Hd).
    destruct (IH s1 Hd Hq)
      as (k' & s2 & Hk' & Hd' & Hp' & Hq' & Hall & Hkeep).
    { rewrite Hs. exact Hc. }
    exists (1 + (k + k')), s2. repeat split; auto.
    + rewrite H0, Hk. exact Hk'.
    + intros x [<-|Hx]; [|auto].
      exists a. split; [|exact Ha]. apply Hkeep. rewrite Ht. left. reflexivity.
    + intros x Hx. apply Hkeep. rewrite Ht. right.
      apply in_or_app. right. simpl. auto.
Qed.

Lemma drained_after t q s s1 :
  settled_then fs throws net t q s s1 ->
  present (Session.client (sess s)) = true ->
  drained fs throws net (t :: q) s.
Proof.
  intros (k & acts & a & Hk & Hs & Ht & Ha & Hq & Hd) Hc.
  destruct (drain_queue q s1 Hd Hq)
    as (k' & s2 & Hk' & Hd' & Hp' & Hq' & Hall & Hkeep).
  { rewrite Hs. exact Hc. }
  exists (k + k'), s2. repeat split; auto.
  - rewrite Hk. exact Hk'.
  - intros x [<-|Hx]; [|auto].
    exists a. split; [|exact Ha]. apply Hkeep. rewrite Ht. left. reflexivity.
  - intros x Hx. apply Hkeep. rewrite Ht. right.
    apply in_or_app. right. exact Hx.
Qed.

(** A loop in a regular state, left alone, settles the whole queue. *)
Lemma drain_regular d s :
  drains s = [d] -> regular s ->
  present (Session.client (sess s)) = true ->
  drained fs throws net (messageQueue s) s.
Proof.
  unfold regular. intros Ed Hr Hc. rewrite Ed in Hr.
  destruct d as [t|t c o rest|].
  - destruct Hr as [_ Hh].
    destruct (messageQueue s) as [|h q] eqn:Eq; [discriminate|].
    injection Hh as ->.
    destruct (drain_task t s q Ed Eq) as [s1 H1].
    apply (drained_after t q s s1 H1 Hc).
  - destruct Hr as [_ Hh].
    destruct (messageQueue s) as [|h q] eqn:Eq; [discriminate|].
    injection Hh as ->.
    destruct (drain_send rest t c o s q Ed Eq) as [s1 H1].
    apply (drained_after t q s s1 H1 Hc).
  - apply drain_queue; auto.
Qed.

End QueueDrain.

Section ReportFacts.

Import Js Driver QueueVariant.

Variable fs : files.
Variable throws : nat -> bool.
Variable net : oracle.

(** A request accepted in a regular state: the tasks are pushed; the loop is
    started on the head of the queue unless it is running already; left
    alone, it settles the whole queue. *)
Lemma sendBulk_drained b n ns s :
  regular s ->
  present (Session.client (sess s)) = true ->
  numbers b = Some (n :: ns) ->
  snd (sendBulkMessages b true s)
  = AwaitAll (map promise (makeTasks b (n :: ns) (nextPromise s)))
  /\ drained fs throws net
       (messageQueue s ++ makeTasks b (n :: ns) (nextPromise s))
       (fst (sendBulkMessages b true s)).
Proof.
  intros Hr Hc Hn. unfold sendBulkMessages.
  rewrite Hc, Hn. cbn [andb negb]. cbv zeta. split; [reflexivity|].
  cbn [fst]. unfold processMessageQueue.
  cbn [isProcessingQueue setNextPromise setQueue messageQueue].
  set (tasks := makeTasks b (n :: ns) (nextPromise s)).
  set (s1 := setNextPromise (nextPromise s + length tasks)
               (setQueue (messageQueue s ++ tasks) s)).
  unfold regular in Hr.
  destruct (drains s) as [|d [|d' l]] eqn:Ed; [| |destruct d; contradiction].
  - rewrite Hr. cbn [orb].
    destruct (messageQueue s ++ tasks) as [|h r] eqn:Eq.
    { destruct (messageQueue s); discriminate. }
    unfold loopHead.
    change (messageQueue (setProcessing true s1)) with (h :: r).
    unfold startTask. cbv zeta.
    change (Session.client
              (sess (log (Begin (promise h) (number h))
                       (setProcessing true s1))))
      with (Session.client (sess s)).
    destruct (Session.client (sess s)) as [c|] eqn:Ec'; [|discriminate].
    set (s2 := setDrains _ _).
    change (h :: r) with (messageQueue s2).
    apply (drain_regular fs throws net (AwaitIsRegistered h)).
    + unfold s2. simpl. rewrite Ed. reflexivity.
    + unfold regular, s2. simpl. rewrite Ed. simpl. auto.
    + unfold s2. simpl. rewrite Ec'. reflexivity.
  - assert (Hp : isProcessingQueue s = true)
      by (destruct d; [apply Hr|apply Hr|exact Hr]).
    rewrite Hp. cbn [orb].
    apply (drain_regular fs throws net d s1); [exact Ed| |exact Hc].
    unfold regular. change (drains s1) with (drains s). rewrite Ed.
    change (isProcessingQueue s1) with (isProcessingQueue s).
    change (messageQueue s1) with (messageQueue s ++ tasks).
    destruct d as [t|t c o rest|]; [| |exact Hr];
      destruct Hr as [_ Hh]; split; auto;
      destruct (messageQueue s); [discriminate|exact Hh|discriminate|exact Hh].
Qed.

End ReportFacts.

(** ** Validation of the request *)

(** The loop variant answers an empty list of numbers, and a request with
    neither message nor media, with status 400 before any call on the
    driver; the queue variant does so for an empty list of numbers, and
    leaves its state as it is. *)
Lemma empty_batch_rejected (net : Driver.oracle) (fs : Driver.files) :
  (forall s b,
     (match Js.numbers b with None | Some [] => true | _ => false end
      || (negb (Js.truthy (Js.message b))
          && negb (Js.present (Js.nonEmpty (Js.mediaPaths b))))) = true ->
     exists error,
       LoopVariant.sendBulkMessages net fs s b = (Js.Status400 error, []))
  /\ (forall s b isReady,
        match Js.numbers b with None | Some [] => true | _ => false end
        = true ->
        exists error,
          QueueVariant.sendBulkMessages b isReady s
          = (s, QueueVariant.Respond (Js.Status400 error))).
Proof.
  split.
  - intros s b. apply loop_validation.
  - intros s b isReady H. unfold QueueVariant.sendBulkMessages.
    destruct (negb _); [eauto|].
    destruct (Js.numbers b) as [[|n ns]|]; eauto. discriminate.
Qed.

(** C3 in the queue variant, at a request with one number, no message and
    no media: the request is accepted, a task is queued, the driver is asked
    whether the number is registered, nothing is sent, and the number is
    reported as a success. *)
Theorem queue_accepts_request_without_content :
  let out := QueueVariant.sendBulkMessages Sample.nothingToSend true
               Sample.idle in
  let s' := QueueVariant.drainAll Sample.fs Sample.noThrow Sample.net 10
              (fst out) in
  snd out = QueueVariant.AwaitAll [0]
  /\ length (QueueVariant.messageQueue (fst out))
     = S (length (QueueVariant.messageQueue Sample.idle))
  /\ QueueVariant.history s'
     = [Driver.Begin 0 "200100000001";
        Driver.IsRegisteredUser "200100000001@c.us";
        Driver.Resolve 0 "200100000001"]
  /\ QueueVariant.report [0] s' = Some (Js.Results ["200100000001"] []).
Proof. repeat split. Qed.

(** ** The example batch of the specification *)

(** C5, as the code has it: the numbers "0100000001" and "100000002" are
    normalised to "200100000001" and "20100000002" (a leading zero is kept
    behind the prefix). When the driver reports the second as not
    registered and the first as registered and reachable, the loop variant
    reports the first under its normalised form and the second as failed
    under the number as it was submitted. *)
Theorem example_batch_report (net : Driver.oracle) (fs : Driver.files)
    (s : Session.state) :
  Js.present (Session.client s)
  && Session.isConnected (Session.connectionStatus s) = true ->
  Driver.isRegisteredUser net "200100000001@c.us" = Js.Ok true ->
  Driver.isRegisteredUser net "20100000002@c.us" = Js.Ok false ->
  Driver.sendMessage net "200100000001@c.us" (Driver.Text "hi") None
  = Js.Ok tt ->
  map Normalize.formatNumber ["0100000001"; "100000002"]
  = ["200100000001"; "20100000002"]
  /\ LoopVariant.sendBulkMessages net fs s Sample.twoNumbers
     = (Js.Results ["200100000001"] [("100000002", Js.ERR_NOT_REGISTERED)],
        [Driver.IsRegisteredUser "200100000001@c.us";
         Driver.SendMessage "200100000001@c.us" (Driver.Text "hi") None;
         Driver.IsRegisteredUser "20100000002@c.us"]).
Proof.
  intros Hc H1 H2 H3. split; [reflexivity|].
  assert (E1 : Normalize.formatNumber "0100000001" = "200100000001")
    by reflexivity.
  assert (E2 : Normalize.formatNumber "100000002" = "20100000002")
    by reflexivity.
  assert (C1 : Normalize.chatIdOf "200100000001" = "200100000001@c.us")
    by reflexivity.
  assert (C2 : Normalize.chatIdOf "20100000002" = "20100000002@c.us")
    by reflexivity.
  unfold LoopVariant.sendBulkMessages. rewrite Hc.
  cbn -[Js.ERR_NOT_REGISTERED Normalize.formatNumber Normalize.chatIdOf].
  unfold LoopVariant.sendOne, LoopVariant.callIsRegisteredUser,
    LoopVariant.callSendMessage.
  cbn -[Js.ERR_NOT_REGISTERED Normalize.formatNumber Normalize.chatIdOf].
  rewrite E1, E2, C1, C2, H1, H2.
  cbn -[Js.ERR_NOT_REGISTERED]. rewrite H3. reflexivity.
Qed.

Lemma example_batch_report_witness :
  map Normalize.formatNumber ["0100000001"; "100000002"]
  = ["200100000001"; "20100000002"]
  /\ LoopVariant.sendBulkMessages Sample.net Sample.fs Sample.ready
       Sample.twoNumbers
     = (Js.Results ["200100000001"] [("100000002", Js.ERR_NOT_REGISTERED)],
        [Driver.IsRegisteredUser "200100000001@c.us";
         Driver.SendMessage "200100000001@c.us" (Driver.Text "hi") None;
         Driver.IsRegisteredUser "20100000002@c.us"]).
Proof.
  apply (example_batch_report Sample.net Sample.fs Sample.ready);
    reflexivity.
Defined.

(** The same batch in the queue variant: the failed number is reported
    under its normalised form. *)
Lemma sample_batch_in_queue_variant :
  QueueVariant.report [0; 1]
    (QueueVariant.drainAll Sample.fs Sample.noThrow Sample.net 10
       (fst (QueueVariant.sendBulkMessages Sample.twoNumbers true
               Sample.idle)))
  = Some (Js.Results ["200100000001"]
            [("20100000002", Js.ERR_NOT_REGISTERED)]).
Proof. reflexivity. Qed.

(** C5 fails as stated: "0100000001" is not normalised to "20100000001",
    and the loop variant's report is not the one claimed. *)
Lemma example_batch_not_as_claimed :
  Normalize.formatNumber "0100000001" <> "20100000001"
  /\ fst (LoopVariant.sendBulkMessages Sample.net Sample.fs Sample.ready
            Sample.twoNumbers)
     <> Js.Results ["20100000001"] [("20100000002", Js.ERR_NOT_REGISTERED)].
Proof. split; discriminate. Qed.

(** ** The queue variant changes the globals as [Session] describes *)

Section QueueSession.

Import Js Driver QueueVariant.

Variable fs : files.
Variable throws : nat -> bool.

Lemma sess_sendMedia t p rest s :
  sess (fst (sendMedia fs t p rest s)) = sess s.
Proof.
  destruct (sendMedia_cases fs t p rest s) as [(e & ->)|(c & o & ->)];
    reflexivity.
Qed.

Lemma sess_resume d r s : sess (fst (resume fs d r s)) = sess s.
Proof.
  destruct d as [t|t c o rest|]; simpl.
  - destruct r as [[|]|e]; try reflexivity.
    unfold afterRegistered.
    destruct (nonEmpty (mediaPaths t)) as [[p rest]|];
      [apply sess_sendMedia|].
    destruct (truthy (message t)); [|reflexivity].
    unfold sendText. destruct (Session.client (sess s)); reflexivity.
  - destruct r as [x|e]; [|reflexivity].
    destruct rest; [reflexivity|apply sess_sendMedia].
  - unfold loopHead. destruct (messageQueue s); [reflexivity|].
    unfold startTask. simpl. destruct (Session.client (sess s)); reflexivity.
Qed.

Lemma sess_processMessageQueue s : sess (processMessageQueue s) = sess s.
Proof.
  unfold processMessageQueue.
  destruct (isProcessingQueue s || _); [reflexivity|].
  pose proof (sess_resume AwaitPacing (Ok true) (setProcessing true s)) as H.
  simpl in H.
  destruct (loopHead (setProcessing true s)) as [s' [d|]]; exact H.
Qed.

Lemma sess_finishTeardown k destroyed s :
  exists es,
    sess (finishTeardown throws k destroyed s) = Session.run es (sess s).
Proof.
  destruct k.
  - exists [Session.DestroyEnd destroyed;
            Session.Initialize (throws (Session.constructed (sess s)))].
    reflexivity.
  - exists [Session.DestroyEnd destroyed; Session.SetInitializing;
            Session.Initialize (throws (Session.constructed (sess s)))].
    reflexivity.
  - exists [Session.DestroyEnd destroyed;
            Session.Initialize (throws (Session.constructed (sess s)))].
    reflexivity.
Qed.

Lemma sess_beginTeardown k s :
  exists es, sess (beginTeardown throws k s) = Session.run es (sess s).
Proof.
  unfold beginTeardown. cbv zeta.
  destruct (Session.client _).
  - exists [Session.DestroyBegin]. reflexivity.
  - destruct (sess_finishTeardown k false
                (setSess (Session.destroyClient_begin (sess s)) s))
      as [es H].
    exists (Session.DestroyBegin :: es). rewrite H. reflexivity.
Qed.

Lemma sess_step s e :
  exists es, sess (step fs throws s e) = Session.run es (sess s).
Proof.
  destruct e; cbn [step].
  - exists [Session.Qr qr]. reflexivity.
  - exists [Session.LoadingScreen percent]. reflexivity.
  - exists [Session.Ready]. unfold on_ready.
    rewrite sess_processMessageQueue. reflexivity.
  - exists [Session.Authenticated]. reflexivity.
  - exists [Session.AuthFailure]. reflexivity.
  - exists [Session.AuthFailure]. reflexivity.
  - apply sess_beginTeardown.
  - apply sess_beginTeardown.
  - apply sess_beginTeardown.
  - destruct (nth_error (teardowns s) i); [|exists []; reflexivity].
    apply (sess_finishTeardown t destroyed
             (setTeardowns (replaceAt i None (teardowns s)) s)).
  - exists []. unfold sendBulkMessages.
    destruct (negb _); [reflexivity|].
    destruct (numbers b) as [[|n ns]|]; try reflexivity.
    cbv zeta. cbn [fst]. rewrite sess_processMessageQueue. reflexivity.
  - exists []. destruct (nth_error (drains s) i) as [d|]; [|reflexivity].
    pose proof (sess_resume d r s) as H.
    destruct (resume fs d r s) as [s' d']. exact H.
  - destruct (nth_error (teardowns s) i); [|exists []; reflexivity].
    exists [Session.DestroyEnd destroyed]. reflexivity.
  - destruct (nth_error (resuming s) i) as [[| |]|]; [| | |exists []; reflexivity].
    + exists [Session.Initialize (throws (Session.constructed (sess s)))].
      reflexivity.
    + exists [Session.SetInitializing;
              Session.Initialize (throws (Session.constructed (sess s)))].
      reflexivity.
    + exists [Session.Initialize (throws (Session.constructed (sess s)))].
      reflexivity.
  - exists []. unfold sendBulkMessagesThrown.
    destruct (negb _); [reflexivity|].
    destruct (numbers b); reflexivity.
Qed.

Lemma session_run_app es1 es2 s :
  Session.run (es1 ++ es2) s = Session.run es2 (Session.run es1 s).
Proof. unfold Session.run. apply fold_left_app. Qed.

Lemma sess_run es : forall s,
  exists es', sess (run fs throws es s) = Session.run es' (sess s).
Proof.
  induction es as [|e es IH]; intros s; [exists []; reflexivity|].
  simpl. destruct (IH (step fs throws s e)) as [es2 H2].
  destruct (sess_step s e) as [es1 H1].
  exists (es1 ++ es2). rewrite H2, H1, session_run_app. reflexivity.
Qed.

Lemma sess_boot_run es :
  exists es', sess (run fs throws es (boot throws))
              = Session.run es' Session.init.
Proof.
  destruct (sess_run es (boot throws)) as [es' H].
  exists (Session.Initialize (throws 0) :: es'). rewrite H. reflexivity.
Qed.

End QueueSession.

(** C7, as the code has it: in every state the handlers can produce, a
    status of [connected] comes with no pairing code ([ready] and
    [destroyClient] clear it), in the globals taken alone and in the queue
    variant as a whole; [authenticated] leaves the stored code in place. *)
Theorem connected_has_no_pairing_code (es : list Session.event) :
  (Session.isConnected (fst (Session.currentStatus
                               (Session.run es Session.init))) = true ->
   snd (Session.currentStatus (Session.run es Session.init)) = None)
  /\ (forall fs throws qes,
        let s := QueueVariant.sess
                   (QueueVariant.run fs throws qes
                      (QueueVariant.boot throws)) in
        Session.isConnected (fst (Session.currentStatus s)) = true ->
        snd (Session.currentStatus s) = None)
  /\ (forall s, Session.qrCodeData (Session.on_authenticated s)
                = Session.qrCodeData s).
Proof.
  split; [|split; [|reflexivity]].
  - simpl. apply run_connected_no_qr. reflexivity.
  - intros fs throws qes s. unfold s.
    destruct (sess_boot_run fs throws qes) as [es' ->].
    simpl. apply run_connected_no_qr. reflexivity.
Qed.

Lemma connected_has_no_pairing_code_witness :
  snd (Session.currentStatus
         (Session.run [Session.Initialize false; Session.Qr "QR";
                       Session.Authenticated; Session.Ready]
                      Session.init)) = None
  /\ snd (Session.currentStatus
            (QueueVariant.sess
               (QueueVariant.run Sample.fs Sample.noThrow
                  [QueueVariant.EvQr "QR"; QueueVariant.EvAuthenticated;
                   QueueVariant.EvReady]
                  (QueueVariant.boot Sample.noThrow)))) = None.
Proof.
  split.
  - apply (proj1 (connected_has_no_pairing_code
                    [Session.Initialize false; Session.Qr "QR";
                     Session.Authenticated; Session.Ready])).
    reflexivity.
  - apply (proj1 (proj2 (connected_has_no_pairing_code []))
             Sample.fs Sample.noThrow
             [QueueVariant.EvQr "QR"; QueueVariant.EvAuthenticated;
              QueueVariant.EvReady]).
    reflexivity.
Defined.

(** C7 fails as stated: after the pairing code "QR" has been stored, the
    [authenticated] event leaves [GET /status] reporting [authenticating]
    together with the code, in the globals taken alone and in the queue
    variant. *)
Lemma authenticating_with_pairing_code :
  Session.currentStatus
    (Session.run [Session.Initialize false; Session.Qr "QR";
                  Session.Authenticated] Session.init)
  = (Session.authenticating, Some "QR")
  /\ Session.currentStatus
       (QueueVariant.sess
          (QueueVariant.run Sample.fs Sample.noThrow
             [QueueVariant.EvQr "QR"; QueueVariant.EvAuthenticated]
             (QueueVariant.boot Sample.noThrow)))
     = (Session.authenticating, Some "QR").
Proof. split; reflexivity. Qed.

(** * Further properties of the code *)

(** ** Normalisation, continued *)

Section NormalizeMore.

Import Normalize.

Lemma stripNonDigits_none s :
  Upload.allChars (fun c => negb (isDigit c)) s = true ->
  stripNonDigits s = EmptyString.
Proof.
  induction s as [|c r IH]; simpl; [reflexivity|].
  intros H. apply andb_true_iff in H as [Hc Hr].
  apply negb_true_iff in Hc. rewrite Hc. auto.
Qed.

Lemma length_append (a b : string) :
  String.length (a ++ b)%string = String.length a + String.length b.
Proof. induction a as [|c r IH]; simpl; [reflexivity|]. rewrite IH. reflexivity. Qed.

Lemma append_longer (a : ascii) (p d : string) : d <> (String a p ++ d)%string.
Proof.
  intros H. apply (f_equal String.length) in H.
  rewrite length_append in H. simpl in H. lia.
Qed.

End NormalizeMore.

(** X3: the numbers that normalisation leaves as they are are exactly the
    digit strings that begin with "20". *)
Theorem formatNumber_fixed_points (s : string) :
  Normalize.formatNumber s = s
  <-> Normalize.allDigits s = true /\ Normalize.startsWith "20" s = true.
Proof.
  split.
  - intros H. rewrite <- H.
    split; [apply formatNumber_allDigits|apply formatNumber_startsWith].
  - intros [Hd Hp]. unfold Normalize.formatNumber.
    rewrite (stripNonDigits_fixed s Hd), Hp. reflexivity.
Qed.

(** X4: a digit string [d] that does not begin with "20" and the longer
    string "20" ++ d are normalised to the same address. *)
Theorem formatNumber_collision (d : string) :
  Normalize.allDigits d = true ->
  Normalize.startsWith "20" d = false ->
  d <> ("20" ++ d)%string
  /\ Normalize.formatNumber d = Normalize.formatNumber ("20" ++ d)%string.
Proof.
  intros Hd Hp. split; [apply append_longer|].
  assert (H20 : Normalize.allDigits ("20" ++ d)%string = true)
    by (simpl; exact Hd).
  unfold Normalize.formatNumber.
  rewrite (stripNonDigits_fixed d Hd), Hp.
  rewrite (stripNonDigits_fixed _ H20).
  assert (E : Normalize.startsWith "20" ("20" ++ d)%string = true).
  { unfold Normalize.startsWith. simpl. destruct d; reflexivity. }
  rewrite E. reflexivity.
Qed.

Lemma formatNumber_collision_witness :
  "100" <> ("20" ++ "100")%string
  /\ Normalize.formatNumber "100" = Normalize.formatNumber ("20" ++ "100")%string.
Proof. apply (formatNumber_collision "100"); reflexivity. Defined.

(** X5: a recipient without any digit, the empty string among them, is
    normalised to the bare prefix "20". *)
Theorem formatNumber_without_digits (s : string) :
  Upload.allChars (fun c => negb (Normalize.isDigit c)) s = true ->
  Normalize.formatNumber s = "20"
  /\ Normalize.chatIdOf (Normalize.formatNumber s) = "20@c.us".
Proof.
  intros H. unfold Normalize.formatNumber.
  rewrite (stripNonDigits_none s H). split; reflexivity.
Qed.

Lemma formatNumber_without_digits_witness :
  Normalize.formatNumber "+ (n/a) -" = "20"
  /\ Normalize.chatIdOf (Normalize.formatNumber "+ (n/a) -") = "20@c.us".
Proof. apply (formatNumber_without_digits "+ (n/a) -"). reflexivity. Defined.

(** ** Uploads *)

Section UploadFacts.

Import Js Upload.

Lemma includes_In l x : includes l x = true <-> In x l.
Proof.
  unfold includes. rewrite existsb_exists. split.
  - intros (y & Hy & E). apply String.eqb_eq in E. subst. exact Hy.
  - intros H. exists x. split; [exact H|apply String.eqb_refl].
Qed.

Lemma keep_append p a b :
  keep p (a ++ b)%string = (keep p a ++ keep p b)%string.
Proof.
  induction a as [|c r IH]; simpl; [reflexivity|].
  destruct (p c); simpl; rewrite IH; reflexivity.
Qed.

Lemma keep_all p s : allChars p s = true -> keep p s = s.
Proof.
  induction s as [|c r IH]; simpl; [reflexivity|].
  intros H. apply andb_true_iff in H as [Hc Hr].
  rewrite Hc, (IH Hr). reflexivity.
Qed.

Lemma allChars_keep p s : allChars p (keep p s) = true.
Proof.
  induction s as [|c r IH]; simpl; [reflexivity|].
  destruct (p c) eqn:E; simpl; [rewrite E|]; exact IH.
Qed.

Lemma allChars_append p a b :
  allChars p (a ++ b)%string = allChars p a && allChars p b.
Proof.
  induction a as [|c r IH]; simpl; [reflexivity|].
  rewrite IH. apply andb_assoc.
Qed.

Lemma allChars_In p s c :
  allChars p s = true -> In c (list_ascii_of_string s) -> p c = true.
Proof.
  induction s as [|a r IH]; simpl; [tauto|].
  intros H [<-|Hin]; apply andb_true_iff in H as [Ha Hr]; auto.
Qed.

Lemma decimal_safe t : allChars isSafeChar (decimal t) = true.
Proof.
  unfold decimal. generalize (Nat.to_uint t) as d.
  induction d; simpl; auto.
Qed.

End UploadFacts.

(** X1: [fileFilter] accepts a type exactly when it is one of [image/jpeg],
    [image/png], [image/gif] and [application/ogg] or begins with [audio/]
    or [video/] (the audio and video entries of the list add nothing); a
    rejection carries the type in its message. *)
Theorem fileFilter_accepts (mimetype : string) :
  (Upload.fileFilter mimetype = Js.Ok tt
   <-> In mimetype
         ["image/jpeg"; "image/png"; "image/gif"; "application/ogg"]
       \/ Normalize.startsWith "audio/" mimetype = true
       \/ Normalize.startsWith "video/" mimetype = true)
  /\ (Upload.fileFilter mimetype <> Js.Ok tt ->
      Upload.fileFilter mimetype
      = Js.Throw (Js.ERR_MEDIA_TYPE ++ ": " ++ mimetype)%string).
Proof.
  unfold Upload.fileFilter. split.
  - destruct (Upload.includes Upload.allowedMimes mimetype) eqn:Ei; simpl.
    + split; [intros _|reflexivity].
      apply includes_In in Ei. unfold Upload.allowedMimes in Ei.
      simpl in Ei.
      repeat (destruct Ei as [<-|Ei];
              [solve [left; simpl; tauto
                     | right; left; reflexivity
                     | right; right; reflexivity]|]).
      destruct Ei.
    + destruct (Normalize.startsWith "audio/" mimetype) eqn:Ea; simpl;
        [split; [auto|reflexivity]|].
      destruct (Normalize.startsWith "video/" mimetype) eqn:Ev; simpl;
        [split; [auto|reflexivity]|].
      split; [discriminate|].
      intros [Hin|[H|H]]; try discriminate.
      assert (Hi : Upload.includes Upload.allowedMimes mimetype = true).
      { apply includes_In. unfold Upload.allowedMimes.
        simpl in Hin. simpl. tauto. }
      congruence.
  - destruct (_ || _ || _); [intros H; contradiction H; reflexivity|].
    reflexivity.
Qed.

Lemma fileFilter_accepts_witness :
  Upload.fileFilter "image/webp"
  = Js.Throw (Js.ERR_MEDIA_TYPE ++ ": " ++ "image/webp")%string.
Proof.
  apply (proj2 (fileFilter_accepts "image/webp")). discriminate.
Defined.

(** X2: the name an upload is stored under is the time stamp in decimal
    followed by the extension without the characters outside
    [[a-zA-Z0-9.-]]; no character of the name is outside that class, so it
    holds no path separator. *)
Theorem filename_is_safe (timestamp : nat) (ext : string) :
  Upload.filename timestamp ext
  = (Upload.decimal timestamp ++ Upload.keep Upload.isSafeChar ext)%string
  /\ (forall c,
        In c (list_ascii_of_string (Upload.filename timestamp ext)) ->
        Upload.isSafeChar c = true /\ c <> "/"%char /\ c <> "\"%char).
Proof.
  unfold Upload.filename. split.
  - rewrite keep_append, (keep_all _ _ (decimal_safe timestamp)).
    reflexivity.
  - intros c Hc.
    assert (H : Upload.isSafeChar c = true)
      by (eapply allChars_In; [apply allChars_keep|exact Hc]).
    split; [exact H|]. split; intros ->; discriminate.
Qed.

Lemma formatNumber_fixed_points_witness :
  Normalize.formatNumber "20100200300" = "20100200300".
Proof.
  apply (proj2 (formatNumber_fixed_points "20100200300")).
  split; reflexivity.
Defined.

(** ** Connection state, continued *)

Section LifecycleFacts.

Import Js Session.

Lemma step_client_newest s e :
  (forall c, client s = Some c -> S c = constructed s) ->
  forall c, client (step s e) = Some c -> S c = constructed (step s e).
Proof.
  intros H. destruct e as [t| | | | | | |[|]|]; simpl; auto.
  - intros c [= <-]. reflexivity.
  - discriminate.
Qed.

Lemma run_client_newest es : forall s,
  (forall c, client s = Some c -> S c = constructed s) ->
  forall c, client (run es s) = Some c -> S c = constructed (run es s).
Proof.
  induction es as [|e es IH]; intros s H; [exact H|].
  simpl. apply IH. apply step_client_newest. exact H.
Qed.

End LifecycleFacts.

(** X6: whenever [client] is not null it is the driver constructed last;
    a driver that has been replaced is never made current again. This holds
    for the globals under any sequence of handler steps, and so in the
    queue variant. *)
Theorem client_is_newest_driver (es : list Session.event) (c : nat) :
  (Session.client (Session.run es Session.init) = Some c ->
   S c = Session.constructed (Session.run es Session.init))
  /\ (forall fs throws qes,
        let s := QueueVariant.sess
                   (QueueVariant.run fs throws qes
                      (QueueVariant.boot throws)) in
        Session.client s = Some c -> S c = Session.constructed s).
Proof.
  split.
  - apply run_client_newest. discriminate.
  - intros fs throws qes s. unfold s.
    destruct (sess_boot_run fs throws qes) as [es' ->].
    apply run_client_newest. discriminate.
Qed.

Lemma client_is_newest_driver_witness :
  2 = Session.constructed
        (Session.run [Session.Initialize false; Session.DestroyBegin;
                      Session.DestroyEnd false; Session.Initialize false]
                     Session.init).
Proof.
  apply (proj1 (client_is_newest_driver
                  [Session.Initialize false; Session.DestroyBegin;
                   Session.DestroyEnd false; Session.Initialize false] 1)).
  reflexivity.
Defined.

(** X7: [POST /disconnect] of the loop variant answers with success exactly
    when [clearAuthData()] does not throw. Either way the status is no
    longer [connected] and the pairing code is gone. On success one new
    driver has been constructed and is the current one. On failure no
    driver is constructed and the status is [disconnected]; [client] is
    null when [client.destroy()] resolved, and is still the old driver when
    it did not. *)
Theorem disconnect_outcome (destroyResolves clearThrows initThrows : bool)
    (s : Session.state) :
  let s' := fst (LoopLifecycle.disconnect destroyResolves clearThrows
                   initThrows s) in
  let a := snd (LoopLifecycle.disconnect destroyResolves clearThrows
                  initThrows s) in
  (a = LoopLifecycle.Disconnected <-> clearThrows = false)
  /\ Session.isConnected (Session.connectionStatus s') = false
  /\ Session.qrCodeData s' = None
  /\ (clearThrows = false ->
      Session.constructed s' = S (Session.constructed s)
      /\ Session.client s' = Some (Session.constructed s))
  /\ (clearThrows = true ->
      a = LoopLifecycle.Failed LoopLifecycle.ERR_DISCONNECT
      /\ Session.constructed s' = Session.constructed s
      /\ Session.connectionStatus s' = Session.disconnected
      /\ Session.client s'
         = (if destroyResolves then None else Session.client s)).
Proof.
  unfold LoopLifecycle.disconnect, LoopLifecycle.destroyClient.
  destruct clearThrows, initThrows; simpl;
    (split; [split; [discriminate || reflexivity
                    | discriminate || reflexivity]|]);
    (split; [reflexivity|]); (split; [reflexivity|]);
    (split; [intros H; try discriminate; auto|]);
    intros H; try discriminate;
    repeat split;
    destruct (Session.client s), destroyResolves; reflexivity.
Qed.

Lemma disconnect_outcome_witness :
  snd (LoopLifecycle.disconnect false true false Sample.ready)
  = LoopLifecycle.Failed LoopLifecycle.ERR_DISCONNECT
  /\ Session.constructed
       (fst (LoopLifecycle.disconnect false true false Sample.ready))
     = Session.constructed Sample.ready
  /\ Session.connectionStatus
       (fst (LoopLifecycle.disconnect false true false Sample.ready))
     = Session.disconnected
  /\ Session.client
       (fst (LoopLifecycle.disconnect false true false Sample.ready))
     = (if false then None else Session.client Sample.ready).
Proof.
  apply (proj2 (proj2 (proj2 (proj2
           (disconnect_outcome false true false Sample.ready))))).
  reflexivity.
Defined.

(** X8: the loop variant works on a bulk request only while there is a
    client and the status is [connected]; otherwise it answers with status
    400 and calls nothing on the driver. That is the case right after
    [POST /disconnect], whatever the driver and the file system did, and
    after the ['disconnected'] and ['auth_failure'] listeners when they
    return. They return exactly when [clearAuthData()] does not throw; when
    it throws, the rejection of the listener is handled nowhere. *)
Theorem bulk_refused_unless_connected (net : Driver.oracle)
    (fs : Driver.files) (b : Js.body) (s : Session.state)
    (destroyResolves clearThrows initThrows : bool) :
  (Js.present (Session.client s)
   && Session.isConnected (Session.connectionStatus s) = false ->
   LoopVariant.sendBulkMessages net fs s b
   = (Js.Status400 Js.ERR_NOT_CONNECTED, []))
  /\ LoopVariant.sendBulkMessages net fs
       (fst (LoopLifecycle.disconnect destroyResolves clearThrows
               initThrows s)) b
     = (Js.Status400 Js.ERR_NOT_CONNECTED, [])
  /\ (forall s',
        LoopLifecycle.on_disconnected destroyResolves clearThrows
          initThrows s = LoopLifecycle.Returned s' ->
        clearThrows = false
        /\ LoopVariant.sendBulkMessages net fs s' b
           = (Js.Status400 Js.ERR_NOT_CONNECTED, []))
  /\ (forall s',
        LoopLifecycle.on_auth_failure clearThrows initThrows s
        = LoopLifecycle.Returned s' ->
        clearThrows = false
        /\ LoopVariant.sendBulkMessages net fs s' b
           = (Js.Status400 Js.ERR_NOT_CONNECTED, []))
  /\ (clearThrows = true ->
      LoopLifecycle.on_disconnected destroyResolves clearThrows
        initThrows s = LoopLifecycle.Unhandled
      /\ LoopLifecycle.on_auth_failure clearThrows initThrows s
         = LoopLifecycle.Unhandled)
  /\ (clearThrows = false ->
      exists s1 s2,
        LoopLifecycle.on_disconnected destroyResolves clearThrows
          initThrows s = LoopLifecycle.Returned s1
        /\ LoopLifecycle.on_auth_failure clearThrows initThrows s
           = LoopLifecycle.Returned s2).
Proof.
  assert (G : forall s0,
            Js.present (Session.client s0)
            && Session.isConnected (Session.connectionStatus s0) = false ->
            LoopVariant.sendBulkMessages net fs s0 b
            = (Js.Status400 Js.ERR_NOT_CONNECTED, [])).
  { intros s0 H. unfold LoopVariant.sendBulkMessages. rewrite H.
    reflexivity. }
  split; [apply G|].
  split.
  { apply G. unfold LoopLifecycle.disconnect, LoopLifecycle.destroyClient.
    destruct clearThrows, initThrows; simpl;
      try apply andb_false_r; reflexivity. }
  unfold LoopLifecycle.on_disconnected, LoopLifecycle.on_auth_failure,
    LoopLifecycle.destroyClient.
  destruct clearThrows; cbv zeta.
  - split; [discriminate|]. split; [discriminate|].
    split; [auto|discriminate].
  - split; [|split; [|split; [discriminate|eauto]]];
      intros s' [= <-]; (split; [reflexivity|]); apply G;
      destruct initThrows; reflexivity.
Qed.

Lemma bulk_refused_unless_connected_witness :
  LoopVariant.sendBulkMessages Sample.net Sample.fs Session.init
    Sample.twoNumbers
  = (Js.Status400 Js.ERR_NOT_CONNECTED, []).
Proof.
  apply (proj1 (bulk_refused_unless_connected Sample.net Sample.fs
                  Sample.twoNumbers Session.init false false false)).
  reflexivity.
Defined.

(** ** The loop variant, continued *)

Section LoopMore.

Import Js Driver Reading.

Variable net : oracle.
Variable fs : files.

Lemma bind_ok {A B} (m : Run.M A) (k : A -> Run.M B) y :
  fst (Run.bind m k) = Ok y -> exists x, fst m = Ok x /\ fst (k x) = Ok y.
Proof.
  destruct m as [[x|e] l]; simpl; [|discriminate].
  destruct (k x) as [r l'] eqn:E. simpl. intros ->.
  exists x. rewrite E. auto.
Qed.

Lemma loop_sendOne_value b number f :
  fst (LoopVariant.sendOne net fs b number) = Ok f ->
  f = Normalize.formatNumber number.
Proof.
  unfold LoopVariant.sendOne. intros H.
  apply bind_ok in H as (isReg & _ & H).
  destruct (negb isReg); [discriminate|].
  apply bind_ok in H as (u & _ & H).
  apply bind_ok in H as (v & _ & H).
  simpl in H. congruence.
Qed.

(** The loop as a whole: each number is judged on its own, in the order of
    the request. *)
Lemma loop_sendAll_map b ns : forall success failed log,
  LoopVariant.sendAll net fs b ns success failed log
  = (Results
       (success ++ map Normalize.formatNumber (filter (delivered net fs b) ns))
       (failed
        ++ map (fun n => (n, reasonOf net fs b n))
             (filter (fun n => negb (delivered net fs b n)) ns)),
     log ++ flat_map (fun n => snd (LoopVariant.sendOne net fs b n)) ns).
Proof.
  induction ns as [|n ns IH]; intros success failed log.
  - simpl. rewrite !app_nil_r. reflexivity.
  - cbn [LoopVariant.sendAll filter flat_map].
    destruct (LoopVariant.sendOne net fs b n) as [[f|reason] l] eqn:E.
    + assert (Ed : delivered net fs b n = true)
        by (unfold delivered; rewrite E; reflexivity).
      assert (Ef : f = Normalize.formatNumber n)
        by (apply (loop_sendOne_value b n); rewrite E; reflexivity).
      rewrite Ed, IH, Ef. cbn [negb map snd].
      rewrite <- !app_assoc. reflexivity.
    + assert (Ed : delivered net fs b n = false)
        by (unfold delivered; rewrite E; reflexivity).
      assert (Er : reasonOf net fs b n = reason)
        by (unfold reasonOf; rewrite E; reflexivity).
      rewrite Ed, IH. cbn [negb map snd]. rewrite Er.
      rewrite <- !app_assoc. reflexivity.
Qed.



(** Paths that follow a failing one are not looked at. *)
Lemma forOf_stops {A} (f : A -> Run.M unit) x e l2 : forall l1,
  fst (f x) = Throw e ->
  Run.forOf f (l1 ++ x :: l2) = Run.forOf f (l1 ++ [x]).
Proof.
  intros l1 H. induction l1 as [|a l1 IH]; simpl.
  - destruct (f x) as [[u|e'] l]; simpl in *; [discriminate|reflexivity].
  - destruct (f a) as [[u|e'] l]; simpl; [|reflexivity].
    rewrite IH. reflexivity.
Qed.

Lemma forOf_nonEmpty {A} (f : A -> Run.M unit) l :
  match nonEmpty (Some l) with
  | Some (p, rest) => Run.forOf f (p :: rest)
  | None => Run.ret tt
  end = Run.forOf f l.
Proof. destruct l; reflexivity. Qed.

End LoopMore.

(** X9: in the loop variant each number is processed on its own and in the
    order of the request: [results.success] holds, in that order, the
    normalised form of the numbers whose processing threw nothing,
    [results.failed] the other numbers as they were submitted, each with its
    reason, and the calls on the driver are those of the first number, then
    those of the second, and so on. A number given twice is processed and
    reported twice. *)
Theorem loop_report_in_request_order (net : Driver.oracle)
    (fs : Driver.files) (s : Session.state) (b : Js.body)
    (ns success : list string) (failed : list (string * string))
    (acts : list Driver.action) :
  Js.numbers b = Some ns ->
  LoopVariant.sendBulkMessages net fs s b
  = (Js.Results success failed, acts) ->
  success
  = map Normalize.formatNumber (filter (Reading.delivered net fs b) ns)
  /\ failed
     = map (fun n => (n, Reading.reasonOf net fs b n))
         (filter (fun n => negb (Reading.delivered net fs b n)) ns)
  /\ acts = flat_map (fun n => snd (LoopVariant.sendOne net fs b n)) ns.
Proof.
  intros Hn. unfold LoopVariant.sendBulkMessages. rewrite Hn.
  destruct (negb _); [discriminate|].
  destruct ns as [|n0 ns0]; [discriminate|].
  destruct (negb (Js.truthy (Js.message b)) && _); [discriminate|].
  rewrite loop_sendAll_map. simpl app. intros [= <- <- <-]. auto.
Qed.

Lemma loop_report_in_request_order_witness :
  ["200100000001"; "200100000001"]
  = map Normalize.formatNumber
      (filter (Reading.delivered Sample.net Sample.fs
                 (Js.mkBody (Some ["0100000001"; "100000002"; "0100000001"])
                    (Some "hi") None))
         ["0100000001"; "100000002"; "0100000001"])
  /\ [("100000002", Js.ERR_NOT_REGISTERED)]
     = map (fun n =>
              (n, Reading.reasonOf Sample.net Sample.fs
                    (Js.mkBody
                       (Some ["0100000001"; "100000002"; "0100000001"])
                       (Some "hi") None) n))
         (filter (fun n =>
                    negb (Reading.delivered Sample.net Sample.fs
                            (Js.mkBody
                               (Some ["0100000001"; "100000002";
                                      "0100000001"])
                               (Some "hi") None) n))
            ["0100000001"; "100000002"; "0100000001"])
  /\ snd (LoopVariant.sendBulkMessages Sample.net Sample.fs Sample.ready
            (Js.mkBody (Some ["0100000001"; "100000002"; "0100000001"])
               (Some "hi") None))
     = flat_map
         (fun n =>
            snd (LoopVariant.sendOne Sample.net Sample.fs
                   (Js.mkBody
                      (Some ["0100000001"; "100000002"; "0100000001"])
                      (Some "hi") None) n))
         ["0100000001"; "100000002"; "0100000001"].
Proof.
  apply (loop_report_in_request_order Sample.net Sample.fs Sample.ready
           (Js.mkBody (Some ["0100000001"; "100000002"; "0100000001"])
              (Some "hi") None));
    reflexivity.
Defined.


(** X11: in the loop variant the media loop ends at the first path that
    fails: the paths listed after it change neither the report for the
    number nor the calls on the driver. *)
Theorem loop_media_stop_at_first_failure (net : Driver.oracle)
    (fs : Driver.files) (numbers : option (list string))
    (message : option string) (l1 l2 : list string) (x e number : string) :
  fst (LoopVariant.sendMedia net fs
         (Normalize.chatIdOf (Normalize.formatNumber number)) x)
  = Js.Throw e ->
  LoopVariant.sendOne net fs
    (Js.mkBody numbers message (Some (l1 ++ x :: l2))) number
  = LoopVariant.sendOne net fs
      (Js.mkBody numbers message (Some (l1 ++ [x]))) number.
Proof.
  intros H. unfold LoopVariant.sendOne. cbn [Js.mediaPaths Js.message].
  rewrite !(forOf_nonEmpty
              (LoopVariant.sendMedia net fs
                 (Normalize.chatIdOf (Normalize.formatNumber number)))).
  rewrite (forOf_stops _ x e l2 l1 H). reflexivity.
Qed.

Lemma loop_media_stop_at_first_failure_witness :
  LoopVariant.sendOne Sample.net
    (Driver.mkFiles (fun p => negb (String.eqb p "gone.png"))
       (fun _ => Some "image/png") (fun _ => Js.Ok "AAAA")
       (fun _ => Js.Ok 1024) (fun p => p))
    (Js.mkBody None (Some "hi") (Some (["a.png"] ++ "gone.png" :: ["b.png"])))
    "1"
  = LoopVariant.sendOne Sample.net
      (Driver.mkFiles (fun p => negb (String.eqb p "gone.png"))
         (fun _ => Some "image/png") (fun _ => Js.Ok "AAAA")
         (fun _ => Js.Ok 1024) (fun p => p))
      (Js.mkBody None (Some "hi") (Some (["a.png"] ++ ["gone.png"]))) "1".
Proof.
  apply (loop_media_stop_at_first_failure Sample.net _ None (Some "hi")
           ["a.png"] ["b.png"] "gone.png"
           (Js.ERR_MEDIA_PREFIX ++ Js.ERR_MEDIA_MISSING)%string "1").
  reflexivity.
Defined.

(** ** The caption variant, continued *)

Section CaptionMore.

Import Js Driver.

Variable net : oracle.
Variable fs : files.



End CaptionMore.

(** X12: [src/unnamed/part_000] sends a medium exactly when the file
    exists, its type is known, its size is at most 16 MiB (a file of
    exactly that size is sent) and it can be read; whatever goes wrong with
    a medium is reported with the media prefix before the reason. *)
Theorem caption_media_sent_iff (net : Driver.oracle) (fs : Driver.files)
    (message : option string) (chatId p : string) :
  (snd (CaptionVariant.sendMedia net fs message chatId p) <> []
   <-> Driver.existsSync fs p = true
       /\ (exists mimeType, Driver.lookup fs p = Some mimeType)
       /\ (exists size,
             Driver.statSize fs p = Js.Ok size
             /\ size <= CaptionVariant.MAX_SIZE)
       /\ (exists data, Driver.readBase64 fs p = Js.Ok data))
  /\ (forall e,
        fst (CaptionVariant.sendMedia net fs message chatId p) = Js.Throw e ->
        exists reason, e = (Js.ERR_MEDIA_PREFIX ++ reason)%string).
Proof.
  unfold CaptionVariant.sendMedia, LoopVariant.callSendMessage. split.
  - rewrite tryCatch_rethrow_actions.
    destruct (Driver.existsSync fs p); simpl;
      [|split; [intros H; contradiction H; reflexivity
               |intros (H & _); discriminate]].
    destruct (Driver.lookup fs p) as [mimeType|]; simpl;
      [|split; [intros H; contradiction H; reflexivity
               |intros (_ & (mt & H) & _); discriminate]].
    destruct (Driver.statSize fs p) as [size|e]; simpl;
      [|split; [intros H; contradiction H; reflexivity
               |intros (_ & _ & (sz & H & _) & _); discriminate]].
    destruct (Nat.ltb CaptionVariant.MAX_SIZE size) eqn:El; simpl.
    { split; [intros H; contradiction H; reflexivity|].
      intros (_ & _ & (sz & [= <-] & Hle) & _).
      apply Nat.ltb_lt in El. lia. }
    apply Nat.ltb_ge in El.
    destruct (Driver.readBase64 fs p) as [data|e]; simpl;
      [|split; [intros H; contradiction H; reflexivity
               |intros (_ & _ & _ & (d & H)); discriminate]].
    split; [intros _|discriminate]. eauto 10.
  - intros e.
    destruct (if negb (Driver.existsSync fs p) then _ else _)
      as [[u|e'] l]; simpl; [discriminate|].
    intros [= <-]. eauto.
Qed.

Lemma caption_media_sent_iff_witness :
  snd (CaptionVariant.sendMedia Sample.net
         (Driver.mkFiles (fun _ => true) (fun _ => Some "video/mp4")
            (fun _ => Js.Ok "AAAA")
            (fun _ => Js.Ok CaptionVariant.MAX_SIZE) (fun p => p))
         (Some "hi") "201@c.us" "clip.mp4") <> [].
Proof.
  apply (proj1 (caption_media_sent_iff Sample.net _ (Some "hi") "201@c.us"
                  "clip.mp4")).
  split; [reflexivity|]. split; [exists "video/mp4"; reflexivity|].
  split; [exists CaptionVariant.MAX_SIZE; split;
          [reflexivity|apply le_n]|].
  exists "AAAA". reflexivity.
Defined.



(** ** The queue variant, continued *)

Section QueueMore.

Import Js Driver QueueVariant Reading.

Variable fs : files.
Variable throws : nat -> bool.

Lemma begunBelow_top tr p : forallb (begunBelow p) tr = true -> top tr <= p.
Proof.
  induction tr as [|a tr IH]; [simpl; lia|].
  destruct a; cbn [top forallb begunBelow andb]; auto.
  intros H. apply andb_true_iff in H as [H1 H2].
  apply Nat.ltb_lt in H1. apply Nat.max_lub; [lia|auto].
Qed.

Lemma fifo_older a tr : fifo (a :: tr) = true -> fifo tr = true.
Proof.
  destruct a; simpl; auto.
  intros H. apply andb_true_iff in H as [_ H]. exact H.
Qed.

(** Settlements follow the order in which the tasks were begun. *)
Lemma settledBelow_fifo tr : fifo tr = true -> settledBelow tr.
Proof.
  unfold settledBelow, descending.
  induction tr as [|a tr IH]; intros Hf.
  - simpl. split; constructor.
  - specialize (IH (fifo_older a tr Hf)).
    cbn [inFlight]. destruct (inFlight tr) as [[[p n]|]|]; [| |exact I].
    + destruct IH as (Hs & Hp & Hb).
      destruct a as [c|c co o|q m|q m|q m e]; cbn [track];
        try exact I;
        try (destruct (String.eqb c (Normalize.chatIdOf n)); [|exact I];
             cbn [settledIds top]; auto);
        (destruct (Nat.eqb q p && String.eqb m n) eqn:E; [|exact I];
         apply andb_true_iff in E as [E _]; apply Nat.eqb_eq in E; subst q;
         cbn [settledIds top]; split;
         [constructor; [exact Hs|exact Hb]
         |constructor; [lia|];
          eapply Forall_impl; [|exact Hb]; simpl; intros; lia]).
    + destruct IH as (Hs & Hb).
      destruct a as [c|c co o|q m|q m|q m e]; cbn [track]; try exact I.
      cbn [settledIds]. split; [exact Hs|].
      cbn [fifo] in Hf. apply andb_true_iff in Hf as [Hf _].
      apply begunBelow_top in Hf.
      split; [cbn [top]; lia|].
      eapply Forall_impl; [|exact Hb]. simpl. intros; lia.
Qed.

Lemma descending_NoDup l : descending l -> NoDup l.
Proof.
  unfold descending. induction 1 as [|a l Hs IH Hf]; constructor; auto.
  intros Hin. rewrite Forall_forall in Hf. specialize (Hf a Hin). lia.
Qed.

(** What every state reached from [boot] satisfies. *)
Lemma inv_reached es : inv (run fs throws es (boot throws)).
Proof. apply inv_run, inv_boot. Qed.

Lemma inv_trace s :
  inv s ->
  exists cur, inFlight (trace s) = Some cur /\ fifo (trace s) = true.
Proof.
  unfold inv.
  destruct (drains s) as [|d [|d' l]]; [| |tauto];
    intros (_ & Hi & Hf & _); eauto.
Qed.

Lemma startTask_some t s : exists d, snd (startTask t s) = Some d.
Proof.
  unfold startTask. cbv zeta.
  destruct (Session.client _); simpl; eauto.
Qed.

Lemma sendMedia_some t p rest s :
  exists d, snd (sendMedia fs t p rest s) = Some d.
Proof.
  destruct (sendMedia_cases fs t p rest s) as [(e & ->)|(c & o & ->)];
    simpl; eauto.
Qed.

Lemma resume_none d r s :
  snd (resume fs d r s) = None ->
  d = AwaitPacing /\ messageQueue s = []
  /\ messageQueue (fst (resume fs d r s)) = [].
Proof.
  destruct d as [t|t c o rest|]; simpl.
  - destruct r as [[|]|e]; try discriminate.
    unfold afterRegistered.
    destruct (nonEmpty (mediaPaths t)) as [[p rest]|].
    + destruct (sendMedia_some t p rest s) as [d ->]. discriminate.
    + destruct (truthy (message t)); [|discriminate].
      unfold sendText. destruct (Session.client _); discriminate.
  - destruct r as [x|e]; [|discriminate].
    destruct rest as [|p rest]; [discriminate|].
    destruct (sendMedia_some t p rest s) as [d ->]. discriminate.
  - unfold loopHead. destruct (messageQueue s) as [|t q] eqn:E.
    + simpl. auto.
    + destruct (startTask_some t s) as [d ->]. discriminate.
Qed.

(** An in-flight task that ends in this segment takes the head of the
    queue with it. *)
Lemma resume_settles d r s p n :
  inFlightOf d = Some (p, n) ->
  snd (resume fs d r s) = Some AwaitPacing ->
  messageQueue (fst (resume fs d r s)) = tl (messageQueue s).
Proof.
  destruct d as [t|t c o rest|]; simpl; [| |discriminate]; intros _.
  - destruct r as [[|]|e]; try reflexivity.
    unfold afterRegistered.
    destruct (nonEmpty (mediaPaths t)) as [[mp rest]|].
    + destruct (sendMedia_cases fs t mp rest s) as [(e & ->)|(c & o & ->)];
        [reflexivity|discriminate].
    + destruct (truthy (message t)); [|reflexivity].
      unfold sendText. destruct (Session.client _);
        [discriminate|reflexivity].
  - destruct r as [x|e]; [|reflexivity].
    destruct rest as [|mp rest]; [reflexivity|].
    destruct (sendMedia_cases fs t mp rest s) as [(e & ->)|(c' & o' & ->)];
      [reflexivity|discriminate].
Qed.

Lemma leaves_resume_inflight p d r s q n :
  inFlightOf d = Some (q, n) -> q <> p -> leaves p s (resume fs d r s).
Proof.
  intros Hd Hq. destruct d as [t|t c o rest|]; simpl in *;
    [| |discriminate]; injection Hd as <- <-.
  - destruct r as [[|]|e];
      [apply leaves_afterRegistered|apply leaves_fail|apply leaves_fail];
      exact Hq.
  - destruct r as [x|e]; [|apply leaves_fail, Hq].
    destruct rest; [apply leaves_succeed|apply leaves_sendMedia]; exact Hq.
Qed.

Lemma tidy_processMessageQueue s : inv s -> tidy (processMessageQueue s).
Proof.
  unfold tidy, processMessageQueue. intros H.
  destruct (isProcessingQueue s) eqn:Ep; simpl.
  - intros Hd. unfold inv in H. rewrite Hd in H. destruct H. congruence.
  - destruct (messageQueue s) as [|t q] eqn:Eq; [auto|].
    unfold loopHead. cbn [setProcessing messageQueue]. rewrite Eq.
    destruct (startTask_some t (setProcessing true s)) as [d Hd].
    destruct (startTask t (setProcessing true s)) as [s' d'].
    simpl in Hd. subst d'. simpl. intros Hn.
    destruct (drains s'); discriminate.
Qed.

Lemma tidy_frame s s' :
  drains s' = drains s ->
  (messageQueue s' = messageQueue s \/ messageQueue s' = []) ->
  tidy s -> tidy s'.
Proof. unfold tidy. intros -> [-> | ->]; auto. Qed.

Lemma tidy_finishTeardown k destroyed s :
  tidy s -> tidy (finishTeardown throws k destroyed s).
Proof. apply tidy_frame; destruct k; simpl; auto. Qed.

Lemma tidy_resumeTeardown k s : tidy s -> tidy (resumeTeardown throws k s).
Proof. apply tidy_frame; destruct k; simpl; auto. Qed.

Lemma tidy_step s e :
  (forall b error isReady, e <> EvSendBulkThrown b error isReady) ->
  inv s -> tidy s -> tidy (step fs throws s e).
Proof.
  intros Hne Hi Ht. destruct e; cbn [step];
    try (revert Ht; apply tidy_frame; simpl; auto; fail).
  - apply tidy_processMessageQueue. revert Hi.
    apply inv_frame; try reflexivity. intros cur. apply core_ext; reflexivity.
  - unfold beginTeardown. cbv zeta. destruct (Session.client _);
      [revert Ht; apply tidy_frame; simpl; auto|].
    apply tidy_finishTeardown. exact Ht.
  - unfold beginTeardown. cbv zeta. destruct (Session.client _);
      [revert Ht; apply tidy_frame; simpl; auto|].
    apply tidy_finishTeardown. exact Ht.
  - unfold beginTeardown. cbv zeta. destruct (Session.client _);
      [revert Ht; apply tidy_frame; simpl; auto|].
    apply tidy_finishTeardown. exact Ht.
  - destruct (nth_error (teardowns s) i); [|exact Ht].
    apply tidy_finishTeardown. exact Ht.
  - unfold sendBulkMessages.
    destruct (negb _); [exact Ht|].
    destruct (numbers b) as [[|n ns]|]; [exact Ht| |exact Ht].
    cbv zeta. cbn [fst]. apply tidy_processMessageQueue.
    revert Hi. apply inv_frame; try reflexivity.
    intros cur. apply core_enqueue.
  - destruct (nth_error (drains s) i) as [d|] eqn:E; [|exact Ht].
    pose proof (keeps_resume fs d r s) as [Hd _].
    pose proof (resume_none d r s) as Hn.
    destruct (resume fs d r s) as [s' [d2|]]; simpl in *.
    + unfold tidy. simpl. rewrite Hd. intros Hnil.
      unfold inv in Hi.
      destruct (drains s) as [|d0 [|d1 l]]; [destruct i; discriminate| |tauto].
      destruct i as [|[|i]]; simpl in Hnil; discriminate.
    + unfold tidy. simpl. intros _. apply Hn. reflexivity.
  - destruct (nth_error (teardowns s) i); [|exact Ht].
    revert Ht. apply tidy_frame; simpl; auto.
  - destruct (nth_error (resuming s) i); [|exact Ht].
    apply tidy_resumeTeardown. exact Ht.
  - contradiction (Hne b error isReady). reflexivity.
Qed.

Lemma tidy_run es : forall s,
  noneThrown es -> inv s -> tidy s -> tidy (run fs throws es s).
Proof.
  induction es as [|e es IH]; intros s Hn Hi Ht; [exact Ht|].
  simpl. apply IH.
  - intros b error r Hin. apply (Hn b error r). right. exact Hin.
  - apply inv_step, Hi.
  - apply tidy_step; try assumption.
    intros b error r ->. apply (Hn b error r). left. reflexivity.
Qed.

Lemma tidy_reached es :
  noneThrown es -> tidy (run fs throws es (boot throws)).
Proof.
  intros Hn. apply tidy_run; [exact Hn|apply inv_boot|].
  intros _. reflexivity.
Qed.

Lemma run_app es1 es2 s :
  run fs throws (es1 ++ es2) s = run fs throws es2 (run fs throws es1 s).
Proof. unfold run. apply fold_left_app. Qed.

(** A drain is a run of [EvDrain] events. *)
Lemma drainAll_run net k : forall s,
  exists es, drainAll fs throws net k s = run fs throws es s.
Proof.
  induction k as [|k IH]; intros s; [exists []; reflexivity|].
  cbn [drainAll]. destruct (drains s) as [|d l]; [exists []; reflexivity|].
  destruct (IH (step fs throws s (EvDrain 0 (replyFor net d)))) as [es H].
  exists (EvDrain 0 (replyFor net d) :: es). rewrite H. reflexivity.
Qed.

Lemma normalized_permitted es : forall s,
  permittedRun fs throws
    (fun t => Normalize.allDigits (number t) = true
              /\ Normalize.startsWith "20" (number t) = true)
    (fun _ => True) es s.
Proof.
  induction es as [|e es IH]; intros s; [exact I|].
  split; [|apply IH].
  destruct e; simpl; auto.
  - intros n p. split;
      [apply formatNumber_allDigits|apply formatNumber_startsWith].
  - destruct r as [[|]|]; auto.
    destruct (nth_error (drains s) i) as [[t| |]|]; auto.
  - intros n p. split;
      [apply formatNumber_allDigits|apply formatNumber_startsWith].
Qed.

End QueueMore.

Section LoopChats.

Import Js Driver Reading.

Variable net : oracle.
Variable fs : files.

Lemma loop_sendOne_chats b number a :
  In a (snd (LoopVariant.sendOne net fs b number)) ->
  chatOf a = Some (Normalize.chatIdOf (Normalize.formatNumber number)).
Proof.
  unfold LoopVariant.sendOne. intros H.
  apply bind_actions in H as [H|(isReg & E & H)].
  - destruct H as [<-|[]]. reflexivity.
  - destruct isReg; simpl in H; [|tauto].
    apply bind_actions in H as [H|(_ & _ & H)].
    + destruct (truthy (message b)); simpl in H; [|tauto].
      destruct H as [<-|[]]. reflexivity.
    + apply bind_actions in H as [H|(_ & _ & H)]; [|simpl in H; tauto].
      destruct (nonEmpty (mediaPaths b)) as [[p rest]|]; [|simpl in H; tauto].
      apply (forOf_actions _ (p :: rest)) in H as (x & _ & H).
      apply loop_sendMedia_actions in H as (mt & d & ->). reflexivity.
Qed.

End LoopChats.

Section QueueMoreFacts.

Import Js Driver QueueVariant Reading.

Lemma settles_settledIds p a tr :
  In a tr -> settles p a = true -> In p (settledIds tr).
Proof.
  induction tr as [|x tr IH]; simpl; [tauto|].
  intros [E|Hin] Hs.
  - subst x. destruct a; simpl in Hs; try discriminate;
      apply Nat.eqb_eq in Hs; subst; left; reflexivity.
  - destruct x; simpl; auto.
Qed.

Lemma begun_in_top p n tr : In (Begin p n) tr -> p < top tr.
Proof.
  induction tr as [|a tr IH]; [intros []|].
  intros [->|Hx]; [cbn [top]; lia|].
  specialize (IH Hx). destruct a; cbn [top]; auto. lia.
Qed.

End QueueMoreFacts.

(** ** The queue variant: the report of a batch *)

Section ReportMore.

Import Js Driver QueueVariant Reading.

Variable fs : files.
Variable throws : nat -> bool.
Variable net : oracle.

(** [messageResults.forEach]: one entry per promise, taken from the
    settlement of that promise. *)
Lemma collect_outcomes ps h : forall success failed success' failed',
  collect ps h success failed = Some (Results success' failed') ->
  exists outcomes,
    Forall2 (fun p a => settlement p h = Some a) ps outcomes
    /\ success' = success ++ resolvedOf outcomes
    /\ failed' = failed ++ rejectedOf outcomes
    /\ length (resolvedOf outcomes) + length (rejectedOf outcomes)
       = length ps.
Proof.
  induction ps as [|p ps IH]; intros success failed success' failed';
    cbn [collect].
  - intros [= <- <-]. exists []. simpl. rewrite !app_nil_r.
    repeat split; constructor.
  - destruct (settlement p h) as [[| | |q n|q n e]|] eqn:E; try discriminate;
      intros H; apply IH in H as (outcomes & HF & -> & -> & Hl).
    + exists (Resolve q n :: outcomes). cbn [resolvedOf rejectedOf length].
      rewrite <- app_assoc. repeat split; auto. lia.
    + exists (Reject q n e :: outcomes). cbn [resolvedOf rejectedOf length].
      rewrite <- app_assoc. repeat split; auto. lia.
Qed.

(** A batch with a promise that is not settled has no report. *)
Lemma collect_unsettled p h ps : forall success failed,
  In p ps -> settlement p h = None -> collect ps h success failed = None.
Proof.
  clear fs throws net.
  induction ps as [|q ps IH]; intros success failed; cbn [collect In];
    [tauto|].
  intros [->|Hin] Hn.
  - destruct (settlement p h); [discriminate|reflexivity].
  - destruct (settlement q h) as [[| | |x n|x n e]|]; auto.
Qed.

Lemma inv_settled_once s : inv s -> NoDup (settledIds (trace s)).
Proof.
  intros Hi. destruct (inv_trace s Hi) as (cur & Hc & Hf).
  pose proof (settledBelow_fifo _ Hf) as H.
  unfold settledBelow in H. rewrite Hc in H.
  apply descending_NoDup, H.
Qed.

Lemma settle_unique p a a' tr :
  NoDup (settledIds tr) -> In a tr -> In a' tr ->
  settles p a = true -> settles p a' = true -> a = a'.
Proof.
  induction tr as [|x tr IH]; simpl; [tauto|].
  intros Hn [E|Ha] [E'|Ha'] Hs Hs'.
  - congruence.
  - subst x. pose proof (settles_settledIds p a' tr Ha' Hs') as Hin.
    destruct a; simpl in Hs; try discriminate;
      apply Nat.eqb_eq in Hs; subst; simpl in Hn;
      inversion Hn; contradiction.
  - subst x. pose proof (settles_settledIds p a tr Ha Hs) as Hin.
    destruct a'; simpl in Hs'; try discriminate;
      apply Nat.eqb_eq in Hs'; subst; simpl in Hn;
      inversion Hn; contradiction.
  - apply IH; auto. destruct x; simpl in Hn; auto; inversion Hn; auto.
Qed.

(** In a state that events have led to, a promise settled by [a] has [a]
    as its settlement. *)
Lemma settlement_of t a s :
  inv s -> In a (trace s) -> outcomeOf t a ->
  settlement (promise t) (history s) = Some a.
Proof.
  intros Hi Ha Ho. pose proof (outcomeOf_settles t a Ho) as Hs.
  unfold settlement, history.
  destruct (find (settles (promise t)) (rev (trace s))) as [a'|] eqn:E.
  - apply find_some in E as [Hin Hs']. apply in_rev in Hin.
    f_equal. symmetry.
    apply (settle_unique (promise t) a a' (trace s)); auto.
    apply inv_settled_once, Hi.
  - apply in_rev in Ha. rewrite (find_none _ _ E a Ha) in Hs. discriminate.
Qed.

Lemma reportOf_length ns : forall vs,
  length vs = length ns ->
  length (fst (reportOf ns vs)) + length (snd (reportOf ns vs)) = length ns.
Proof.
  induction ns as [|n ns IH]; intros [|v vs]; simpl; try discriminate; auto.
  intros [= H]. specialize (IH vs H).
  destruct (reportOf ns vs) as [success failed].
  destruct v; simpl in *; lia.
Qed.

(** The report of a batch all of whose promises the loop has settled: every
    number of the request has one entry, in the order of the request. *)
Lemma collect_reportOf b h ns : forall p success failed,
  (forall t, In t (makeTasks b ns p) ->
     exists a, settlement (promise t) h = Some a /\ outcomeOf t a) ->
  exists verdicts,
    length verdicts = length ns
    /\ collect (map promise (makeTasks b ns p)) h success failed
       = Some (Results (success ++ fst (reportOf ns verdicts))
                       (failed ++ snd (reportOf ns verdicts))).
Proof.
  induction ns as [|n ns IH]; intros p success failed H.
  - exists []. simpl. rewrite !app_nil_r. auto.
  - cbn [makeTasks map collect promise].
    destruct (H (mkTask (Normalize.formatNumber n) (Js.message b)
                   (Js.mediaPaths b) p)) as (a & Hs & Ho);
      [left; reflexivity|].
    cbn [promise] in Hs. rewrite Hs.
    destruct Ho as [->|(e & ->)]; cbn [promise number].
    + destruct (IH (S p) (success ++ [Normalize.formatNumber n]) failed)
        as (vs & Hl & Hc); [intros t Ht; apply H; right; exact Ht|].
      exists (None :: vs). cbn [length reportOf]. rewrite Hl, Hc.
      destruct (reportOf ns vs) as [sx fx]. cbn [fst snd].
      rewrite <- app_assoc. auto.
    + destruct (IH (S p) success
                  (failed ++ [(Normalize.formatNumber n, e)]))
        as (vs & Hl & Hc); [intros t Ht; apply H; right; exact Ht|].
      exists (Some e :: vs). cbn [length reportOf]. rewrite Hl, Hc.
      destruct (reportOf ns vs) as [sx fx]. cbn [fst snd].
      rewrite <- app_assoc. auto.
Qed.

(** A request accepted in a state that events have led to, in which no
    loop runs or the loop works on the head of the queue: left alone, the
    loop settles the batch, and the report is built. *)
Lemma sendBulk_reported b n ns s :
  inv s -> regular s ->
  present (Session.client (sess s)) = true ->
  numbers b = Some (n :: ns) ->
  exists fuel verdicts,
    length verdicts = length (n :: ns)
    /\ report (map promise (makeTasks b (n :: ns) (nextPromise s)))
         (drainAll fs throws net fuel (fst (sendBulkMessages b true s)))
       = Some (Results (fst (reportOf (n :: ns) verdicts))
                       (snd (reportOf (n :: ns) verdicts))).
Proof.
  intros Hi Hreg Hc Hn.
  destruct (sendBulk_drained fs throws net b n ns s Hreg Hc Hn)
    as [_ (fuel & s1 & Hk & _ & _ & _ & Hall & _)].
  assert (Hi1 : inv s1).
  { destruct (drainAll_run fs throws net fuel
                (fst (sendBulkMessages b true s))) as [es' He].
    rewrite <- Hk, He. apply inv_run, inv_sendBulkMessages, Hi. }
  destruct (collect_reportOf b (history s1) (n :: ns) (nextPromise s) [] [])
    as (vs & Hl & Hr).
  { intros t Ht. destruct (Hall t) as (a & Ha & Ho);
      [apply in_or_app; right; exact Ht|].
    exists a. split; [apply settlement_of; assumption|exact Ho]. }
  exists fuel, vs. split; [exact Hl|].
  unfold report. rewrite Hk. exact Hr.
Qed.

(** What the handler of an accepted request awaits and creates. *)
Lemma sendBulk_accepted b isReady s promises :
  snd (sendBulkMessages b isReady s) = AwaitAll promises ->
  exists n ns,
    numbers b = Some (n :: ns)
    /\ promises = seq (nextPromise s) (length (n :: ns))
    /\ created fs throws s (EvSendBulk b isReady)
       = combine (seq (nextPromise s) (length (n :: ns)))
           (map (fun x => (b, x)) (n :: ns)).
Proof.
  cbn [created step]. unfold sendBulkMessages.
  destruct (negb _); [discriminate|].
  destruct (numbers b) as [[|n ns]|]; try discriminate.
  cbv zeta. cbn [snd fst]. intros [= <-]. exists n, ns.
  split; [reflexivity|].
  split; [apply (makeTasks_promises b (n :: ns))|].
  rewrite nextPromise_processMessageQueue.
  cbn [nextPromise setNextPromise]. rewrite makeTasks_length.
  replace (nextPromise s + length (n :: ns) - nextPromise s)
    with (length (n :: ns)) by lia.
  reflexivity.
Qed.

(** Settlements that name the numbers the promises were created for make
    up a report with one entry per number, in the order of the numbers. *)
Lemma outcomes_reportOf O b : forall ns p outcomes,
  NoDup (map fst O) ->
  (forall y,
     In y (combine (seq p (length ns)) (map (fun x => (b, x)) ns)) ->
     In y O) ->
  Forall2 (fun q a =>
             exists n, numbered O q n
                       /\ (a = Resolve q n \/ exists e, a = Reject q n e))
    (seq p (length ns)) outcomes ->
  exists verdicts,
    length verdicts = length ns
    /\ resolvedOf outcomes = fst (reportOf ns verdicts)
    /\ rejectedOf outcomes = snd (reportOf ns verdicts).
Proof.
  induction ns as [|x ns IH]; intros p outcomes Hn Hsub HF.
  - inversion HF; subst. exists []. auto.
  - cbn [length seq] in HF. inversion HF as [|q a qs outs Ha HF' E1 E2]; subst.
    destruct (IH (S p) outs Hn) as (vs & Hl & Hs & Hf); [|exact HF'|].
    { intros y Hy. apply Hsub. right. exact Hy. }
    destruct Ha as (n & (b' & x' & Hin & ->) & Ha).
    assert (E : (b', x') = (b, x)).
    { eapply NoDup_fst_unique; [exact Hn|exact Hin|].
      apply Hsub. left. reflexivity. }
    injection E as -> ->.
    destruct Ha as [->|(e & ->)].
    + exists (None :: vs). cbn [length reportOf resolvedOf rejectedOf].
      rewrite Hl, Hs, Hf. destruct (reportOf ns vs); auto.
    + exists (Some e :: vs). cbn [length reportOf resolvedOf rejectedOf].
      rewrite Hl, Hs, Hf. destruct (reportOf ns vs); auto.
Qed.

(** Whatever happens after a request has been accepted: a report that is
    built for it holds each of its numbers exactly once, in the order of
    the request. *)
Lemma report_of_batch es b isReady es' promises success failed :
  snd (sendBulkMessages b isReady (run fs throws es (boot throws)))
  = AwaitAll promises ->
  report promises
    (run fs throws (es ++ EvSendBulk b isReady :: es') (boot throws))
  = Some (Results success failed) ->
  exists ns verdicts,
    numbers b = Some ns
    /\ length promises = length ns
    /\ length verdicts = length ns
    /\ success = fst (reportOf ns verdicts)
    /\ failed = snd (reportOf ns verdicts).
Proof.
  intros Ha Hr.
  destruct (sendBulk_accepted b isReady _ promises Ha)
    as (n & ns & Hn & -> & Hc).
  pose proof (attributed_reached fs throws (es ++ EvSendBulk b isReady :: es'))
    as (_ & _ & Hacc & _ & Hnd).
  set (O := origins fs throws (es ++ EvSendBulk b isReady :: es')
              (boot throws)) in *.
  set (s2 := run fs throws (es ++ EvSendBulk b isReady :: es') (boot throws))
    in *.
  assert (Hsub : forall y,
            In y (combine
                    (seq (nextPromise (run fs throws es (boot throws)))
                       (length (n :: ns)))
                    (map (fun x => (b, x)) (n :: ns))) ->
            In y O).
  { intros y Hy. unfold O. rewrite origins_app. apply in_or_app. right.
    cbn [origins]. apply in_or_app. left. rewrite Hc. exact Hy. }
  unfold report in Hr.
  apply collect_outcomes in Hr as (outcomes & HF & -> & -> & _).
  destruct (outcomes_reportOf O b (n :: ns)
              (nextPromise (run fs throws es (boot throws))) outcomes Hnd Hsub)
    as (vs & Hl & Hs & Hf).
  { eapply Forall2_impl; [|exact HF]. intros q a Hq.
    unfold settlement, history in Hq. apply find_some in Hq as [Hin Hst].
    apply in_rev in Hin.
    eapply accounted_settled; [exact Hacc|exact Hin|exact Hst]. }
  exists (n :: ns), vs. rewrite length_seq. auto.
Qed.

End ReportMore.

(** C2, as the code has it. Loop variant: every accepted batch is answered
    with a report in which each recipient appears exactly once, in
    [success] when its processing threw nothing and in [failed] otherwise.
    Queue variant: a report that is built has one entry per promise, taken
    from the settlement of that promise; whatever events arrive, no promise
    is settled twice, and a report that is built for an accepted batch
    holds each recipient exactly once, in the order of the request; from a
    state that events have led to, none of them a request that threw, in
    which no loop runs or the one loop works on the head of the queue, a
    drain that is not disturbed settles every promise of the batch, and
    that report is built. A report is not always built: see
    [accepted_batch_without_report]. *)
Theorem every_recipient_reported_once (net : Driver.oracle)
    (fs : Driver.files) :
  (forall s b n ns,
     Js.present (Session.client s)
     && Session.isConnected (Session.connectionStatus s) = true ->
     Js.numbers b = Some (n :: ns) ->
     Js.truthy (Js.message b) || Js.present (Js.nonEmpty (Js.mediaPaths b))
     = true ->
     exists success failed,
       fst (LoopVariant.sendBulkMessages net fs s b)
       = Js.Results success failed
       /\ length success + length failed = length (n :: ns)
       /\ success
          = map Normalize.formatNumber
              (filter (Reading.delivered net fs b) (n :: ns))
       /\ failed
          = map (fun x => (x, Reading.reasonOf net fs b x))
              (filter (fun x => negb (Reading.delivered net fs b x))
                 (n :: ns)))
  /\ (forall s promises success failed,
        QueueVariant.report promises s = Some (Js.Results success failed) ->
        exists outcomes,
          Forall2 (fun p a =>
                     QueueVariant.settlement p (QueueVariant.history s)
                     = Some a) promises outcomes
          /\ success = Reading.resolvedOf outcomes
          /\ failed = Reading.rejectedOf outcomes
          /\ length success + length failed = length promises)
  /\ (forall throws es,
        NoDup (Reading.settledIds
                 (QueueVariant.trace
                    (QueueVariant.run fs throws es
                       (QueueVariant.boot throws)))))
  /\ (forall throws es b isReady es' promises success failed,
        snd (QueueVariant.sendBulkMessages b isReady
               (QueueVariant.run fs throws es (QueueVariant.boot throws)))
        = QueueVariant.AwaitAll promises ->
        QueueVariant.report promises
          (QueueVariant.run fs throws
             (es ++ QueueVariant.EvSendBulk b isReady :: es')
             (QueueVariant.boot throws))
        = Some (Js.Results success failed) ->
        exists ns verdicts,
          Js.numbers b = Some ns
          /\ length promises = length ns
          /\ length verdicts = length ns
          /\ success = fst (Reading.reportOf ns verdicts)
          /\ failed = snd (Reading.reportOf ns verdicts)
          /\ length success + length failed = length ns)
  /\ (forall throws es b n ns,
        let s := QueueVariant.run fs throws es (QueueVariant.boot throws) in
        Reading.noneThrown es ->
        QueueVariant.regular s ->
        Js.present (Session.client (QueueVariant.sess s)) = true ->
        Js.numbers b = Some (n :: ns) ->
        exists promises fuel verdicts,
          snd (QueueVariant.sendBulkMessages b true s)
          = QueueVariant.AwaitAll promises
          /\ length promises = length (n :: ns)
          /\ length verdicts = length (n :: ns)
          /\ QueueVariant.report promises
               (QueueVariant.drainAll fs throws net fuel
                  (fst (QueueVariant.sendBulkMessages b true s)))
             = Some (Js.Results
                       (fst (Reading.reportOf (n :: ns) verdicts))
                       (snd (Reading.reportOf (n :: ns) verdicts)))
          /\ length (fst (Reading.reportOf (n :: ns) verdicts))
             + length (snd (Reading.reportOf (n :: ns) verdicts))
             = length (n :: ns)).
Proof.
  split; [|split; [|split; [|split]]].
  - intros s b n ns Hc Hn Hm. unfold LoopVariant.sendBulkMessages.
    rewrite Hc, Hn. cbn [negb].
    apply orb_true_iff in Hm.
    assert (E : negb (Js.truthy (Js.message b))
                && negb (Js.present (Js.nonEmpty (Js.mediaPaths b))) = false).
    { destruct Hm as [-> | ->]; [reflexivity|apply andb_false_r]. }
    rewrite E, loop_sendAll_map, !app_nil_l. cbn [fst].
    eexists. eexists. split; [reflexivity|]. split; [|split; reflexivity].
    rewrite !length_map.
    clear. induction (n :: ns) as [|x l IH]; [reflexivity|].
    cbn [filter length]. destruct (Reading.delivered net fs b x);
      cbn [negb length]; lia.
  - intros s promises success failed H.
    apply collect_outcomes in H as (outcomes & HF & -> & -> & Hl).
    exists outcomes. auto.
  - intros throws es. apply inv_settled_once, inv_reached.
  - intros throws es b isReady es' promises success failed Ha Hr.
    destruct (report_of_batch fs throws es b isReady es' promises success
                failed Ha Hr) as (ns & vs & Hn & Hp & Hl & -> & ->).
    exists ns, vs. repeat split; auto. apply reportOf_length, Hl.
  - intros throws es b n ns s _ Hreg Hc Hn.
    destruct (sendBulk_reported fs throws net b n ns s
                (inv_reached fs throws es) Hreg Hc Hn)
      as (fuel & vs & Hl & Hr).
    exists (map QueueVariant.promise
              (QueueVariant.makeTasks b (n :: ns)
                 (QueueVariant.nextPromise s))), fuel, vs.
    split.
    { destruct (sendBulk_drained fs throws net b n ns s Hreg Hc Hn)
        as [Ho _]. exact Ho. }
    split; [rewrite length_map; apply makeTasks_length|].
    split; [exact Hl|]. split; [exact Hr|].
    apply reportOf_length, Hl.
Qed.

Lemma every_recipient_reported_once_witness :
  (exists success failed,
     fst (LoopVariant.sendBulkMessages Sample.net Sample.fs Sample.ready
            Sample.twoNumbers) = Js.Results success failed
     /\ length success + length failed = 2
     /\ success
        = map Normalize.formatNumber
            (filter (Reading.delivered Sample.net Sample.fs Sample.twoNumbers)
               ["0100000001"; "100000002"])
     /\ failed
        = map (fun x =>
                 (x, Reading.reasonOf Sample.net Sample.fs
                       Sample.twoNumbers x))
            (filter (fun x =>
                       negb (Reading.delivered Sample.net Sample.fs
                               Sample.twoNumbers x))
               ["0100000001"; "100000002"]))
  /\ (exists outcomes,
        Forall2 (fun p a =>
                   QueueVariant.settlement p
                     (QueueVariant.history Sample.reported) = Some a)
          [0; 1] outcomes
        /\ ["200100000001"] = Reading.resolvedOf outcomes
        /\ [("20100000002", Js.ERR_NOT_REGISTERED)]
           = Reading.rejectedOf outcomes
        /\ length ["200100000001"]
           + length [("20100000002", Js.ERR_NOT_REGISTERED)]
           = length [0; 1])
  /\ (exists ns verdicts,
        Js.numbers Sample.twoNumbers = Some ns
        /\ length [0; 1] = length ns
        /\ length verdicts = length ns
        /\ ["200100000001"] = fst (Reading.reportOf ns verdicts)
        /\ [("20100000002", Js.ERR_NOT_REGISTERED)]
           = snd (Reading.reportOf ns verdicts)
        /\ length ["200100000001"]
           + length [("20100000002", Js.ERR_NOT_REGISTERED)]
           = length ns)
  /\ (exists promises fuel verdicts,
        snd (QueueVariant.sendBulkMessages Sample.twoNumbers true
               (QueueVariant.run Sample.fs Sample.noThrow
                  [QueueVariant.EvReady]
                  (QueueVariant.boot Sample.noThrow)))
        = QueueVariant.AwaitAll promises
        /\ length promises = 2
        /\ length verdicts = 2
        /\ QueueVariant.report promises
             (QueueVariant.drainAll Sample.fs Sample.noThrow Sample.net fuel
                (fst (QueueVariant.sendBulkMessages Sample.twoNumbers true
                        (QueueVariant.run Sample.fs Sample.noThrow
                           [QueueVariant.EvReady]
                           (QueueVariant.boot Sample.noThrow)))))
           = Some (Js.Results
                     (fst (Reading.reportOf ["0100000001"; "100000002"]
                             verdicts))
                     (snd (Reading.reportOf ["0100000001"; "100000002"]
                             verdicts)))
        /\ length (fst (Reading.reportOf ["0100000001"; "100000002"]
                          verdicts))
           + length (snd (Reading.reportOf ["0100000001"; "100000002"]
                            verdicts))
           = 2).
Proof.
  split; [|split; [|split]].
  - apply (proj1 (every_recipient_reported_once Sample.net Sample.fs)
             Sample.ready Sample.twoNumbers "0100000001" ["100000002"]);
      reflexivity.
  - apply (proj1 (proj2 (every_recipient_reported_once Sample.net Sample.fs))
             Sample.reported).
    reflexivity.
  - apply (proj1 (proj2 (proj2 (proj2
             (every_recipient_reported_once Sample.net Sample.fs))))
             Sample.noThrow [QueueVariant.EvReady] Sample.twoNumbers true
             [QueueVariant.EvDrain 0 (Js.Ok true);
              QueueVariant.EvDrain 0 (Js.Ok true);
              QueueVariant.EvDrain 0 (Js.Ok true);
              QueueVariant.EvDrain 0 (Js.Ok false)]
             [0; 1]);
      vm_compute; reflexivity.
  - apply (proj2 (proj2 (proj2 (proj2
             (every_recipient_reported_once Sample.net Sample.fs))))
             Sample.noThrow [QueueVariant.EvReady] Sample.twoNumbers
             "0100000001" ["100000002"]);
      try reflexivity.
    intros b error isReady [H|[]]. discriminate.
Defined.

(** C2 fails as stated: the queue variant accepts a batch of three, and
    when the driver emits ['disconnected'] while the first task is in
    flight, no later events, whatever they are, bring about a report: the
    promises of the second and the third recipient are never settled. *)
Lemma accepted_batch_without_report :
  snd (QueueVariant.sendBulkMessages Sample.threeNumbers true Sample.idle)
  = QueueVariant.AwaitAll [0; 1; 2]
  /\ forall es,
       let s :=
         QueueVariant.run Sample.fs Sample.noThrow
           (QueueVariant.EvSendBulk Sample.threeNumbers true
            :: QueueVariant.EvDisconnected
            :: QueueVariant.EvDestroySettled 0 true :: es) Sample.idle in
       QueueVariant.settlement 1 (QueueVariant.history s) = None
       /\ QueueVariant.settlement 2 (QueueVariant.history s) = None
       /\ QueueVariant.report [0; 1; 2] s = None.
Proof.
  split; [reflexivity|]. intros es s.
  pose (s0 := QueueVariant.run Sample.fs Sample.noThrow
                [QueueVariant.EvSendBulk Sample.threeNumbers true;
                 QueueVariant.EvDisconnected;
                 QueueVariant.EvDestroySettled 0 true] Sample.idle).
  assert (Es : s = QueueVariant.run Sample.fs Sample.noThrow es s0).
  { unfold s, s0.
    change (QueueVariant.EvSendBulk Sample.threeNumbers true
            :: QueueVariant.EvDisconnected
            :: QueueVariant.EvDestroySettled 0 true :: es)
      with ([QueueVariant.EvSendBulk Sample.threeNumbers true;
             QueueVariant.EvDisconnected;
             QueueVariant.EvDestroySettled 0 true] ++ es).
    apply run_app. }
  assert (En : QueueVariant.nextPromise s0 = 3) by (vm_compute; reflexivity).
  assert (Eq : QueueVariant.messageQueue s0 = [])
    by (vm_compute; reflexivity).
  assert (Ed : QueueVariant.drains s0
               = [QueueVariant.AwaitIsRegistered
                    (QueueVariant.mkTask "201" (Some "hi") (Some []) 0)])
    by (vm_compute; reflexivity).
  assert (Et : QueueVariant.trace s0
               = [Driver.IsRegisteredUser "201@c.us"; Driver.Begin 0 "201"])
    by (vm_compute; reflexivity).
  assert (H : forall p, p = 1 \/ p = 2 ->
            QueueVariant.settlement p (QueueVariant.history s) = None).
  { intros p Hp. apply settlement_none. rewrite Es.
    apply (abandoned_run Sample.fs Sample.noThrow p es).
    unfold QueueVariant.abandoned, QueueVariant.notInFlight.
    rewrite En, Eq, Ed, Et.
    destruct Hp as [-> | ->];
      (split; [lia|]); (split; [intros t []|]); (split; [reflexivity|]);
      intros a [<-|[<-|[]]]; reflexivity. }
  split; [apply H; auto|]. split; [apply H; auto|].
  apply (collect_unsettled 1); [simpl; auto|apply H; auto].
Qed.

(** X14: in the queue variant, whatever events arrive, [isProcessingQueue]
    is set exactly while a [processMessageQueue] loop exists. Tasks are in
    the queue without a loop to take them up only after a request in which
    [number.toString()] threw: when no such request has arrived, the queue
    is empty whenever [isProcessingQueue] is false. *)
Theorem queued_tasks_have_a_loop (fs : Driver.files) (throws : nat -> bool)
    (es : list QueueVariant.event) :
  let s := QueueVariant.run fs throws es (QueueVariant.boot throws) in
  (QueueVariant.isProcessingQueue s = true <-> QueueVariant.drains s <> [])
  /\ (Reading.noneThrown es ->
      QueueVariant.isProcessingQueue s = false ->
      QueueVariant.messageQueue s = []).
Proof.
  intros s.
  pose proof (inv_reached fs throws es) as Hi.
  pose proof (tidy_reached fs throws es) as Ht.
  fold s in Hi, Ht. unfold QueueVariant.inv in Hi. unfold Reading.tidy in Ht.
  destruct (QueueVariant.drains s) as [|d [|d' l]]; [| |tauto];
    destruct Hi as [Hp _]; rewrite Hp.
  - split; [split; [discriminate|intros H; contradiction H; reflexivity]|].
    auto.
  - split; [split; [discriminate|reflexivity]|discriminate].
Qed.

Lemma queued_tasks_have_a_loop_witness :
  QueueVariant.messageQueue
    (QueueVariant.run Sample.fs Sample.noThrow
       [QueueVariant.EvReady;
        QueueVariant.EvSendBulk Sample.nothingToSend true;
        QueueVariant.EvDrain 0 (Js.Ok true);
        QueueVariant.EvDrain 0 (Js.Ok true)]
       (QueueVariant.boot Sample.noThrow)) = [].
Proof.
  apply (proj2 (queued_tasks_have_a_loop Sample.fs Sample.noThrow
                  [QueueVariant.EvReady;
                   QueueVariant.EvSendBulk Sample.nothingToSend true;
                   QueueVariant.EvDrain 0 (Js.Ok true);
                   QueueVariant.EvDrain 0 (Js.Ok true)])).
  - intros b error isReady [H|[H|[H|[H|[]]]]]; discriminate.
  - reflexivity.
Defined.

(** X15: in the queue variant, whatever events arrive, no promise is
    settled twice, and promises are settled in the order in which they were
    created: each settlement is of a later promise than all before it. *)
Theorem promises_settled_once_in_order (fs : Driver.files)
    (throws : nat -> bool) (es : list QueueVariant.event) :
  let s := QueueVariant.run fs throws es (QueueVariant.boot throws) in
  Reading.descending (Reading.settledIds (QueueVariant.trace s))
  /\ NoDup (Reading.settledIds (QueueVariant.trace s)).
Proof.
  intros s.
  destruct (inv_trace s (inv_reached fs throws es)) as (cur & Hi & Hf).
  pose proof (settledBelow_fifo _ Hf) as H.
  unfold Reading.settledBelow in H. rewrite Hi in H. destruct H as [H _].
  split; [exact H|apply descending_NoDup, H].
Qed.

(** X16: when the loop ends a task that is not the head of the queue (the
    queue was emptied under it and has been filled again), its
    [messageQueue.shift()] removes the task at the head instead: that task
    is gone from the queue without having been taken up, and no later event
    settles its promise. *)
Theorem stale_shift_drops_head (fs : Driver.files) (throws : nat -> bool)
    (es0 : list QueueVariant.event) (d : QueueVariant.drain)
    (r : Js.result bool) (h : QueueVariant.task)
    (q : list QueueVariant.task) (es : list QueueVariant.event) :
  let s := QueueVariant.run fs throws es0 (QueueVariant.boot throws) in
  QueueVariant.drains s = [d] ->
  QueueVariant.messageQueue s = h :: q ->
  (exists p n,
     QueueVariant.inFlightOf d = Some (p, n)
     /\ p <> QueueVariant.promise h) ->
  snd (QueueVariant.resume fs d r s) = Some QueueVariant.AwaitPacing ->
  let s' := QueueVariant.step fs throws s (QueueVariant.EvDrain 0 r) in
  QueueVariant.messageQueue s' = q
  /\ ~ In (Driver.Begin (QueueVariant.promise h) (QueueVariant.number h))
          (QueueVariant.trace s')
  /\ QueueVariant.settlement (QueueVariant.promise h)
       (QueueVariant.history (QueueVariant.run fs throws es s')) = None.
Proof.
  intros s Ed Eq (p & n & Hd & Hne) Hr s'.
  pose proof (inv_reached fs throws es0) as Hi. fold s in Hi.
  unfold QueueVariant.inv in Hi. rewrite Ed, Hd in Hi.
  destruct Hi as (_ & Hin & Hf & Htop & Hb & Hasc & Hcur & Hfloor).
  rewrite Eq in Hb, Hasc, Hfloor.
  inversion Hb as [|? ? Hlt _]; subst.
  inversion Hfloor as [|? ? Hle _]; subst.
  inversion Hasc as [|? ? _ Hgt]; subst.
  pose proof (settledBelow_fifo _ Hf) as Hs.
  unfold Reading.settledBelow in Hs. rewrite Hin in Hs.
  destruct Hs as (_ & _ & Hbelow).
  assert (Hold : forall a, In a (QueueVariant.trace s) ->
                   QueueVariant.settles (QueueVariant.promise h) a = false).
  { intros a Ha.
    destruct (QueueVariant.settles (QueueVariant.promise h) a) eqn:E;
      [|reflexivity].
    pose proof (settles_settledIds _ _ _ Ha E) as Hx.
    rewrite Forall_forall in Hbelow. specialize (Hbelow _ Hx). lia. }
  assert (Hnb : ~ In (Driver.Begin (QueueVariant.promise h)
                        (QueueVariant.number h)) (QueueVariant.trace s)).
  { intros Hx. apply begun_in_top in Hx. lia. }
  pose proof (leaves_resume_inflight fs (QueueVariant.promise h) d r s p n
                Hd Hne) as (L1 & L2 & L3 & L4 & L5).
  pose proof (resume_settles fs d r s p n Hd Hr) as Hq.
  assert (Es' : s' = QueueVariant.setDrains [QueueVariant.AwaitPacing]
                       (fst (QueueVariant.resume fs d r s))).
  { unfold s'. rewrite (step_drain0 fs throws d r s Ed), Hr. reflexivity. }
  rewrite Eq in Hq. simpl in Hq.
  split; [rewrite Es'; exact Hq|]. split.
  - rewrite Es'. simpl. intros Hx. destruct (L4 _ Hx) as [Ho|Hn'].
    + exact (Hnb Ho).
    + clear - Hx Hd Hne Hnb Hr L4.
      destruct d as [t|t c o rest|]; simpl in Hd; [| |discriminate];
        injection Hd as <- <-;
        revert Hx; simpl.
      * destruct r as [[|]|e]; simpl; try (intros [[=]|Hx]; auto).
        unfold QueueVariant.afterRegistered.
        destruct (Js.nonEmpty _) as [[mp rest]|].
        -- destruct (sendMedia_cases fs t mp rest s)
             as [(e & ->)|(c & o & ->)]; simpl; intros [[=]|Hx]; auto.
        -- destruct (Js.truthy _); [|simpl; intros [[=]|Hx]; auto].
           unfold QueueVariant.sendText.
           destruct (Session.client _); simpl; intros [[=]|Hx]; auto.
      * destruct r as [x|e]; simpl; try (intros [[=]|Hx]; auto).
        destruct rest as [|mp rest]; simpl; try (intros [[=]|Hx]; auto).
        destruct (sendMedia_cases fs t mp rest s)
          as [(e & ->)|(c' & o' & ->)]; simpl; intros [[=]|Hx]; auto.
  - apply settlement_none.
    apply (abandoned_run fs throws (QueueVariant.promise h) es s').
    rewrite Es'. unfold QueueVariant.abandoned, QueueVariant.notInFlight.
    simpl. rewrite L1, Hq.
    split; [exact Hlt|]. split.
    + intros t Ht. rewrite Forall_forall in Hgt. specialize (Hgt t Ht). lia.
    + split; [reflexivity|].
      intros a Ha. destruct (L4 a Ha) as [Ho|Hn']; auto.
Qed.

Lemma stale_shift_drops_head_witness :
  let s' :=
    QueueVariant.step Sample.fs Sample.noThrow
      (QueueVariant.run Sample.fs Sample.noThrow
         [QueueVariant.EvReady;
          QueueVariant.EvSendBulk Sample.threeNumbers true;
          QueueVariant.EvDisconnected;
          QueueVariant.EvDestroySettled 0 true;
          QueueVariant.EvSendBulk Sample.twoNumbers true]
         (QueueVariant.boot Sample.noThrow))
      (QueueVariant.EvDrain 0 (Js.Ok false)) in
  QueueVariant.messageQueue s'
  = [QueueVariant.mkTask "20100000002" (Some "hi") (Some []) 4]
  /\ ~ In (Driver.Begin
            (QueueVariant.promise
               (QueueVariant.mkTask "200100000001" (Some "hi") (Some []) 3))
            (QueueVariant.number
               (QueueVariant.mkTask "200100000001" (Some "hi") (Some []) 3)))
          (QueueVariant.trace s')
  /\ QueueVariant.settlement
       (QueueVariant.promise
          (QueueVariant.mkTask "200100000001" (Some "hi") (Some []) 3))
       (QueueVariant.history
          (QueueVariant.run Sample.fs Sample.noThrow
             [QueueVariant.EvDrain 0 (Js.Ok true);
              QueueVariant.EvDrain 0 (Js.Ok false);
              QueueVariant.EvDrain 0 (Js.Ok true)] s')) = None.
Proof.
  apply (stale_shift_drops_head Sample.fs Sample.noThrow
           [QueueVariant.EvReady;
            QueueVariant.EvSendBulk Sample.threeNumbers true;
            QueueVariant.EvDisconnected;
            QueueVariant.EvDestroySettled 0 true;
            QueueVariant.EvSendBulk Sample.twoNumbers true]
           (QueueVariant.AwaitIsRegistered
              (QueueVariant.mkTask "201" (Some "hi") (Some []) 0))
           (Js.Ok false)
           (QueueVariant.mkTask "200100000001" (Some "hi") (Some []) 3)
           [QueueVariant.mkTask "20100000002" (Some "hi") (Some []) 4]).
  - vm_compute. reflexivity.
  - vm_compute. reflexivity.
  - exists 0, "201". split; [reflexivity|discriminate].
  - vm_compute. reflexivity.
Defined.

(** X17: every call of the loop variant on the driver, and every message
    the queue variant sends, is addressed to a chat [n@c.us] in which [n]
    consists of digits and begins with "20". *)
Theorem chats_are_normalized (fs : Driver.files) :
  (forall net s b r acts a c,
     LoopVariant.sendBulkMessages net fs s b = (r, acts) ->
     In a acts -> Reading.chatOf a = Some c -> Reading.normalizedChat c)
  /\ (forall throws es c co o,
        In (Driver.SendMessage c co o)
           (QueueVariant.trace
              (QueueVariant.run fs throws es (QueueVariant.boot throws))) ->
        Reading.normalizedChat c).
Proof.
  split.
  - intros net s b r acts a c. unfold LoopVariant.sendBulkMessages.
    destruct (negb _); [intros [= <- <-] []|].
    destruct (Js.numbers b) as [[|n ns]|]; try (intros [= <- <-] []).
    destruct (negb (Js.truthy (Js.message b)) && _);
      [intros [= <- <-] []|].
    rewrite loop_sendAll_map, !app_nil_l. intros [= <- <-] Ha Hc.
    apply (proj1 (in_flat_map
                    (fun n => snd (LoopVariant.sendOne net fs b n))
                    (n :: ns) a)) in Ha as (x & _ & Ha).
    apply loop_sendOne_chats in Ha. rewrite Ha in Hc. injection Hc as <-.
    exists (Normalize.formatNumber x).
    split; [reflexivity|].
    split; [apply formatNumber_allDigits|apply formatNumber_startsWith].
  - intros throws es c co o Hin.
    pose (P := fun a => forall c co o,
                 a = Driver.SendMessage c co o -> Reading.normalizedChat c).
    assert (H : QueueVariant.holds
                  (fun t => Normalize.allDigits (QueueVariant.number t) = true
                            /\ Normalize.startsWith "20"
                                 (QueueVariant.number t) = true)
                  (fun _ => True) P
                  (QueueVariant.run fs throws es (QueueVariant.boot throws))).
    { apply (holds_run fs throws).
      - intros a Hs ? ? ? ->. discriminate.
      - intros t mt d mp [Hd Hp] _ ? ? ? [= <- _ _].
        exists (QueueVariant.number t). auto.
      - intros t [Hd Hp] _ ? ? ? [= <- _ _].
        exists (QueueVariant.number t). auto.
      - apply normalized_permitted.
      - repeat split; constructor. }
    destruct H as (_ & _ & H). rewrite Forall_forall in H.
    exact (H _ Hin c co o eq_refl).
Qed.

Lemma chats_are_normalized_witness :
  Reading.normalizedChat "20100000002@c.us".
Proof.
  apply (proj1 (chats_are_normalized Sample.fs) Sample.net Sample.ready
           Sample.twoNumbers
           (fst (LoopVariant.sendBulkMessages Sample.net Sample.fs
                   Sample.ready Sample.twoNumbers))
           (snd (LoopVariant.sendBulkMessages Sample.net Sample.fs
                   Sample.ready Sample.twoNumbers))
           (Driver.IsRegisteredUser "20100000002@c.us"));
    [reflexivity | simpl; auto | reflexivity].
Defined.

(** X18: from a state of the queue variant that events have led to, none
    of them a request that threw, in which a client exists and the loop, if
    there is one, works on the head of the queue or waits for the pacing
    timer, a drain that nothing disturbs comes to an end: every queued task
    has been settled, by a [resolve] or a [reject] that names its number,
    the queue is empty and [isProcessingQueue] is false again. *)
Theorem undisturbed_drain_releases (fs : Driver.files)
    (throws : nat -> bool) (net : Driver.oracle)
    (es : list QueueVariant.event) :
  let s := QueueVariant.run fs throws es (QueueVariant.boot throws) in
  Reading.noneThrown es ->
  QueueVariant.regular s ->
  Js.present (Session.client (QueueVariant.sess s)) = true ->
  exists fuel,
    let s' := QueueVariant.drainAll fs throws net fuel s in
    QueueVariant.drains s' = []
    /\ QueueVariant.isProcessingQueue s' = false
    /\ QueueVariant.messageQueue s' = []
    /\ forall t, In t (QueueVariant.messageQueue s) ->
         exists a, In a (QueueVariant.trace s')
                   /\ QueueVariant.outcomeOf t a.
Proof.
  intros s Hn Hr Hc.
  destruct (QueueVariant.drains s) as [|d [|d' l]] eqn:Ed.
  - exists 0. simpl.
    pose proof (tidy_reached fs throws es Hn) as Ht. fold s in Ht.
    unfold QueueVariant.regular in Hr. rewrite Ed in Hr.
    rewrite (Ht Ed). repeat split; auto. intros t [].
  - destruct (drain_regular fs throws net d s Ed Hr Hc)
      as (k & s1 & Hk & Hd & Hp & Hq & Hall & _).
    exists k. cbv zeta. rewrite Hk. auto.
  - unfold QueueVariant.regular in Hr. rewrite Ed in Hr.
    destruct d; contradiction.
Qed.

Lemma undisturbed_drain_releases_witness :
  exists fuel,
    let s' := QueueVariant.drainAll Sample.fs Sample.noThrow Sample.net fuel
                (QueueVariant.run Sample.fs Sample.noThrow
                   [QueueVariant.EvReady;
                    QueueVariant.EvSendBulk Sample.threeNumbers true]
                   (QueueVariant.boot Sample.noThrow)) in
    QueueVariant.drains s' = []
    /\ QueueVariant.isProcessingQueue s' = false
    /\ QueueVariant.messageQueue s' = []
    /\ forall t,
         In t (QueueVariant.messageQueue
                 (QueueVariant.run Sample.fs Sample.noThrow
                    [QueueVariant.EvReady;
                     QueueVariant.EvSendBulk Sample.threeNumbers true]
                    (QueueVariant.boot Sample.noThrow))) ->
         exists a, In a (QueueVariant.trace s')
                   /\ QueueVariant.outcomeOf t a.
Proof.
  apply (undisturbed_drain_releases Sample.fs Sample.noThrow Sample.net
           [QueueVariant.EvReady;
            QueueVariant.EvSendBulk Sample.threeNumbers true]).
  - intros b error isReady [H|[H|[]]]; discriminate.
  - simpl. split; reflexivity.
  - reflexivity.
Defined.

(** ** The queue variant: a request that throws, and the loop without a
    client *)

(** X20: a request of the queue variant in which [number.toString()]
    throws is answered with status 500 although the tasks of the numbers in
    front of the offending element have been pushed: they stay in the
    queue, and when no loop exists none is started for them. The next
    ['ready'] starts the loop, which takes up the task at the head of the
    queue and asks the driver about its number. *)
Theorem thrown_request_leaves_tasks (fs : Driver.files)
    (throws : nat -> bool) (s : QueueVariant.state)
    (b : Js.body) (error : string) (ns : list string) :
  QueueVariant.drains s = [] ->
  QueueVariant.isProcessingQueue s = false ->
  Js.present (Session.client (QueueVariant.sess s)) = true ->
  Js.numbers b = Some ns ->
  let out := QueueVariant.sendBulkMessagesThrown b error true s in
  let tasks := QueueVariant.makeTasks b ns (QueueVariant.nextPromise s) in
  snd out = QueueVariant.Respond
              (Js.Status500 (Js.ERR_PROCESSING ++ error)%string)
  /\ QueueVariant.messageQueue (fst out) = QueueVariant.messageQueue s ++ tasks
  /\ map QueueVariant.number tasks = map Normalize.formatNumber ns
  /\ QueueVariant.drains (fst out) = []
  /\ QueueVariant.isProcessingQueue (fst out) = false
  /\ QueueVariant.trace (fst out) = QueueVariant.trace s
  /\ forall h,
       hd_error (QueueVariant.messageQueue s ++ tasks) = Some h ->
       let s' :=
         QueueVariant.step fs throws (fst out) QueueVariant.EvReady in
       QueueVariant.drains s' = [QueueVariant.AwaitIsRegistered h]
       /\ QueueVariant.isProcessingQueue s' = true
       /\ QueueVariant.messageQueue s'
          = QueueVariant.messageQueue s ++ tasks
       /\ QueueVariant.trace s'
          = Driver.IsRegisteredUser (QueueVariant.chatId h)
            :: Driver.Begin (QueueVariant.promise h) (QueueVariant.number h)
            :: QueueVariant.trace s.
Proof.
  intros Ed Ep Hc Hn out tasks.
  assert (Eo : out
               = (QueueVariant.setNextPromise
                    (QueueVariant.nextPromise s + length tasks)
                    (QueueVariant.setQueue
                       (QueueVariant.messageQueue s ++ tasks) s),
                  QueueVariant.Respond
                    (Js.Status500 (Js.ERR_PROCESSING ++ error)%string))).
  { unfold out, QueueVariant.sendBulkMessagesThrown.
    rewrite Hc, Hn. reflexivity. }
  rewrite Eo. cbn [fst snd].
  split; [reflexivity|]. split; [reflexivity|].
  split.
  { unfold tasks. generalize (QueueVariant.nextPromise s).
    clear. induction ns as [|x ns IH]; intros p; simpl; [reflexivity|].
    rewrite IH. reflexivity. }
  split; [exact Ed|]. split; [exact Ep|]. split; [reflexivity|].
  intros h Hh. cbn [QueueVariant.step].
  unfold QueueVariant.on_ready, QueueVariant.processMessageQueue.
  cbn [QueueVariant.isProcessingQueue QueueVariant.setSess
       QueueVariant.setNextPromise QueueVariant.setQueue
       QueueVariant.messageQueue].
  rewrite Ep. cbn [orb].
  destruct (QueueVariant.messageQueue s ++ tasks) as [|h' q] eqn:Eq;
    [discriminate|].
  injection Hh as ->. unfold QueueVariant.loopHead.
  cbn [QueueVariant.setProcessing QueueVariant.messageQueue].
  unfold QueueVariant.startTask. cbv zeta.
  cbn [QueueVariant.sess QueueVariant.log QueueVariant.setProcessing
       Session.on_ready Session.client].
  destruct (Session.client (QueueVariant.sess s)) as [c|] eqn:Ec;
    [|discriminate].
  cbn. rewrite Ec. cbn. rewrite Ed. auto.
Qed.

Lemma thrown_request_leaves_tasks_witness :
  let out :=
    QueueVariant.sendBulkMessagesThrown Sample.twoNumbers
      Js.TYPEERR_TOSTRING true Sample.idle in
  let tasks :=
    QueueVariant.makeTasks Sample.twoNumbers ["0100000001"; "100000002"]
      (QueueVariant.nextPromise Sample.idle) in
  snd out = QueueVariant.Respond
              (Js.Status500
                 (Js.ERR_PROCESSING ++ Js.TYPEERR_TOSTRING)%string)
  /\ QueueVariant.messageQueue (fst out)
     = QueueVariant.messageQueue Sample.idle ++ tasks
  /\ map QueueVariant.number tasks
     = map Normalize.formatNumber ["0100000001"; "100000002"]
  /\ QueueVariant.drains (fst out) = []
  /\ QueueVariant.isProcessingQueue (fst out) = false
  /\ QueueVariant.trace (fst out) = QueueVariant.trace Sample.idle
  /\ forall h,
       hd_error (QueueVariant.messageQueue Sample.idle ++ tasks) = Some h ->
       let s' :=
         QueueVariant.step Sample.fs Sample.noThrow (fst out)
           QueueVariant.EvReady in
       QueueVariant.drains s' = [QueueVariant.AwaitIsRegistered h]
       /\ QueueVariant.isProcessingQueue s' = true
       /\ QueueVariant.messageQueue s'
          = QueueVariant.messageQueue Sample.idle ++ tasks
       /\ QueueVariant.trace s'
          = Driver.IsRegisteredUser (QueueVariant.chatId h)
            :: Driver.Begin (QueueVariant.promise h) (QueueVariant.number h)
            :: QueueVariant.trace Sample.idle.
Proof.
  apply (thrown_request_leaves_tasks Sample.fs Sample.noThrow
           Sample.idle Sample.twoNumbers Js.TYPEERR_TOSTRING
           ["0100000001"; "100000002"]);
    reflexivity.
Defined.

(** A request for one number followed by [null]: it is answered with
    status 500, and after the next ['ready'] the number is sent the text
    all the same. *)
Lemma thrown_request_is_sent :
  snd (QueueVariant.sendBulkMessagesThrown Sample.oneNumber
         Js.TYPEERR_TOSTRING true Sample.idle)
  = QueueVariant.Respond
      (Js.Status500 (Js.ERR_PROCESSING ++ Js.TYPEERR_TOSTRING)%string)
  /\ QueueVariant.history
       (QueueVariant.drainAll Sample.fs Sample.noThrow Sample.net 10
          (QueueVariant.run Sample.fs Sample.noThrow
             [QueueVariant.EvSendBulkThrown Sample.oneNumber
                Js.TYPEERR_TOSTRING true;
              QueueVariant.EvReady] Sample.idle))
     = [Driver.Begin 0 "200100000001";
        Driver.IsRegisteredUser "200100000001@c.us";
        Driver.SendMessage "200100000001@c.us" (Driver.Text "hi") None;
        Driver.Resolve 0 "200100000001"].
Proof. split; vm_compute; reflexivity. Qed.



(** The loop of [Sample.torn] continues while [client] is null: its task is
    rejected with the engine's [TypeError] and the text is not sent; the
    handler then clears the queue and constructs the next client. *)
Lemma loop_without_client_sample :
  QueueVariant.drains Sample.torn
  = [QueueVariant.AwaitIsRegistered
       (QueueVariant.mkTask "201" (Some "hi") (Some []) 0)]
  /\ QueueVariant.history
       (QueueVariant.run Sample.fs Sample.noThrow
          [QueueVariant.EvDrain 0 (Js.Ok true);
           QueueVariant.EvTeardownResumed 0] Sample.torn)
     = [Driver.Begin 0 "201";
        Driver.IsRegisteredUser "201@c.us";
        Driver.Reject 0 "201" (Js.TYPEERR_NULL_CLIENT "sendMessage")]
  /\ QueueVariant.messageQueue
       (QueueVariant.run Sample.fs Sample.noThrow
          [QueueVariant.EvDrain 0 (Js.Ok true);
           QueueVariant.EvTeardownResumed 0] Sample.torn) = []
  /\ Session.client
       (QueueVariant.sess
          (QueueVariant.run Sample.fs Sample.noThrow
             [QueueVariant.EvDrain 0 (Js.Ok true);
              QueueVariant.EvTeardownResumed 0] Sample.torn)) = Some 1.
Proof. repeat split; vm_compute; reflexivity. Qed.

(** A handler taken through its [await]s one at a time, with nothing in
    between, does what [EvDestroySettled] does at once. *)
Lemma destroySettled_in_steps (fs : Driver.files) (throws : nat -> bool)
    (s : QueueVariant.state) (i : nat) (destroyed : bool) :
  i < length (QueueVariant.teardowns s) ->
  QueueVariant.setResuming (QueueVariant.resuming s)
    (QueueVariant.run fs throws
       [QueueVariant.EvDestroyReturned i destroyed;
        QueueVariant.EvTeardownResumed
          (length (QueueVariant.resuming s))] s)
  = QueueVariant.step fs throws s
      (QueueVariant.EvDestroySettled i destroyed).
Proof.
  intros Hi. unfold QueueVariant.run. cbn [fold_left QueueVariant.step].
  destruct (nth_error (QueueVariant.teardowns s) i) as [k|] eqn:E;
    [|apply nth_error_None in E; lia].
  unfold QueueVariant.returnTeardown.
  cbn [QueueVariant.resuming QueueVariant.setResuming QueueVariant.setSess
       QueueVariant.setTeardowns].
  rewrite nth_error_app2, Nat.sub_diag by lia. cbn [nth_error].
  assert (R : forall (l : list QueueVariant.teardown) x,
             QueueVariant.replaceAt (length l) None (l ++ [x]) = l).
  { induction l as [|a l IH]; intros x; simpl; [reflexivity|].
    rewrite IH. reflexivity. }
  rewrite R. destruct k; reflexivity.
Qed.

Section CaptionText.

Import Js Driver.

Variable net : oracle.
Variable fs : files.

Lemma caption_sendOne_text b number c m o :
  In (SendMessage c (Text m) o)
     (snd (CaptionVariant.sendOne net fs b number)) ->
  nonEmpty (mediaPaths b) = None
  /\ truthy (message b) = true
  /\ c = Normalize.chatIdOf (Normalize.formatNumber number)
  /\ m = textOf (message b) /\ o = None.
Proof.
  unfold CaptionVariant.sendOne. intros H.
  apply bind_actions in H as [H|(isReg & E & H)];
    [destruct H as [[=]|[]]|].
  destruct isReg; simpl in H; [|tauto].
  apply bind_actions in H as [H|(_ & _ & H)]; [|simpl in H; tauto].
  destruct (nonEmpty (mediaPaths b)) as [[p rest]|].
  - apply (forOf_actions _ (p :: rest)) in H as (x & _ & H).
    apply caption_sendMedia_actions in H as (mt & d & [=]).
  - destruct (truthy (message b)); simpl in H; [|tauto].
    destruct H as [[= <- <- <-]|[]]. auto.
Qed.

End CaptionText.

(** X19: [src/unnamed/part_000] sends the text as a message of its own
    only when the request has no media; with media the text goes out as
    their caption and never by itself. A text that is sent is the message
    of the request, and it goes to the normalised chat of one of the
    numbers of the request. *)
Theorem caption_text_only_without_media (net : Driver.oracle)
    (fs : Driver.files) (s : Session.state) (b : Js.body) (r : Js.response)
    (acts : list Driver.action) (c m : string)
    (o : option Driver.options) :
  CaptionVariant.sendBulkMessages net fs s b = (r, acts) ->
  In (Driver.SendMessage c (Driver.Text m) o) acts ->
  Js.nonEmpty (Js.mediaPaths b) = None
  /\ Js.truthy (Js.message b) = true
  /\ m = Js.textOf (Js.message b) /\ o = None
  /\ exists ns number,
       Js.numbers b = Some ns
       /\ In number ns
       /\ c = Normalize.chatIdOf (Normalize.formatNumber number).
Proof.
  unfold CaptionVariant.sendBulkMessages.
  destruct (negb _); [intros [= <- <-] []|].
  destruct (Js.numbers b) as [[|n ns]|]; try (intros [= <- <-] []).
  intros H Ha.
  destruct (caption_sendAll_actions net fs _ _ _ _ _ _ _ _ H Ha)
    as [[]|(number & Hn & Hin)].
  apply caption_sendOne_text in Hin as (H1 & H2 & H3 & H4 & H5).
  repeat split; auto. exists (n :: ns), number. auto.
Qed.

Lemma caption_text_only_without_media_witness :
  Js.nonEmpty (Js.mediaPaths Sample.twoNumbers) = None
  /\ Js.truthy (Js.message Sample.twoNumbers) = true
  /\ "hi" = Js.textOf (Js.message Sample.twoNumbers)
  /\ @None Driver.options = None
  /\ exists ns number,
       Js.numbers Sample.twoNumbers = Some ns
       /\ In number ns
       /\ "200100000001@c.us"
          = Normalize.chatIdOf (Normalize.formatNumber number).
Proof.
  apply (caption_text_only_without_media Sample.net Sample.fs Sample.ready
           Sample.twoNumbers
           (fst (CaptionVariant.sendBulkMessages Sample.net Sample.fs
                   Sample.ready Sample.twoNumbers))
           (snd (CaptionVariant.sendBulkMessages Sample.net Sample.fs
                   Sample.ready Sample.twoNumbers)));
    [reflexivity | simpl; auto].
Defined.
